(** * The transcription and diarization pipeline of [lambda-transcribe]

    A shallow embedding of [transcribe.py], [diarize.py], [format_output.py],
    [download.py] and [handler.py], and the properties of the pipeline that
    the specification states about them.

    Conventions of the model.
    - Python [float] times and scores are rationals ([Q]): [max], [min] and
      comparisons are exact on floats; sums, differences and [round] are
      taken exactly, without the rounding error of binary floating point.
    - Python [str] is [string]; the built-ins used by the code ([strip],
      [replace], [int], [join], [split], [round]) are written out for
      ASCII text.
    - The segment dictionaries are objects in a store ([w_heap]) and the code
      passes their addresses around, as Python does.
    - Exceptions are an error result; module globals, the environment, the
      scratch directory and the log of external calls are fields of [World].
    - The engines and the network are oracles ([Externals]): every theorem
      holds for all of their behaviours unless it names one. *)

From Stdlib Require Import ZArith QArith Qabs Qminmax Lqa String Ascii List Lia DecimalString.
From stdpp Require Import base option list strings gmap.

Local Open Scope Z_scope.
Local Open Scope list_scope.
Local Open Scope stdpp_scope.

(* ===================================================================== *)
(** * Python built-ins used by the sources                                *)
(* ===================================================================== *)

Module Py.

(** [str.isspace] on the ASCII range: TAB..CR, FS..US and the blank. *)
Definition isspace (c : ascii) : bool :=
  let n := nat_of_ascii c in
  ((9 <=? n)%nat && (n <=? 13)%nat) || ((28 <=? n)%nat && (n <=? 32)%nat).

Fixpoint lstrip (s : string) : string :=
  match s with
  | String c r => if isspace c then lstrip r else s
  | EmptyString => EmptyString
  end.

Definition rstrip (s : string) : string := String.rev (lstrip (String.rev s)).

(** [s.strip()] *)
Definition strip (s : string) : string := rstrip (lstrip s).

(** Truth value of a string and of an optional string ([None] and [""]
    are false). *)
Definition truthy (s : string) : bool :=
  match s with EmptyString => false | _ => true end.

Definition truthy_opt (o : option string) : bool :=
  match o with Some s => truthy s | None => false end.

(** [a or b] on optional strings. *)
Definition or_else (a b : option string) : option string :=
  if truthy_opt a then a else b.

(** [sub in s] *)
Fixpoint contains (sub s : string) : bool :=
  String.prefix sub s ||
  match s with
  | String _ r => contains sub r
  | EmptyString => false
  end.

(** [s.replace(old, "")] for a non-empty [old]: the occurrences are found
    from the left and do not overlap. [skip] counts the characters of the
    occurrence being removed. *)
Fixpoint remove_go (old : string) (skip : nat) (s : string) : string :=
  match s with
  | EmptyString => EmptyString
  | String c r =>
      match skip with
      | S k => remove_go old k r
      | O =>
          if String.prefix old s
          then remove_go old (Nat.pred (String.length old)) r
          else String c (remove_go old 0 r)
      end
  end.

Definition remove_all (old s : string) : string := remove_go old 0 s.

Definition digit_val (c : ascii) : option Z :=
  match Ascii.is_nat c with Some n => Some (Z.of_nat n) | None => None end.

Definition is_underscore (c : ascii) : bool :=
  if ascii_dec c "_"%char then true else false.

(** Digits of a decimal literal as [int] reads them: at least one digit,
    single underscores allowed between digits. [prev_digit] tells whether
    the character before was a digit. *)
Fixpoint int_digits (acc : Z) (prev_digit : bool) (s : string) : option Z :=
  match s with
  | EmptyString => if prev_digit then Some acc else None
  | String c r =>
      match digit_val c with
      | Some d => int_digits (10 * acc + d) true r
      | None =>
          if is_underscore c && prev_digit
          then match r with
               | String c' _ =>
                   match digit_val c' with
                   | Some _ => int_digits acc false r
                   | None => None
                   end
               | EmptyString => None
               end
          else None
      end
  end.

(** [int(s)]: [None] stands for [ValueError]. *)
Definition int_of_str (s : string) : option Z :=
  match strip s with
  | String "+" r => int_digits 0 false r
  | String "-" r => option_map Z.opp (int_digits 0 false r)
  | t => int_digits 0 false t
  end.

(** [str(n)] and [f"{n}"] for an [int]. *)
Definition str_of_int (n : Z) : string := NilZero.string_of_int (Z.to_int n).

(** [sep.join(xs)] *)
Fixpoint join (sep : string) (xs : list string) : string :=
  match xs with
  | [] => EmptyString
  | [x] => x
  | x :: rest => x +:+ sep +:+ join sep rest
  end.

(** [s.split(c)] for a one-character separator: never empty. *)
Fixpoint split_on (c : ascii) (s : string) : list string :=
  match s with
  | EmptyString => [EmptyString]
  | String a r =>
      if ascii_dec a c then EmptyString :: split_on c r
      else match split_on c r with
           | h :: t => String a h :: t
           | [] => [String a EmptyString]
           end
  end.

(** [len(s.split())]: the number of maximal runs of non-blank characters.
    [in_word] tells whether the previous character was part of a run. *)
Fixpoint count_tokens (in_word : bool) (s : string) : nat :=
  match s with
  | EmptyString => 0%nat
  | String c r =>
      if isspace c then count_tokens false r
      else if in_word then count_tokens true r
      else S (count_tokens true r)
  end.

(** [max(a, b)] and [min(a, b)]: the first argument wins unless the second
    is strictly larger (smaller). *)
Definition max (a b : Q) : Q := if Qlt_le_dec a b then b else a.
Definition min (a b : Q) : Q := if Qlt_le_dec b a then b else a.

(** Nearest integer, ties to the even one. *)
Definition round_half_even (x : Q) : Z :=
  let n := Qnum x in
  let d := Z.pos (Qden x) in
  let q := n / d in
  match 2 * (n mod d) ?= d with
  | Lt => q
  | Gt => q + 1
  | Eq => if Z.even q then q else q + 1
  end.

Definition pow10 (ndigits : nat) : positive := Z.to_pos (10 ^ Z.of_nat ndigits).

(** [round(x, ndigits)] *)
Definition round (x : Q) (ndigits : nat) : Q :=
  Qmake (round_half_even (x * inject_Z (Z.pos (pow10 ndigits)))) (pow10 ndigits).

(** [int(x)] for a float: truncation towards zero. *)
Definition int_of_float (x : Q) : Z := Z.quot (Qnum x) (Z.pos (Qden x)).

(** [len(set(xs))] for integers. *)
Definition count_distinct (xs : list Z) : nat := length (remove_dups xs).

End Py.

(* ===================================================================== *)
(** * Data model                                                          *)
(* ===================================================================== *)

(** A word dictionary of a segment: keys ["word"], ["start"], ["end"],
    ["score"]; [None] is an absent key. *)
Record Word := {
  word_text : string;
  word_start : option Q;
  word_end : option Q;
  word_score : option Q
}.

(** A segment dictionary: keys ["start"], ["end"], ["text"], ["words"],
    ["confidence"] and, once diarized, ["speaker"]. *)
Record Segment := {
  seg_start : option Q;
  seg_end : option Q;
  seg_text : option string;
  seg_words : option (list Word);
  seg_confidence : option Q;
  seg_speaker : option string
}.

(** One item of [diarization.itertracks(yield_label=True)]. *)
Record Turn := {
  turn_start : Q;
  turn_end : Q;
  turn_speaker : string
}.

(** A formatted word and an utterance, as [format_output] builds them. *)
Record FormattedWord := {
  fw_word : string;
  fw_start : Q;
  fw_end : Q;
  fw_confidence : Q
}.

Record Utterance := {
  utt_speaker : Z;
  utt_start : Q;
  utt_end : Q;
  utt_text : string;
  utt_confidence : Q;
  utt_words : list FormattedWord
}.

(** Values of the result envelope. *)
Inductive JVal :=
| JNull
| JStr (s : string)
| JInt (n : Z)
| JNum (x : Q)
| JUtterances (us : list Utterance)
| JObject (fields : gmap string (list Utterance)).

(** The job payload of [process_transcription]; [None] is an absent key. *)
Record JobEvent := {
  ev_recording_id : string;
  ev_audio_url : option string;
  ev_video_url : option string;
  ev_callback_url : string;
  ev_callback_secret : string;
  ev_language : option string;
  ev_model_size : option string;
  ev_num_speakers : option Z
}.

(** Exceptions: every one the pipeline meets derives from [Exception]; the
    string is [str(e)]. *)
Inductive Exn := Exception (msg : string).

Definition str_of_exn (e : Exn) : string := match e with Exception m => m end.

Inductive Result (A : Type) :=
| Ok (a : A)
| Raise (e : Exn).
Arguments Ok {A} a.
Arguments Raise {A} e.

(** What [model.transcribe] of Whisper returns: a dictionary whose
    ["language"] and ["segments"] entries may be absent. *)
Record TranscribeResult := {
  res_language : option string;
  res_segments : option (list Segment)
}.

(** A loaded Whisper model: path and language option to a result. *)
Abbreviation WhisperModel := (string -> option string -> Result TranscribeResult)
  (only parsing).

(** A loaded pyannote pipeline: path and [num_speakers] keyword to the turns. *)
Abbreviation DiarizationPipeline := (string -> option Z -> Result (list Turn))
  (only parsing).

(** Calls that leave the process, in the order they are made. *)
Inductive Event :=
| EvWhisperLoad (model_name : string)
| EvWhisperTranscribe (model_name wav_path : string) (language : option string)
| EvPipelineLoad (token : string)
| EvPipelineRun (wav_path : string) (num_speakers : option Z)
| EvDownload (url path : string)
| EvFfmpeg (input_path wav_path : string)
| EvFfprobe (wav_path : string)
| EvGlob (pattern : string)
| EvRemove (path : string)
| EvPost (url body signature : string).

(** Addresses of segment objects. *)
Abbreviation loc := nat (only parsing).

Record World := {
  w_heap : list Segment;
  w_environ : gmap string string;
  _model_cache : gmap string WhisperModel;
  _diarize_model : option DiarizationPipeline;
  w_tmp : list string;
  w_ticks : nat;
  w_trace : list Event
}.

(** The behaviour of everything outside the process. *)
Record Externals := {
  (** [whisper.load_model(name)] *)
  whisper_load_model : string -> Result WhisperModel;
  (** [Pipeline.from_pretrained(..., use_auth_token=token)]; the library
      returns [None] when the model cannot be fetched with the token. *)
  Pipeline_from_pretrained : string -> Result (option DiarizationPipeline);
  (** [download_file(url, path)] and whether a file is left at [path]. *)
  download_file : string -> string -> Result Z * bool;
  (** The [ffmpeg] run of [convert_to_wav] followed by [os.path.getsize],
      and whether a file is left at the output path. *)
  ffmpeg : string -> string -> Result Z * bool;
  (** The [ffprobe] run: the duration it prints, [None] when its output is
      not a number. *)
  ffprobe : string -> Result (option Q);
  (** [os.remove(path)]: [false] is an [OSError]. *)
  os_remove : string -> bool;
  (** [time.time()] at the n-th reading. *)
  time_time : nat -> Q;
  json_dumps : gmap string JVal -> string;
  hmac_sha256_hex : string -> string -> string;
  (** [requests.post]: the status code. *)
  requests_post : string -> string -> string -> Result Z
}.

(* ===================================================================== *)
(** * State and exceptions                                                *)
(* ===================================================================== *)

(** A computation over a state [S] that returns or raises; the state
    survives a raise, as the effects of a Python statement do. *)
Definition M (S A : Type) : Type := S -> Result A * S.

Definition ret {S A} (a : A) : M S A := fun s => (Ok a, s).

Definition raise {S A} (e : Exn) : M S A := fun s => (Raise e, s).

Definition bind {S A B} (m : M S A) (k : A -> M S B) : M S B :=
  fun s =>
    match m s with
    | (Ok a, s') => k a s'
    | (Raise e, s') => (Raise e, s')
    end.

Notation "'let*' x ':=' m 'in' k" := (bind m (fun x => k))
  (at level 10, x name, m at level 100, k at level 200).
Notation "'let*' ' pat ':=' m 'in' k" :=
  (bind m (fun x => match x with pat => k end))
  (at level 10, pat pattern, m at level 100, k at level 200).
Notation "m ;; k" := (bind m (fun _ => k))
  (at level 100, k at level 200, right associativity).

(** [try: m except Exception as e: h e] *)
Definition try_except {S A} (m : M S A) (h : Exn -> M S A) : M S A :=
  fun s =>
    match m s with
    | (Ok a, s') => (Ok a, s')
    | (Raise e, s') => h e s'
    end.

(** [try: m finally: f]; an exception of [f] replaces the outcome of [m]. *)
Definition try_finally {S A} (m : M S A) (f : M S unit) : M S A :=
  fun s =>
    match m s with
    | (r, s') =>
        match f s' with
        | (Ok _, s'') => (r, s'')
        | (Raise e, s'') => (Raise e, s'')
        end
    end.

Definition get {S} : M S S := fun s => (Ok s, s).
Definition modify {S} (f : S -> S) : M S unit := fun s => (Ok tt, f s).

(** Turn an oracle's answer into a return or a raise. *)
Definition of_result {S A} (r : Result A) : M S A := fun s => (r, s).

(** Field updates of [World]. *)
Definition set_heap (h : list Segment) (w : World) : World :=
  {| w_heap := h; w_environ := w_environ w; _model_cache := _model_cache w;
     _diarize_model := _diarize_model w; w_tmp := w_tmp w;
     w_ticks := w_ticks w; w_trace := w_trace w |}.

Definition set_model_cache (c : gmap string WhisperModel) (w : World) : World :=
  {| w_heap := w_heap w; w_environ := w_environ w; _model_cache := c;
     _diarize_model := _diarize_model w; w_tmp := w_tmp w;
     w_ticks := w_ticks w; w_trace := w_trace w |}.

Definition set_diarize_model (m : option DiarizationPipeline) (w : World) : World :=
  {| w_heap := w_heap w; w_environ := w_environ w; _model_cache := _model_cache w;
     _diarize_model := m; w_tmp := w_tmp w;
     w_ticks := w_ticks w; w_trace := w_trace w |}.

Definition set_tmp (fs : list string) (w : World) : World :=
  {| w_heap := w_heap w; w_environ := w_environ w; _model_cache := _model_cache w;
     _diarize_model := _diarize_model w; w_tmp := fs;
     w_ticks := w_ticks w; w_trace := w_trace w |}.

Definition set_ticks (n : nat) (w : World) : World :=
  {| w_heap := w_heap w; w_environ := w_environ w; _model_cache := _model_cache w;
     _diarize_model := _diarize_model w; w_tmp := w_tmp w;
     w_ticks := n; w_trace := w_trace w |}.

Definition set_trace (t : list Event) (w : World) : World :=
  {| w_heap := w_heap w; w_environ := w_environ w; _model_cache := _model_cache w;
     _diarize_model := _diarize_model w; w_tmp := w_tmp w;
     w_ticks := w_ticks w; w_trace := t |}.

(** Record one external call. *)
Definition emit (e : Event) : M World unit :=
  modify (fun w => set_trace (w_trace w ++ [e]) w).

Definition newline : string := String "010"%char EmptyString.

Definition DEFAULT_SPEAKER : string := "SPEAKER_00".

Definition with_speaker (label : string) (seg : Segment) : Segment :=
  {| seg_start := seg_start seg; seg_end := seg_end seg; seg_text := seg_text seg;
     seg_words := seg_words seg; seg_confidence := seg_confidence seg;
     seg_speaker := Some label |}.

Section Pipeline.

Variable ext : Externals.

(* =================================================================== *)
(** ** transcribe.py                                                    *)
(* =================================================================== *)

Definition model_map : gmap string string :=
  {[ "large-v3" := "large"; "large-v2" := "large" ]}.

(** The segment dictionaries of an engine result become objects of the
    store; their addresses are what the pipeline passes on. *)
Definition alloc (segs : list Segment) : M World (list loc) :=
  fun w => (Ok (seq (length (w_heap w)) (length segs)),
            set_heap (w_heap w ++ segs) w).

(** Lines 33-35: load the model on a cache miss. *)
Definition fill_model_cache (model_name : string) : M World unit :=
  let* w := get in
  match _model_cache w !! model_name with
  | None =>
      emit (EvWhisperLoad model_name);;
      let* m := of_result (whisper_load_model ext model_name) in
      modify (fun w => set_model_cache (<[model_name := m]> (_model_cache w)) w)
  | Some _ => ret tt
  end.

Definition transcribe (wav_path model_size : string) (language : option string)
  : M World (list loc * string) :=
  let model_name := default model_size (model_map !! model_size) in
  fill_model_cache model_name;;
  let* w := get in
  match _model_cache w !! model_name with
  | None => raise (Exception "KeyError")
  | Some model =>
      let opt_language := if Py.truthy_opt language then language else None in
      emit (EvWhisperTranscribe model_name wav_path opt_language);;
      let* result := of_result (model wav_path opt_language) in
      let detected_language :=
        match res_language result with
        | Some l => l
        | None => if Py.truthy_opt language then default "en" language else "en"
        end in
      let segments := default [] (res_segments result) in
      match segments with
      | [] => ret ([], detected_language)
      | _ => let* locs := alloc segments in ret (locs, detected_language)
      end
  end.

(* =================================================================== *)
(** ** diarize.py                                                       *)
(* =================================================================== *)

(** The [speaker_times] dictionary: keys in insertion order. *)
Fixpoint dict_get (d : list (string * Q)) (k : string) (dflt : Q) : Q :=
  match d with
  | [] => dflt
  | (k', v) :: r => if decide (k' = k) then v else dict_get r k dflt
  end.

Fixpoint dict_set (d : list (string * Q)) (k : string) (v : Q) : list (string * Q) :=
  match d with
  | [] => [(k, v)]
  | (k', v') :: r => if decide (k' = k) then (k, v) :: r else (k', v') :: dict_set r k v
  end.

Definition overlap (seg_start seg_end : Q) (turn : Turn) : Q :=
  let overlap_start := Py.max seg_start (turn_start turn) in
  let overlap_end := Py.min seg_end (turn_end turn) in
  Py.max 0 (overlap_end - overlap_start)%Q.

(** The inner loop over [itertracks]. *)
Definition add_turn (seg_start seg_end : Q) (speaker_times : list (string * Q))
    (turn : Turn) : list (string * Q) :=
  let o := overlap seg_start seg_end turn in
  if Qlt_le_dec 0 o
  then dict_set speaker_times (turn_speaker turn)
         (dict_get speaker_times (turn_speaker turn) 0 + o)%Q
  else speaker_times.

Definition speaker_times_of (seg_start seg_end : Q) (diarization : list Turn)
  : list (string * Q) :=
  fold_left (add_turn seg_start seg_end) diarization [].

(** [max(d, key=d.get)]: the first key, in iteration order, whose value no
    later value exceeds. *)
Fixpoint max_key_from (best : string) (best_val : Q) (rest : list (string * Q))
  : string :=
  match rest with
  | [] => best
  | (k, v) :: r =>
      if Qlt_le_dec best_val v then max_key_from k v r else max_key_from best best_val r
  end.

(** The label the loop body stores in [seg["speaker"]]. *)
Definition speaker_for (seg : Segment) (diarization : list Turn) : string :=
  let seg_start := default 0%Q (seg_start seg) in
  let seg_end := default seg_start (seg_end seg) in
  match speaker_times_of seg_start seg_end diarization with
  | [] => DEFAULT_SPEAKER
  | (k, v) :: r => max_key_from k v r
  end.

(** [for seg in segments: seg["speaker"] = "SPEAKER_00"], on the store.
    An address always denotes a live object; at one that does not, the
    store is left as it is. *)
Definition assign_default (segments : list loc) (h : list Segment) : list Segment :=
  fold_left (fun h l => alter (with_speaker DEFAULT_SPEAKER) l h) segments h.

(** The loop of lines 59-76, on the store. *)
Definition assign_by_overlap (diarization : list Turn) (segments : list loc)
    (h : list Segment) : list Segment :=
  fold_left
    (fun h l =>
       match h !! l with
       | Some seg => <[l := with_speaker (speaker_for seg diarization) seg]> h
       | None => h
       end)
    segments h.

Definition update_heap (f : list Segment -> list Segment) : M World unit :=
  modify (fun w => set_heap (f (w_heap w)) w).

(** Lines 40-45: load the pipeline while the global is [None]. *)
Definition fill_diarize_model (hf_token : string) : M World unit :=
  let* w := get in
  match _diarize_model w with
  | None =>
      emit (EvPipelineLoad hf_token);;
      let* p := of_result (Pipeline_from_pretrained ext hf_token) in
      modify (set_diarize_model p)
  | Some _ => ret tt
  end.

(** Lines 48-53: the hint is passed on when it is a positive integer. *)
Definition kwargs_of (num_speakers : option Z) : option Z :=
  match num_speakers with
  | Some n => if 0 <? n then Some n else None
  | None => None
  end.

Definition diarize (wav_path : string) (segments : list loc) (num_speakers : option Z)
  : M World (list loc) :=
  match segments with
  | [] => ret segments
  | _ =>
      let* w := get in
      let hf_token := w_environ w !! "HF_TOKEN" in
      if negb (Py.truthy_opt hf_token)
      then update_heap (assign_default segments);; ret segments
      else
        let token := default "" hf_token in
        fill_diarize_model token;;
        let diarize_kwargs := kwargs_of num_speakers in
        try_except
          (let* w := get in
           match _diarize_model w with
           | None => raise (Exception "'NoneType' object is not callable")
           | Some model =>
               emit (EvPipelineRun wav_path diarize_kwargs);;
               let* diarization := of_result (model wav_path diarize_kwargs) in
               update_heap (assign_by_overlap diarization segments);;
               ret segments
           end)
          (fun e => update_heap (assign_default segments);; ret segments)
  end.

(* =================================================================== *)
(** ** format_output.py                                                 *)
(* =================================================================== *)

(** Lines 36-42: the label defaults to ["SPEAKER_00"], and a label that
    [int] rejects gives 0. *)
Definition speaker_num_of (segment : Segment) : Z :=
  let speaker_label := default DEFAULT_SPEAKER (seg_speaker segment) in
  default 0 (Py.int_of_str (Py.remove_all "SPEAKER_" speaker_label)).

(** The inner loop of lines 50-58, [words] being the list built so far. *)
Fixpoint format_words (ws : list Word) (words : list FormattedWord)
  : list FormattedWord :=
  match ws with
  | [] => words
  | w :: r =>
      match word_start w, word_end w with
      | Some s, Some e =>
          format_words r
            (words ++ [ {| fw_word := word_text w;
                           fw_start := Py.round s 3;
                           fw_end := Py.round e 3;
                           fw_confidence := Py.round (default 0%Q (word_score w)) 4 |} ])
      | _, _ => format_words r words
      end
  end.

Definition text_line (speaker_num : Z) (text : string) : string :=
  "Speaker " +:+ Py.str_of_int speaker_num +:+ ": " +:+ text.

(** One iteration of the loop of lines 35-69 on the two lists it fills. *)
Definition format_segment (acc : list Utterance * list string) (segment : Segment)
  : list Utterance * list string :=
  let '(utterances, text_lines) := acc in
  let speaker_num := speaker_num_of segment in
  let text := Py.strip (default "" (seg_text segment)) in
  if negb (Py.truthy text) then acc
  else
    let words := format_words (default [] (seg_words segment)) [] in
    let utterance :=
      {| utt_speaker := speaker_num;
         utt_start := Py.round (default 0%Q (seg_start segment)) 3;
         utt_end := Py.round (default 0%Q (seg_end segment)) 3;
         utt_text := text;
         utt_confidence := Py.round (default 0%Q (seg_confidence segment)) 4;
         utt_words := words |} in
    (utterances ++ [utterance], text_lines ++ [text_line speaker_num text]).

Definition format_output (diarized_segments : list Segment)
  : string * gmap string (list Utterance) * list Utterance :=
  match diarized_segments with
  | [] => ("", {[ "utterances" := [] ]}, [])
  | _ =>
      let '(utterances, text_lines) :=
        fold_left format_segment diarized_segments ([], []) in
      (Py.join newline text_lines, {[ "utterances" := utterances ]}, utterances)
  end.

(* =================================================================== *)
(** ** download.py                                                     *)
(* =================================================================== *)

(** The scratch directory [/tmp] is the list [w_tmp] of the paths in it. *)
Definition touch (path : string) (fs : list string) : list string :=
  if decide (path ∈ fs) then fs else fs ++ [path].

Definition download_audio (audio_url recording_id : string) : M World string :=
  let ext_ :=
    if Py.contains ".webm" audio_url then ".webm"
    else if Py.contains ".mp4" audio_url then ".mp4"
    else if Py.contains ".wav" audio_url then ".wav"
    else ".mp3" in
  let path := "/tmp/" +:+ recording_id +:+ "_input" +:+ ext_ in
  emit (EvDownload audio_url path);;
  let '(r, kept) := download_file ext audio_url path in
  (if kept then modify (fun w => set_tmp (touch path (w_tmp w)) w) else ret tt);;
  of_result r;;
  ret path.

(** [glob.glob(stem + "*")] for a stem without pattern characters: the
    entries of the directory that begin with the stem. *)
Definition glob_star (stem : string) (fs : list string) : list string :=
  filter (fun f => String.prefix stem f = true) fs.

(** The inner loop of [cleanup_temp_files]: an [OSError] of [os.remove] is
    caught and the file stays. *)
Definition remove_paths (paths : list string) : M World unit :=
  fold_right
    (fun path rest =>
       emit (EvRemove path);;
       (if os_remove ext path
        then modify (fun w => set_tmp (filter (fun f => f <> path) (w_tmp w)) w)
        else ret tt);;
       rest)
    (ret tt) paths.

Definition cleanup_temp_files (recording_id : string) : M World unit :=
  let patterns :=
    [ "/tmp/" +:+ recording_id +:+ "_input";
      "/tmp/" +:+ recording_id +:+ "_audio" ] in
  fold_right
    (fun stem rest =>
       emit (EvGlob (stem +:+ "*"));;
       let* w := get in
       remove_paths (glob_star stem (w_tmp w));;
       rest)
    (ret tt) patterns.

(* =================================================================== *)
(** ** handler.py                                                      *)
(* =================================================================== *)

Definition convert_to_wav (input_path recording_id : string) : M World string :=
  let wav_path := "/tmp/" +:+ recording_id +:+ "_audio.wav" in
  emit (EvFfmpeg input_path wav_path);;
  let '(r, kept) := ffmpeg ext input_path wav_path in
  (if kept then modify (fun w => set_tmp (touch wav_path (w_tmp w)) w) else ret tt);;
  of_result r;;
  ret wav_path.

Definition get_audio_duration (wav_path : string) : M World Q :=
  emit (EvFfprobe wav_path);;
  let* out := of_result (ffprobe ext wav_path) in
  match out with
  | Some d => ret (Py.round d 2)
  | None => ret 0%Q
  end.

Definition _send_callback (callback_url secret : string) (payload : gmap string JVal)
  : M World unit :=
  let body := json_dumps ext payload in
  let signature := hmac_sha256_hex ext secret body in
  try_except
    (emit (EvPost callback_url body signature);;
     let* status_code := of_result (requests_post ext callback_url body signature) in
     ret tt)
    (fun e => ret tt).

(** [time.time()] *)
Definition now : M World Q :=
  fun w => (Ok (time_time ext (w_ticks w)), set_ticks (S (w_ticks w)) w).

(** The frame of [process_transcription]: the world and the local
    dictionary [result], which the body, the handler and the [finally]
    block all see. *)
Record Frame := {
  f_world : World;
  result : gmap string JVal
}.

Definition lift {A} (m : M World A) : M Frame A :=
  fun fr =>
    match m (f_world fr) with
    | (r, w) => (r, {| f_world := w; result := result fr |})
    end.

(** [result[key] = v] *)
Definition set_result (key : string) (v : JVal) : M Frame unit :=
  modify (fun fr => {| f_world := f_world fr; result := <[key := v]> (result fr) |}).

Definition in_frame {A} (init : gmap string JVal) (m : M Frame A) : M World A :=
  fun w =>
    match m {| f_world := w; result := init |} with
    | (r, fr) => (r, f_world fr)
    end.

(** Reading the current contents of the segment objects. *)
Definition contents (segments : list loc) : M World (list Segment) :=
  fun w => (Ok (omap (fun l => w_heap w !! l) segments), w).

(** The body of the [try] block, lines 46-94. *)
Definition run_stages (event : JobEvent) (start_time : Q) : M Frame unit :=
  let recording_id := ev_recording_id event in
  let audio_url := Py.or_else (ev_audio_url event) (ev_video_url event) in
  (if negb (Py.truthy_opt audio_url)
   then raise (Exception "No audio_url or video_url provided")
   else ret tt);;
  let* local_path := lift (download_audio (default "" audio_url) recording_id) in
  let* wav_path := lift (convert_to_wav local_path recording_id) in
  let model_size := default "medium" (ev_model_size event) in
  let language := ev_language event in
  let* '(segments, detected_language) :=
    lift (transcribe wav_path model_size language) in
  let num_speakers := ev_num_speakers event in
  let* diarized_segments := lift (diarize wav_path segments num_speakers) in
  let* segs := lift (contents diarized_segments) in
  let '(transcript_text, transcript_json, utterances) := format_output segs in
  let* duration_seconds := lift (get_audio_duration wav_path) in
  set_result "status" (JStr "success");;
  set_result "transcript_text" (JStr transcript_text);;
  set_result "transcript_json" (JObject transcript_json);;
  set_result "transcript_utterances" (JUtterances utterances);;
  set_result "duration_seconds" (JNum duration_seconds);;
  set_result "language" (JStr detected_language);;
  set_result "word_count" (JInt (Z.of_nat (Py.count_tokens false transcript_text)));;
  set_result "speaker_count"
    (JInt (Z.of_nat (Py.count_distinct (map utt_speaker utterances))));;
  let* t := lift now in
  set_result "processing_seconds" (JInt (Py.int_of_float (t - start_time)%Q)).

(** The [except Exception as e] block, lines 96-99. *)
Definition on_exception (start_time : Q) (e : Exn) : M Frame unit :=
  set_result "error" (JStr (str_of_exn e));;
  let* t := lift now in
  set_result "processing_seconds" (JInt (Py.int_of_float (t - start_time)%Q)).

(** The [finally] block, lines 101-106. *)
Definition finalize (event : JobEvent) : M Frame unit :=
  lift (cleanup_temp_files (ev_recording_id event));;
  let* fr := get in
  lift (_send_callback (ev_callback_url event) (ev_callback_secret event) (result fr)).

Definition process_transcription (event : JobEvent) : M World (gmap string JVal) :=
  let recording_id := ev_recording_id event in
  let* start_time := now in
  in_frame
    {[ "recording_id" := JStr recording_id; "status" := JStr "error"; "error" := JNull ]}
    (try_finally
       (try_except (run_stages event start_time) (on_exception start_time))
       (finalize event);;
     let* fr := get in
     ret (result fr)).

(* =================================================================== *)
(** ** Two jobs on the model caches                                    *)
(* =================================================================== *)

(** [server.py] runs each job on a worker thread, so the statements of the
    cache fill of two jobs interleave. The fill has three steps: the test
    of the cache, the call of the loader, and the store of its result. *)
Inductive FillPc (H : Type) :=
| AtCheck
| AtLoad
| AtStore (h : H)
| Filled
| Failed (e : Exn).
Arguments AtCheck {H}.
Arguments AtLoad {H}.
Arguments AtStore {H} h.
Arguments Filled {H}.
Arguments Failed {H} e.

(** One step of [fill_model_cache]. *)
Definition model_cache_step (model_name : string) (pc : FillPc WhisperModel)
    (w : World) : FillPc WhisperModel * World :=
  match pc with
  | AtCheck =>
      match _model_cache w !! model_name with
      | None => (AtLoad, w)
      | Some _ => (Filled, w)
      end
  | AtLoad =>
      let w' := set_trace (w_trace w ++ [EvWhisperLoad model_name]) w in
      match whisper_load_model ext model_name with
      | Ok m => (AtStore m, w')
      | Raise e => (Failed e, w')
      end
  | AtStore m => (Filled, set_model_cache (<[model_name := m]> (_model_cache w)) w)
  | Filled => (Filled, w)
  | Failed e => (Failed e, w)
  end.

(** One step of [fill_diarize_model]. *)
Definition diarize_model_step (hf_token : string)
    (pc : FillPc (option DiarizationPipeline)) (w : World)
  : FillPc (option DiarizationPipeline) * World :=
  match pc with
  | AtCheck =>
      match _diarize_model w with
      | None => (AtLoad, w)
      | Some _ => (Filled, w)
      end
  | AtLoad =>
      let w' := set_trace (w_trace w ++ [EvPipelineLoad hf_token]) w in
      match Pipeline_from_pretrained ext hf_token with
      | Ok p => (AtStore p, w')
      | Raise e => (Failed e, w')
      end
  | AtStore p => (Filled, set_diarize_model p w)
  | Filled => (Filled, w)
  | Failed e => (Failed e, w)
  end.

Inductive Job := Job1 | Job2.

(** Two jobs at their program points over the shared world, and a
    schedule: the job that takes each next step. *)
Definition schedule_step {P} (step : P -> World -> P * World)
    (c : P * P * World) (j : Job) : P * P * World :=
  let '(pc1, pc2, w) := c in
  match j with
  | Job1 => let '(pc, w') := step pc1 w in (pc, pc2, w')
  | Job2 => let '(pc, w') := step pc2 w in (pc1, pc, w')
  end.

Definition run_schedule {P} (step : P -> World -> P * World)
    (sched : list Job) (c : P * P * World) : P * P * World :=
  fold_left (schedule_step step) sched c.

Definition is_load (e : Event) : bool :=
  match e with
  | EvWhisperLoad _ | EvPipelineLoad _ => true
  | _ => false
  end.

(** The number of model loads in a log. *)
Definition loads (t : list Event) : nat := length (filter (fun e => is_load e = true) t).

Definition finished {H} (pc : FillPc H) : bool :=
  match pc with
  | Filled | Failed _ => true
  | _ => false
  end.

End Pipeline.

Arguments AtCheck {H}.
Arguments AtLoad {H}.
Arguments AtStore {H} h.
Arguments Filled {H}.
Arguments Failed {H} e.
Arguments assign_default : simpl never.
Arguments assign_by_overlap : simpl never.

(* ===================================================================== *)
(** * Notions of the specification                                        *)
(* ===================================================================== *)

Definition Qsum (xs : list Q) : Q := fold_right Qplus 0%Q xs.

(** The interval of a segment as [diarize] reads it: a missing start is 0, a
    missing end is the start. *)
Definition interval_start (seg : Segment) : Q := default 0%Q (seg_start seg).
Definition interval_end (seg : Segment) : Q := default (interval_start seg) (seg_end seg).




(** The accumulated overlap in terms of [overlap], the function of the code. *)
Definition total_overlap (speaker : string) (seg_start seg_end : Q) (turns : list Turn) : Q :=
  Qsum (map (overlap seg_start seg_end)
          (filter (fun t => turn_speaker t = speaker) turns)).

(** [y] is [x] rounded to [ndigits] decimals: a multiple of [10^-ndigits] at
    most half a unit of the last digit away. *)
Definition rounded_to (ndigits : nat) (x y : Q) : Prop :=
  (exists k : Z, y = Qmake k (Py.pow10 ndigits)) /\
  (Qabs (y - x) <= Qmake 1 (2 * Py.pow10 ndigits))%Q.

(** A segment that yields an utterance: its trimmed text is not empty. *)
Definition has_text (seg : Segment) : bool :=
  Py.truthy (Py.strip (default "" (seg_text seg))).

(** A word with both timestamps. *)
Definition has_both (w : Word) : bool :=
  match word_start w, word_end w with
  | Some _, Some _ => true
  | _, _ => false
  end.

Fixpoint has_char (c : ascii) (s : string) : bool :=
  match s with
  | EmptyString => false
  | String a r => if ascii_dec a c then true else has_char c r
  end.

Definition newline_char : ascii := "010"%char.

(** The newline-separated lines of a text; the empty text has none. *)
Definition lines_of (text : string) : list string :=
  match text with
  | EmptyString => []
  | _ => Py.split_on newline_char text
  end.

(** The three results of [format_output]. *)
Definition transcript_text_of (out : string * gmap string (list Utterance) * list Utterance)
  : string := out.1.1.
Definition transcript_json_of (out : string * gmap string (list Utterance) * list Utterance)
  : gmap string (list Utterance) := out.1.2.
Definition utterances_of (out : string * gmap string (list Utterance) * list Utterance)
  : list Utterance := out.2.

(** The utterance and the formatted word derived from a segment and a word;
    the proofs show that the loops of [format_output] build exactly these. *)
Definition format_word (w : Word) : FormattedWord :=
  {| fw_word := word_text w;
     fw_start := Py.round (default 0%Q (word_start w)) 3;
     fw_end := Py.round (default 0%Q (word_end w)) 3;
     fw_confidence := Py.round (default 0%Q (word_score w)) 4 |}.

Definition utterance_of (seg : Segment) : Utterance :=
  {| utt_speaker := speaker_num_of seg;
     utt_start := Py.round (default 0%Q (seg_start seg)) 3;
     utt_end := Py.round (default 0%Q (seg_end seg)) 3;
     utt_text := Py.strip (default "" (seg_text seg));
     utt_confidence := Py.round (default 0%Q (seg_confidence seg)) 4;
     utt_words := map format_word (filter (fun w => has_both w = true)
                                     (default [] (seg_words seg))) |}.

(* ===================================================================== *)
(** * Auxiliary notions of the proofs, and the inputs of the examples    *)
(* ===================================================================== *)

(** What the dictionary [speaker_times] holds after the turns [done]:
    distinct keys, only positive values, and for every speaker the overlap
    accumulated so far. *)
Definition times_inv (seg_start seg_end : Q) (d : list (string * Q)) (done : list Turn)
  : Prop :=
  NoDup d.*1 /\
  (forall k v, (k, v) ∈ d -> (0 < v)%Q) /\
  (forall k, (dict_get d k 0 == total_overlap k seg_start seg_end done)%Q).

Definition line_of (u : Utterance) : string := text_line (utt_speaker u) (utt_text u).

Definition plain_segment (start_ end_ : Q) (text : string) (words : list Word) : Segment :=
  {| seg_start := Some start_; seg_end := Some end_; seg_text := Some text;
     seg_words := Some words; seg_confidence := None; seg_speaker := None |}.

Definition timed_word (text : string) (start_ end_ : option Q) : Word :=
  {| word_text := text; word_start := start_; word_end := end_; word_score := None |}.

(** A text that spans two lines. *)
Definition two_line_text : string := "first" +:+ newline +:+ "second".

(** Unfold the plumbing of a computation. *)
Ltac run_m :=
  unfold bind, ret, raise, get, modify, emit, of_result, try_except, try_finally,
    update_heap; cbn beta iota.

(** A quiet outside world: nothing can be loaded, fetched or probed. *)
Definition offline : Externals :=
  {| whisper_load_model := fun _ => Raise (Exception "no model");
     Pipeline_from_pretrained := fun _ => Raise (Exception "no pipeline");
     download_file := fun _ _ => (Raise (Exception "no network"), false);
     ffmpeg := fun _ _ => (Raise (Exception "no ffmpeg"), false);
     ffprobe := fun _ => Raise (Exception "no ffprobe");
     os_remove := fun _ => true;
     time_time := fun n => inject_Z (Z.of_nat n);
     json_dumps := fun _ => "{}";
     hmac_sha256_hex := fun _ _ => "00";
     requests_post := fun _ _ _ => Ok 200 |}.

Definition empty_world : World :=
  {| w_heap := []; w_environ := ∅; _model_cache := ∅; _diarize_model := None;
     w_tmp := []; w_ticks := 0; w_trace := [] |}.

Definition with_token (token : string) (w : World) : World :=
  {| w_heap := w_heap w; w_environ := <["HF_TOKEN" := token]> (w_environ w);
     _model_cache := _model_cache w; _diarize_model := _diarize_model w;
     w_tmp := w_tmp w; w_ticks := w_ticks w; w_trace := w_trace w |}.

(** The example of the specification: a segment [[0, 10]] and the turns
    A = [[0, 6]] and B = [[6, 10]]. *)
Definition segment_0_10 : Segment :=
  {| seg_start := Some 0%Q; seg_end := Some 10%Q; seg_text := Some "hello";
     seg_words := None; seg_confidence := None; seg_speaker := None |}.

Definition turn_A : Turn := {| turn_start := 0; turn_end := 6; turn_speaker := "A" |}.
Definition turn_B : Turn := {| turn_start := 6; turn_end := 10; turn_speaker := "B" |}.

Definition two_speaker_world : World :=
  set_diarize_model (Some (fun _ _ => Ok [turn_A; turn_B]))
    (set_heap [segment_0_10] (with_token "hf_abc" empty_world)).

(** The entries of a segment other than ["speaker"] agree. *)
Definition same_but_speaker (a b : Segment) : Prop :=
  seg_start a = seg_start b /\ seg_end a = seg_end b /\ seg_text a = seg_text b /\
  seg_words a = seg_words b /\ seg_confidence a = seg_confidence b.

Definition one_segment_world : World := set_heap [segment_0_10] empty_world.

(** An outside world in which both models load: the Whisper model hears
    nothing and names no language, the pipeline finds no turn. *)
Definition silent_whisper : WhisperModel :=
  fun _ _ => Ok {| res_language := None; res_segments := None |}.

Definition silent_pipeline : DiarizationPipeline := fun _ _ => Ok [].

Definition online : Externals :=
  {| whisper_load_model := fun _ => Ok silent_whisper;
     Pipeline_from_pretrained := fun _ => Ok (Some silent_pipeline);
     download_file := fun _ _ => (Ok 1024, true);
     ffmpeg := fun _ _ => (Ok 2048, true);
     ffprobe := fun _ => Ok (Some (5 # 2)%Q);
     os_remove := fun _ => true;
     time_time := fun n => inject_Z (Z.of_nat n);
     json_dumps := fun _ => "{}";
     hmac_sha256_hex := fun _ _ => "00";
     requests_post := fun _ _ _ => Ok 200 |}.

(** The calls of the stages, as opposed to those of the cleanup and of the
    callback. *)
Definition is_stage_event (e : Event) : Prop :=
  match e with
  | EvGlob _ | EvRemove _ | EvPost _ _ _ => False
  | _ => True
  end.

(** [w'] is [w] with more calls in its log, all of them satisfying [P]. *)
Definition extends (P : Event -> Prop) (w w' : World) : Prop :=
  exists t, w_trace w' = w_trace w ++ t /\ Forall P t.

Ltac solve_extends :=
  cbn -[lookup insert]; rewrite <- ?app_assoc;
  first
    [ exists []; split; [symmetry; apply app_nil_r | constructor]
    | eexists; split; [reflexivity | repeat constructor] ].

(** The two shapes of the result envelope. *)
Definition success_envelope (recording_id : string) (p : gmap string JVal) : Prop :=
  p !! "recording_id" = Some (JStr recording_id) /\
  p !! "status" = Some (JStr "success") /\
  (exists text, p !! "transcript_text" = Some (JStr text)) /\
  (exists json, p !! "transcript_json" = Some (JObject json)) /\
  (exists utts, p !! "transcript_utterances" = Some (JUtterances utts)) /\
  (exists d, p !! "duration_seconds" = Some (JNum d)) /\
  (exists lang, p !! "language" = Some (JStr lang)) /\
  (exists n, p !! "word_count" = Some (JInt n)) /\
  (exists n, p !! "speaker_count" = Some (JInt n)) /\
  (exists n, p !! "processing_seconds" = Some (JInt n)).

Definition error_envelope (recording_id : string) (p : gmap string JVal) : Prop :=
  p !! "recording_id" = Some (JStr recording_id) /\
  p !! "status" = Some (JStr "error") /\
  (exists msg, p !! "error" = Some (JStr msg)) /\
  (exists n, p !! "processing_seconds" = Some (JInt n)) /\
  p !! "transcript_text" = None /\
  p !! "transcript_utterances" = None.

(** The dictionary [result] as [process_transcription] creates it. *)
Definition initial_result (recording_id : string) : gmap string JVal :=
  {[ "recording_id" := JStr recording_id; "status" := JStr "error"; "error" := JNull ]}.

(** The entries that the end of the [try] block adds. *)
Definition success_result (init : gmap string JVal) (text : string)
    (json : gmap string (list Utterance)) (utts : list Utterance) (duration : Q)
    (language : string) (seconds : Z) : gmap string JVal :=
  <["processing_seconds" := JInt seconds]>
    (<["speaker_count" := JInt (Z.of_nat (Py.count_distinct (map utt_speaker utts)))]>
       (<["word_count" := JInt (Z.of_nat (Py.count_tokens false text))]>
          (<["language" := JStr language]>
             (<["duration_seconds" := JNum duration]>
                (<["transcript_utterances" := JUtterances utts]>
                   (<["transcript_json" := JObject json]>
                      (<["transcript_text" := JStr text]>
                         (<["status" := JStr "success"]> init)))))))).

(** A Whisper model that hears three segments, and an outside world in
    which it loads while the diarization pipeline cannot be loaded. *)
Definition three_segments : list Segment :=
  [plain_segment 0 1 " one" []; plain_segment 1 2 " two" [];
   plain_segment 2 3 " three" []].

Definition talkative_whisper : string -> option string -> Result TranscribeResult :=
  fun _ _ => Ok {| res_language := Some "en"; res_segments := Some three_segments |}.

Definition pipeline_unavailable : Externals :=
  {| whisper_load_model := fun _ => Ok talkative_whisper;
     Pipeline_from_pretrained := fun _ => Raise (Exception "cannot fetch pipeline");
     download_file := fun _ _ => (Ok 1024, true);
     ffmpeg := fun _ _ => (Ok 2048, true);
     ffprobe := fun _ => Ok (Some (3 # 1)%Q);
     os_remove := fun _ => true;
     time_time := fun n => inject_Z (Z.of_nat n);
     json_dumps := fun _ => "{}";
     hmac_sha256_hex := fun _ _ => "00";
     requests_post := fun _ _ _ => Ok 200 |}.

Definition job : JobEvent :=
  {| ev_recording_id := "rec1";
     ev_audio_url := Some "https://media.example/rec1.mp3";
     ev_video_url := None;
     ev_callback_url := "https://app.example/callback";
     ev_callback_secret := "secret";
     ev_language := None;
     ev_model_size := None;
     ev_num_speakers := Some 2 |}.

(* ===================================================================== *)
(** * Further notions: counting words, labels of the diarization engine  *)
(* ===================================================================== *)

(** No character of the string is white space. *)
Fixpoint no_space (s : string) : bool :=
  match s with
  | EmptyString => true
  | String c r => negb (Py.isspace c) && no_space r
  end.

(** The label that pyannote gives its [n]-th speaker, ["SPEAKER_%02d"], for
    [n] below 100. *)
Definition speaker_label (n : nat) : string :=
  "SPEAKER_" +:+ Py.str_of_int (Z.of_nat (n / 10)) +:+ Py.str_of_int (Z.of_nat (n mod 10)).

(** The calls of the diarization pipeline in a log. *)
Definition is_pipeline_run (e : Event) : bool :=
  match e with EvPipelineRun _ _ => true | _ => false end.

Definition pipeline_runs (t : list Event) : list Event :=
  filter (fun e => is_pipeline_run e = true) t.



(* ===================================================================== *)
(** * download.py: storage references and the transfer                    *)
(* ===================================================================== *)

Module Download.

(** The longest prefix without the character [c], and the rest: what
    [[^c]+] (or [.+] for the newline) matches, the pattern that follows
    deciding nothing about its length. *)
Fixpoint span_until (c : ascii) (s : string) : string * string :=
  match s with
  | EmptyString => (EmptyString, EmptyString)
  | String a r =>
      if ascii_dec a c then (EmptyString, s)
      else let '(run, rest) := span_until c r in (String a run, rest)
  end.

(** The rest of [s] after the literal [p], if [s] begins with it. *)
Fixpoint strip_prefix (p s : string) : option string :=
  match p, s with
  | EmptyString, _ => Some s
  | String a p', String b s' => if ascii_dec a b then strip_prefix p' s' else None
  | String _ _, EmptyString => None
  end.

(** [_S3_URL_RE.match(url)] and the groups [bucket] and [key]:
    [https?://(?P<bucket>[^.]+)\.s3[.-](?P<region>[^.]+)\.amazonaws\.com/(?P<key>.+)]. *)
Definition _parse_s3_url (url : string) : option (string * string) :=
  match strip_prefix "http" url with
  | None => None
  | Some r0 =>
      let r1 := match r0 with
                | String "s" r => r
                | _ => r0
                end in
      match strip_prefix "://" r1 with
      | None => None
      | Some r2 =>
          let '(bucket, r3) := span_until "." r2 in
          match bucket, strip_prefix ".s3" r3 with
          | String _ _, Some (String sep r4) =>
              if bool_decide (sep = "."%char) || bool_decide (sep = "-"%char) then
                let '(region, r5) := span_until "." r4 in
                match region, strip_prefix ".amazonaws.com/" r5 with
                | String _ _, Some r6 =>
                    let '(key, _) := span_until newline_char r6 in
                    match key with
                    | String _ _ => Some (bucket, key)
                    | EmptyString => None
                    end
                | _, _ => None
                end
              else None
          | _, _ => None
          end
      end
  end.

(** What [requests.get(url, stream=True)] answers: the status, the text of
    the [HTTPError] that [raise_for_status] builds for it, the chunks that
    [iter_content] yields, and the exception that ends the stream early, if
    any. *)
Record HttpResponse := {
  status_code : Z;
  error_text : string;
  body_chunks : list string;
  stream_error : option Exn
}.

Record Network := {
  (** [download_from_s3]: the transfer by boto3 and the size of the file. *)
  s3_download_file : string -> string -> string -> Result Z;
  requests_get : string -> Result HttpResponse
}.

Definition raise_for_status (r : HttpResponse) : Result unit :=
  if (400 <=? status_code r) && (status_code r <? 600)
  then Raise (Exception (error_text r))
  else Ok tt.

(** The loop of lines 52-56 on the file written so far and [total_bytes]. *)
Fixpoint write_chunks (chunks : list string) (written : string) (total_bytes : Z)
  : string * Z :=
  match chunks with
  | [] => (written, total_bytes)
  | chunk :: rest =>
      if Py.truthy chunk
      then write_chunks rest (written +:+ chunk)
             (total_bytes + Z.of_nat (String.length chunk))
      else write_chunks rest written total_bytes
  end.

(** How [download_file] fetched: from S3 with the outcome of the transfer,
    or over HTTP with the outcome and the content of the file it opened,
    if it came to open it. *)
Inductive Transfer :=
| ViaS3 (bucket key : string) (outcome : Result Z)
| ViaHttp (outcome : Result Z) (written : option string).

Definition download_file (net : Network) (url output_path : string) : Transfer :=
  match _parse_s3_url url with
  | Some (bucket, key) => ViaS3 bucket key (s3_download_file net bucket key output_path)
  | None =>
      match requests_get net url with
      | Raise e => ViaHttp (Raise e) None
      | Ok response =>
          match raise_for_status response with
          | Raise e => ViaHttp (Raise e) None
          | Ok _ =>
              let '(written, total_bytes) := write_chunks (body_chunks response) "" 0 in
              match stream_error response with
              | Some e => ViaHttp (Raise e) (Some written)
              | None => ViaHttp (Ok total_bytes) (Some written)
              end
          end
      end
  end.

End Download.

(** The text of a storage reference. *)
Definition s3_url (https : bool) (bucket : string) (dash : bool) (region key : string)
  : string :=
  "http" +:+ (if https then "s" else "") +:+ "://" +:+ bucket +:+ ".s3"
  +:+ (if dash then "-" else ".") +:+ region +:+ ".amazonaws.com/" +:+ key.

Fixpoint concat_strings (xs : list string) : string :=
  match xs with
  | [] => EmptyString
  | x :: r => x +:+ concat_strings r
  end.

Definition plain_network (chunks : list string) : Download.Network :=
  {| Download.s3_download_file := fun _ _ _ => Raise (Exception "no credentials");
     Download.requests_get := fun _ =>
       Ok {| Download.status_code := 200; Download.error_text := "";
             Download.body_chunks := chunks; Download.stream_error := None |} |}.

(* ===================================================================== *)
(** * Further notions: scratch files and the events of the handler       *)
(* ===================================================================== *)

(** The path is matched by one of the two patterns of
    [cleanup_temp_files]. *)
Definition matches_cleanup (recording_id f : string) : bool :=
  String.prefix ("/tmp/" +:+ recording_id +:+ "_input") f
  || String.prefix ("/tmp/" +:+ recording_id +:+ "_audio") f.

(** The file is still there after [cleanup_temp_files]. *)
Definition survives_cleanup (ext : Externals) (recording_id f : string) : bool :=
  negb (matches_cleanup recording_id f && os_remove ext f).

(** The frame with another world. *)
Definition with_world (w : World) (fr : Frame) : Frame :=
  {| f_world := w; result := result fr |}.

(** The event with another [video_url]. *)
Definition with_video_url (video_url : option string) (event : JobEvent) : JobEvent :=
  {| ev_recording_id := ev_recording_id event;
     ev_audio_url := ev_audio_url event;
     ev_video_url := video_url;
     ev_callback_url := ev_callback_url event;
     ev_callback_secret := ev_callback_secret event;
     ev_language := ev_language event;
     ev_model_size := ev_model_size event;
     ev_num_speakers := ev_num_speakers event |}.

(** [w'] has the scratch directory and the environment of [w]. *)
Definition same_surroundings (w w' : World) : Prop :=
  w_tmp w' = w_tmp w /\ w_environ w' = w_environ w.

(* ===================================================================== *)
(** * server.py                                                           *)
(* ===================================================================== *)

Module Server.

(** The module globals [_models_warm] and [_active_jobs]. *)
Record Globals := {
  _models_warm : bool;
  _active_jobs : Z
}.

(** [class TranscribeRequest(BaseModel)]: a validated request. *)
Record TranscribeRequest := {
  recording_id : string;
  audio_url : option string;
  video_url : option string;
  callback_url : string;
  callback_secret : string;
  language : option string;
  model_size : string;
  num_speakers : option Z
}.

(** [req.model_dump()]: every field is a key of the dictionary. *)
Definition model_dump (req : TranscribeRequest) : JobEvent :=
  {| ev_recording_id := recording_id req;
     ev_audio_url := audio_url req;
     ev_video_url := video_url req;
     ev_callback_url := callback_url req;
     ev_callback_secret := callback_secret req;
     ev_language := language req;
     ev_model_size := Some (model_size req);
     ev_num_speakers := num_speakers req |}.

(** What the endpoint answers: the body of the 202 reply, or the
    [HTTPException] it raises. *)
Inductive Reply :=
| Accepted (status recording_id : string)
| HTTPException (status_code : Z) (detail : string).

(** [POST /transcribe]: the reply and the tasks added to
    [background_tasks], the events that [_run_transcription] will be called
    with. *)
Definition transcribe (req : TranscribeRequest) : Reply * list JobEvent :=
  if negb (Py.truthy_opt (audio_url req)) && negb (Py.truthy_opt (video_url req))
  then (HTTPException 400 "audio_url or video_url required", [])
  else (Accepted "accepted" (recording_id req), [model_dump req]).

(** [GET /health] *)
Definition health (g : Globals) : string * bool * Z :=
  ("ok", _models_warm g, _active_jobs g).

Definition add_active_jobs (d : Z) : M (Globals * World) unit :=
  modify (fun s => ({| _models_warm := _models_warm s.1;
                       _active_jobs := _active_jobs s.1 + d |}, s.2)).

Definition set_models_warm (b : bool) : M (Globals * World) unit :=
  modify (fun s => ({| _models_warm := b; _active_jobs := _active_jobs s.1 |}, s.2)).

(** A computation on the world, run beside the globals. *)
Definition on_world {A} (m : M World A) : M (Globals * World) A :=
  fun s =>
    match m s.2 with
    | (r, w) => (r, (s.1, w))
    end.

(** [_run_transcription], on one thread. *)
Definition _run_transcription (ext : Externals) (event : JobEvent)
  : M (Globals * World) unit :=
  add_active_jobs 1;;
  try_finally
    (on_world (process_transcription ext event);;
     set_models_warm true)
    (add_active_jobs (-1)).

(** The statements of [_run_transcription] that touch the globals, for
    jobs on several threads: the increment and the decrement each happen
    under [_lock] and are one step; [process_transcription] does not touch
    the globals, and its return with the assignment to [_models_warm] is
    one step. *)
Inductive Pc := Queued | Running | Leaving | Done.

Definition step (pc : Pc) (g : Globals) : Pc * Globals :=
  match pc with
  | Queued => (Running, {| _models_warm := _models_warm g;
                           _active_jobs := _active_jobs g + 1 |})
  | Running => (Leaving, {| _models_warm := true; _active_jobs := _active_jobs g |})
  | Leaving => (Done, {| _models_warm := _models_warm g;
                         _active_jobs := _active_jobs g - 1 |})
  | Done => (Done, g)
  end.

(** One step of the thread [i] of the pool, if there is such a thread. *)
Definition pool_step (i : nat) (s : list Pc * Globals) : list Pc * Globals :=
  match s.1 !! i with
  | None => s
  | Some pc => let '(pc', g') := step pc s.2 in (<[i := pc']> s.1, g')
  end.

Definition run_pool (schedule : list nat) (s : list Pc * Globals) : list Pc * Globals :=
  fold_left (fun s i => pool_step i s) schedule s.

Definition in_flight (pc : Pc) : bool :=
  match pc with Running | Leaving => true | _ => false end.

End Server.

(** The number of jobs between their increment and their decrement. *)
Definition jobs_in_flight (pcs : list Server.Pc) : Z :=
  Z.of_nat (length (filter (fun pc => Server.in_flight pc = true) pcs)).

Definition request_of (event : JobEvent) (model_size : string) : Server.TranscribeRequest :=
  {| Server.recording_id := ev_recording_id event;
     Server.audio_url := ev_audio_url event;
     Server.video_url := ev_video_url event;
     Server.callback_url := ev_callback_url event;
     Server.callback_secret := ev_callback_secret event;
     Server.language := ev_language event;
     Server.model_size := model_size;
     Server.num_speakers := ev_num_speakers event |}.

Definition cold : Server.Globals :=
  {| Server._models_warm := false; Server._active_jobs := 0 |}.

Definition job_without_url : JobEvent :=
  {| ev_recording_id := "rec2";
     ev_audio_url := None;
     ev_video_url := Some "";
     ev_callback_url := "https://app.example/callback";
     ev_callback_secret := "secret";
     ev_language := None;
     ev_model_size := None;
     ev_num_speakers := None |}.


(** The outside world with another behaviour of [requests.post]. *)
Definition with_requests_post (post : string -> string -> string -> Result Z)
    (ext : Externals) : Externals :=
  {| whisper_load_model := whisper_load_model ext;
     Pipeline_from_pretrained := Pipeline_from_pretrained ext;
     download_file := download_file ext;
     ffmpeg := ffmpeg ext;
     ffprobe := ffprobe ext;
     os_remove := os_remove ext;
     time_time := time_time ext;
     json_dumps := json_dumps ext;
     hmac_sha256_hex := hmac_sha256_hex ext;
     requests_post := post |}.

(* ===================================================================== *)
(** * Facts about the built-ins                                           *)
(* ===================================================================== *)

Local Arguments String.append !_ _ / : simpl nomatch.

Section BuiltinFacts.

Lemma has_char_append c (a b : string) :
  has_char c (a +:+ b) = has_char c a || has_char c b.
Proof.
  induction a as [|x a IH]; simpl; [reflexivity|].
  destruct (ascii_dec x c); [reflexivity | exact IH].
Qed.

(** Splitting at a character that the text does not contain. *)
Lemma split_on_none c (s : string) :
  has_char c s = false -> Py.split_on c s = [s].
Proof.
  induction s as [|a s IH]; simpl; [reflexivity|].
  destruct (ascii_dec a c); [discriminate|].
  intros H. by rewrite (IH H).
Qed.

Lemma split_on_append c (a b : string) :
  has_char c a = false ->
  Py.split_on c (a +:+ String c b) = a :: Py.split_on c b.
Proof.
  induction a as [|x a IH]; simpl; intros H.
  - destruct (ascii_dec c c); [reflexivity | congruence].
  - destruct (ascii_dec x c); [discriminate|]. by rewrite (IH H).
Qed.

(** [split] undoes [join] when no piece contains the separator. *)
Lemma split_on_join c (xs : list string) :
  xs <> [] ->
  Forall (fun x => has_char c x = false) xs ->
  Py.split_on c (Py.join (String c "") xs) = xs.
Proof.
  induction xs as [|x xs IH]; [congruence|].
  intros _ Hall. inversion Hall as [|? ? Hx Hxs]; subst.
  destruct xs as [|y ys].
  - simpl. by apply split_on_none.
  - change (Py.join (String c "") (x :: y :: ys))
      with (x +:+ String c "" +:+ Py.join (String c "") (y :: ys)).
    change (String c "" +:+ Py.join (String c "") (y :: ys))
      with (String c (Py.join (String c "") (y :: ys))).
    rewrite split_on_append by exact Hx.
    f_equal. apply IH; [congruence | exact Hxs].
Qed.

Lemma join_nonempty sep (x : string) (xs : list string) :
  x <> "" -> Py.join sep (x :: xs) <> "".
Proof.
  intros Hx. destruct xs as [|y ys]; simpl; [exact Hx|].
  destruct x; [congruence | discriminate].
Qed.

End BuiltinFacts.

(* ===================================================================== *)
(** * format_output: the shape of the three results                       *)
(* ===================================================================== *)

Section FormatOutputFacts.

Lemma format_words_acc (ws : list Word) (acc : list FormattedWord) :
  format_words ws acc
  = acc ++ map format_word (filter (fun w => has_both w = true) ws).
Proof.
  revert acc. induction ws as [|w ws IH]; intros acc.
  - simpl. by rewrite app_nil_r.
  - destruct w as [t [s|] [e|] sc]; cbn [format_words word_start word_end];
      rewrite IH, filter_cons; unfold has_both; simpl; try reflexivity.
    rewrite <- app_assoc. reflexivity.
Qed.

Lemma format_segment_kept (us : list Utterance) (ls : list string) (seg : Segment) :
  has_text seg = true ->
  format_segment (us, ls) seg
  = (us ++ [utterance_of seg],
     ls ++ [text_line (speaker_num_of seg) (Py.strip (default "" (seg_text seg)))]).
Proof.
  unfold has_text, format_segment. intros ->. simpl.
  rewrite format_words_acc. reflexivity.
Qed.

Lemma format_segment_skipped (acc : list Utterance * list string) (seg : Segment) :
  has_text seg = false -> format_segment acc seg = acc.
Proof.
  unfold has_text, format_segment. destruct acc as [us ls]. intros ->. reflexivity.
Qed.

Lemma format_loop (segs : list Segment) (us : list Utterance) (ls : list string) :
  fold_left format_segment segs (us, ls)
  = (us ++ map utterance_of (filter (fun s => has_text s = true) segs),
     ls ++ map line_of (map utterance_of (filter (fun s => has_text s = true) segs))).
Proof.
  revert us ls. induction segs as [|seg segs IH]; intros us ls.
  - simpl. by rewrite !app_nil_r.
  - cbn [fold_left]. destruct (has_text seg) eqn:Hk.
    + rewrite format_segment_kept by exact Hk. rewrite IH.
      rewrite filter_cons, decide_True by exact Hk. simpl.
      rewrite <- !app_assoc. reflexivity.
    + rewrite format_segment_skipped by exact Hk.
      rewrite IH, filter_cons, decide_False by (rewrite Hk; discriminate).
      reflexivity.
Qed.

(** The results of [format_output] in closed form. *)
Lemma format_output_closed (segs : list Segment) :
  let utts := map utterance_of (filter (fun s => has_text s = true) segs) in
  format_output segs
  = (Py.join newline (map line_of utts), {[ "utterances" := utts ]}, utts).
Proof.
  destruct segs as [|seg segs]; [reflexivity|].
  unfold format_output. rewrite format_loop. reflexivity.
Qed.

Lemma digits_no_newline (d : Decimal.uint) :
  has_char newline_char (NilEmpty.string_of_uint d) = false.
Proof. induction d; simpl; auto. Qed.

Lemma str_of_int_no_newline (n : Z) : has_char newline_char (Py.str_of_int n) = false.
Proof.
  unfold Py.str_of_int, NilZero.string_of_int, NilZero.string_of_uint.
  destruct (Z.to_int n) as [d|d]; destruct d; simpl;
    try reflexivity; apply digits_no_newline.
Qed.

Lemma text_line_no_newline (n : Z) (text : string) :
  has_char newline_char text = false ->
  has_char newline_char (text_line n text) = false.
Proof.
  intros H. unfold text_line.
  rewrite !has_char_append, str_of_int_no_newline, H. reflexivity.
Qed.

Lemma text_line_nonempty (n : Z) (text : string) : text_line n text <> "".
Proof. unfold text_line. simpl. discriminate. Qed.

(** Without a newline inside a text, the lines of the transcript are the
    lines of the utterances. *)
Lemma lines_of_join (utts : list Utterance) :
  Forall (fun u => has_char newline_char (utt_text u) = false) utts ->
  lines_of (Py.join newline (map line_of utts)) = map line_of utts.
Proof.
  intros Hall. destruct utts as [|u utts]; [reflexivity|].
  unfold lines_of.
  destruct (Py.join newline (map line_of (u :: utts))) eqn:Hj.
  - exfalso. revert Hj. apply join_nonempty, text_line_nonempty.
  - rewrite <- Hj. apply split_on_join; [discriminate|].
    apply Forall_map. eapply Forall_impl; [exact Hall|].
    intros u' Hu'. by apply text_line_no_newline.
Qed.

Lemma utterances_text_no_newline (segs : list Segment) :
  Forall (fun s => has_char newline_char (Py.strip (default "" (seg_text s))) = false) segs ->
  Forall (fun u => has_char newline_char (utt_text u) = false)
    (map utterance_of (filter (fun s => has_text s = true) segs)).
Proof.
  intros Hall. apply Forall_map. apply Forall_forall.
  intros s [_ Hs]%list_elem_of_filter.
  rewrite Forall_forall in Hall. exact (Hall s Hs).
Qed.

End FormatOutputFacts.

(* ===================================================================== *)
(** * round                                                               *)
(* ===================================================================== *)

Section RoundFacts.

Lemma round_half_even_near (x : Q) :
  2 * Z.abs (Py.round_half_even x * Z.pos (Qden x) - Qnum x) <= Z.pos (Qden x).
Proof.
  unfold Py.round_half_even.
  pose proof (Z.div_mod (Qnum x) (Z.pos (Qden x)) ltac:(lia)) as Hdm.
  pose proof (Z.mod_pos_bound (Qnum x) (Z.pos (Qden x)) ltac:(lia)) as Hr.
  set (q := Qnum x / Z.pos (Qden x)) in *.
  set (r := Qnum x mod Z.pos (Qden x)) in *.
  set (d := Z.pos (Qden x)) in *.
  destruct (Z.compare_spec (2 * r) d) as [He|Hl|Hg].
  - destruct (Z.even q); nia.
  - nia.
  - nia.
Qed.

(** [round] returns a multiple of [10^-ndigits] within half a unit of the
    last digit. *)
Lemma round_rounded_to (ndigits : nat) (x : Q) :
  rounded_to ndigits x (Py.round x ndigits).
Proof.
  split.
  - eexists. reflexivity.
  - unfold Py.round.
    set (p := Py.pow10 ndigits).
    pose proof (round_half_even_near (x * inject_Z (Z.pos p))) as Hn.
    set (k := Py.round_half_even (x * inject_Z (Z.pos p))) in *.
    destruct x as [n d]. simpl in Hn. rewrite Pos.mul_1_r in Hn.
    unfold Qle, Qabs, Qminus, Qplus, Qopp. simpl.
    rewrite !Pos2Z.inj_mul.
    assert (Hrw : k * Z.pos d + - n * Z.pos p = k * Z.pos d - n * Z.pos p) by lia.
    rewrite Hrw. nia.
Qed.

End RoundFacts.

(* ===================================================================== *)
(** * format_output: the properties of the specification                 *)
(* ===================================================================== *)

Section FormatOutputProperties.

(** C5, as the specification states it, fails: one segment whose text holds
    a newline gives one utterance in the JSON form and in the list, and
    two lines in the transcript text. *)
Lemma format_output_line_count_differs :
  let out := format_output [plain_segment 0 1 two_line_text []] in
  length (lines_of (transcript_text_of out)) = 2%nat /\
  length (utterances_of out) = 1%nat /\
  length (lines_of (transcript_text_of out)) <> length (utterances_of out).
Proof. vm_compute. repeat split; congruence. Qed.

(** C5, amended. When no trimmed segment text contains a newline, the
    lines of [transcript_text], the utterance array of [transcript_json]
    and the utterance list are, in this order, the images of the segments
    whose trimmed text is not empty: equal counts, the same order, and no
    entry for a segment with empty trimmed text in any of the three. *)
Theorem format_output_three_forms_agree (segs : list Segment) :
  Forall (fun s => has_char newline_char (Py.strip (default "" (seg_text s))) = false) segs ->
  let out := format_output segs in
  let kept := filter (fun s => has_text s = true) segs in
  utterances_of out = map utterance_of kept /\
  transcript_json_of out !! "utterances" = Some (map utterance_of kept) /\
  lines_of (transcript_text_of out)
    = map (fun s => text_line (speaker_num_of s) (Py.strip (default "" (seg_text s)))) kept /\
  length (lines_of (transcript_text_of out)) = length (utterances_of out) /\
  length (utterances_of out) = length kept.
Proof.
  intros Hall out kept. subst out.
  rewrite format_output_closed.
  unfold utterances_of, transcript_json_of, transcript_text_of. simpl.
  fold kept.
  pose proof (utterances_text_no_newline segs Hall) as Hu. fold kept in Hu.
  rewrite (lines_of_join _ Hu).
  split; [reflexivity|].
  split; [apply lookup_singleton_eq|].
  split; [rewrite map_map; reflexivity|].
  split; [rewrite !length_map; reflexivity|].
  rewrite length_map. reflexivity.
Qed.

Lemma format_output_three_forms_agree_witness :
  let segs := [plain_segment 0 1 " hello " []; plain_segment 1 2 "   " [];
               plain_segment 2 3 "world" []] in
  let out := format_output segs in
  let kept := filter (fun s => has_text s = true) segs in
  utterances_of out = map utterance_of kept /\
  transcript_json_of out !! "utterances" = Some (map utterance_of kept) /\
  lines_of (transcript_text_of out)
    = map (fun s => text_line (speaker_num_of s) (Py.strip (default "" (seg_text s)))) kept /\
  length (lines_of (transcript_text_of out)) = length (utterances_of out) /\
  length (utterances_of out) = length kept.
Proof.
  apply (format_output_three_forms_agree
           [plain_segment 0 1 " hello " []; plain_segment 1 2 "   " [];
            plain_segment 2 3 "world" []]).
  repeat constructor.
Defined.

(** C6, as the specification states it, fails: the second of two
    utterances has a text of two lines, so the transcript has three lines
    for two utterances, and its third line is not a "Speaker" line. *)
Lemma format_output_lines_not_utterances :
  let out := format_output [plain_segment 0 1 "one" [];
                            plain_segment 1 2 two_line_text []] in
  length (utterances_of out) = 2%nat /\
  lines_of (transcript_text_of out)
    = ["Speaker 0: one"; "Speaker 0: first"; "second"] /\
  length (lines_of (transcript_text_of out)) <> length (utterances_of out).
Proof. vm_compute. repeat split; congruence. Qed.

(** C6, amended. When no utterance text contains a newline, the transcript
    text has as many newline-separated lines as there are utterances, and
    line [i] is "Speaker {utterances[i].speaker}: {utterances[i].text}". *)
Theorem format_output_lines (segs : list Segment) :
  let out := format_output segs in
  Forall (fun u => has_char newline_char (utt_text u) = false) (utterances_of out) ->
  length (lines_of (transcript_text_of out)) = length (utterances_of out) /\
  forall (i : nat) (u : Utterance),
    utterances_of out !! i = Some u ->
    lines_of (transcript_text_of out) !! i
    = Some ("Speaker " +:+ Py.str_of_int (utt_speaker u) +:+ ": " +:+ utt_text u).
Proof.
  intros out. subst out. rewrite format_output_closed.
  unfold utterances_of, transcript_text_of. simpl.
  intros Hu. rewrite (lines_of_join _ Hu). split.
  - apply length_map.
  - intros i u Hi. rewrite list_lookup_fmap, Hi. reflexivity.
Qed.

Lemma format_output_lines_witness :
  let out := format_output [with_speaker "SPEAKER_01" (plain_segment 0 1 " hello " []);
                            plain_segment 1 2 "" [];
                            with_speaker "SPEAKER_00" (plain_segment 2 3 "bye" [])] in
  length (lines_of (transcript_text_of out)) = length (utterances_of out) /\
  forall (i : nat) (u : Utterance),
    utterances_of out !! i = Some u ->
    lines_of (transcript_text_of out) !! i
    = Some ("Speaker " +:+ Py.str_of_int (utt_speaker u) +:+ ": " +:+ utt_text u).
Proof.
  apply (format_output_lines
           [with_speaker "SPEAKER_01" (plain_segment 0 1 " hello " []);
            plain_segment 1 2 "" [];
            with_speaker "SPEAKER_00" (plain_segment 2 3 "bye" [])]).
  repeat constructor.
Defined.

(** C7. The utterances correspond, in order, to the segments with a
    non-empty trimmed text, each carrying that text; the word list of an
    utterance corresponds, in order, to exactly those words of its segment
    that have both a start and an end: same word text, start and end
    rounded to 3 decimals, confidence ([score], 0.0 when absent) rounded
    to 4 decimals. A word without an end is therefore in no word list,
    while the utterance of its segment is still there. *)
Theorem format_output_word_lists (segs : list Segment) :
  Forall2
    (fun seg u =>
       utt_text u = Py.strip (default "" (seg_text seg)) /\
       Forall2
         (fun w fw =>
            fw_word fw = word_text w /\
            exists s e : Q,
              word_start w = Some s /\ word_end w = Some e /\
              rounded_to 3 s (fw_start fw) /\
              rounded_to 3 e (fw_end fw) /\
              rounded_to 4 (default 0%Q (word_score w)) (fw_confidence fw))
         (filter (fun w => has_both w = true) (default [] (seg_words seg)))
         (utt_words u))
    (filter (fun s => has_text s = true) segs)
    (utterances_of (format_output segs)).
Proof.
  rewrite format_output_closed. unfold utterances_of. simpl.
  apply Forall2_fmap_r, Forall_Forall2_diag, Forall_forall.
  intros seg _. split; [reflexivity|].
  simpl. apply Forall2_fmap_r, Forall_Forall2_diag, Forall_forall.
  intros w [Hb _]%list_elem_of_filter. split; [reflexivity|].
  unfold has_both in Hb.
  destruct w as [t [s|] [e|] sc]; simpl in *; try discriminate.
  exists s, e. repeat split; try apply round_rounded_to; eexists; reflexivity.
Qed.

(** Scenario D of the specification: the word "there" has no end. *)
Example format_output_word_without_end :
  let seg := plain_segment 0 2 "hi there"
               [timed_word "hi" (Some 0%Q) (Some (1 # 2)%Q);
                timed_word "there" (Some (1 # 2)%Q) None] in
  let out := format_output [seg] in
  map (fun u => map fw_word (utt_words u)) (utterances_of out) = [["hi"]] /\
  transcript_text_of out = "Speaker 0: hi there".
Proof. vm_compute. split; reflexivity. Qed.

End FormatOutputProperties.

(* ===================================================================== *)
(** * diarize: the overlap of a segment with the turns                    *)
(* ===================================================================== *)

Section OverlapFacts.

Variables seg_start seg_end : Q.

Lemma max_ge_l (a b : Q) : (a <= Py.max a b)%Q.
Proof. unfold Py.max. destruct (Qlt_le_dec a b); lra. Qed.

Lemma overlap_nonneg (t : Turn) : (0 <= overlap seg_start seg_end t)%Q.
Proof. unfold overlap. apply max_ge_l. Qed.




Lemma dict_get_set_eq (d : list (string * Q)) (k : string) (v dflt : Q) :
  dict_get (dict_set d k v) k dflt = v.
Proof.
  induction d as [|[k' v'] d IH]; simpl.
  - by rewrite decide_True.
  - destruct (decide (k' = k)) as [->|Hne]; simpl.
    + by rewrite decide_True.
    + by rewrite decide_False.
Qed.

Lemma dict_get_set_ne (d : list (string * Q)) (k k' : string) (v dflt : Q) :
  k' <> k -> dict_get (dict_set d k v) k' dflt = dict_get d k' dflt.
Proof.
  intros Hne. induction d as [|[k0 v0] d IH]; simpl.
  - rewrite decide_False by congruence. reflexivity.
  - destruct (decide (k0 = k)) as [->|Hk0]; simpl.
    + rewrite !decide_False by congruence. reflexivity.
    + destruct (decide (k0 = k')); [reflexivity | exact IH].
Qed.

Lemma dict_set_keys (d : list (string * Q)) (k : string) (v : Q) :
  (dict_set d k v).*1 = if decide (k ∈ d.*1) then d.*1 else d.*1 ++ [k].
Proof.
  induction d as [|[k' v'] d IH].
  - destruct (decide (k ∈ ([] : list (string * Q)).*1)) as [Hin|_]; [|reflexivity].
    by apply not_elem_of_nil in Hin.
  - cbn [dict_set]. destruct (decide (k' = k)) as [->|Hne].
    + destruct (decide (k ∈ ((k, v') :: d).*1)) as [_|Hnin]; [reflexivity|].
      exfalso. apply Hnin. apply list_elem_of_here.
    + change (((k', v') :: dict_set d k v).*1) with (k' :: (dict_set d k v).*1).
      rewrite IH.
      change (((k', v') :: d).*1) with (k' :: d.*1).
      destruct (decide (k ∈ d.*1)) as [Hin|Hnin];
        destruct (decide (k ∈ k' :: d.*1)) as [Hin'|Hnin']; try reflexivity.
      * exfalso. apply Hnin'. by apply list_elem_of_further.
      * apply elem_of_cons in Hin' as [?|?]; congruence.
Qed.

Lemma dict_set_elem (d : list (string * Q)) (k k' : string) (v v' : Q) :
  (k', v') ∈ dict_set d k v -> (k' = k /\ v' = v) \/ (k', v') ∈ d.
Proof.
  induction d as [|[k0 v0] d IH]; simpl.
  - intros [Heq|Hin]%elem_of_cons; [left; by inversion Heq|].
    by apply not_elem_of_nil in Hin.
  - destruct (decide (k0 = k)) as [->|Hne].
    + intros [Heq|Hin]%elem_of_cons; [left; by inversion Heq|].
      right. by apply list_elem_of_further.
    + intros [Heq|Hin]%elem_of_cons.
      * right. rewrite Heq. apply list_elem_of_here.
      * destruct (IH Hin) as [?|?]; [by left|].
        right. by apply list_elem_of_further.
Qed.

Lemma dict_get_elem (d : list (string * Q)) (k : string) (v dflt : Q) :
  NoDup d.*1 -> (k, v) ∈ d -> dict_get d k dflt = v.
Proof.
  induction d as [|[k0 v0] d IH]; simpl; intros Hnd Hin.
  - by apply not_elem_of_nil in Hin.
  - apply NoDup_cons in Hnd as [Hk0 Hnd].
    apply elem_of_cons in Hin as [Heq|Hin].
    + inversion Heq; subst. by rewrite decide_True.
    + destruct (decide (k0 = k)) as [->|Hne]; [|by apply IH].
      exfalso. apply Hk0. apply list_elem_of_fmap. by exists (k, v).
Qed.

Lemma dict_get_missing (d : list (string * Q)) (k : string) (dflt : Q) :
  k ∉ d.*1 -> dict_get d k dflt = dflt.
Proof.
  induction d as [|[k0 v0] d IH]; simpl; intros Hk; [reflexivity|].
  apply not_elem_of_cons in Hk as [Hne Hk].
  rewrite decide_False by congruence. by apply IH.
Qed.

Lemma dict_key_elem (d : list (string * Q)) (k : string) :
  k ∈ d.*1 -> exists v, (k, v) ∈ d.
Proof.
  intros ([k' v] & Hk & Hin)%list_elem_of_fmap. simpl in Hk. subst. by exists v.
Qed.

Lemma Qsum_app (xs ys : list Q) : (Qsum (xs ++ ys) == Qsum xs + Qsum ys)%Q.
Proof.
  induction xs as [|x xs IH]; simpl; [lra|]. rewrite IH. lra.
Qed.

Lemma total_overlap_snoc (k : string) (done : list Turn) (t : Turn) :
  (total_overlap k seg_start seg_end (done ++ [t])
   == total_overlap k seg_start seg_end done
      + (if decide (turn_speaker t = k) then overlap seg_start seg_end t else 0))%Q.
Proof.
  unfold total_overlap. rewrite filter_app, map_app, Qsum_app.
  rewrite filter_cons, filter_nil.
  destruct (decide (turn_speaker t = k)); simpl; lra.
Qed.

Lemma total_overlap_nonneg (k : string) (turns : list Turn) :
  (0 <= total_overlap k seg_start seg_end turns)%Q.
Proof.
  unfold total_overlap.
  induction turns as [|t turns IH]; simpl; [lra|].
  rewrite filter_cons. destruct (decide (turn_speaker t = k)); simpl; [|exact IH].
  pose proof (overlap_nonneg t). lra.
Qed.

Lemma total_overlap_ge (k : string) (turns : list Turn) (t : Turn) :
  t ∈ turns -> turn_speaker t = k ->
  (overlap seg_start seg_end t <= total_overlap k seg_start seg_end turns)%Q.
Proof.
  intros Hin Hk. unfold total_overlap.
  induction turns as [|t' turns IH]; [by apply not_elem_of_nil in Hin|].
  rewrite filter_cons.
  pose proof (total_overlap_nonneg k turns) as Hnn. unfold total_overlap in Hnn.
  apply elem_of_cons in Hin as [->|Hin].
  - rewrite decide_True by exact Hk. simpl. lra.
  - specialize (IH Hin). destruct (decide (turn_speaker t' = k)); simpl; [|exact IH].
    pose proof (overlap_nonneg t'). lra.
Qed.

Lemma total_overlap_positive (k : string) (turns : list Turn) :
  (0 < total_overlap k seg_start seg_end turns)%Q ->
  exists t, t ∈ turns /\ turn_speaker t = k /\ (0 < overlap seg_start seg_end t)%Q.
Proof.
  unfold total_overlap.
  induction turns as [|t turns IH]; simpl; [lra|].
  rewrite filter_cons. destruct (decide (turn_speaker t = k)) as [Hk|Hk]; simpl.
  - intros Hpos.
    destruct (Qlt_le_dec 0 (overlap seg_start seg_end t)) as [Ht|Ht].
    + exists t. split; [apply list_elem_of_here | by split].
    + destruct IH as (t' & Hin & Hk' & Hpos'); [lra|].
      exists t'. split; [by apply list_elem_of_further | by split].
  - intros Hpos. destruct (IH Hpos) as (t' & Hin & Hk' & Hpos').
    exists t'. split; [by apply list_elem_of_further | by split].
Qed.

Lemma add_turn_inv (d : list (string * Q)) (done : list Turn) (t : Turn) :
  times_inv seg_start seg_end d done ->
  times_inv seg_start seg_end (add_turn seg_start seg_end d t) (done ++ [t]).
Proof.
  intros (Hnd & Hpos & Hget). unfold add_turn.
  pose proof (overlap_nonneg t) as Hnn.
  destruct (Qlt_le_dec 0 (overlap seg_start seg_end t)) as [Ho|Ho].
  - split; [|split].
    + rewrite dict_set_keys. destruct (decide (turn_speaker t ∈ d.*1)); [exact Hnd|].
      apply NoDup_app. split; [exact Hnd|]. split.
      * intros x Hx ->%list_elem_of_singleton. contradiction.
      * apply NoDup_singleton.
    + intros k v [[-> ->]|Hin]%dict_set_elem; [|by eapply Hpos].
      specialize (Hget (turn_speaker t)).
      pose proof (total_overlap_nonneg (turn_speaker t) done). lra.
    + intros k. rewrite total_overlap_snoc.
      destruct (decide (turn_speaker t = k)) as [<-|Hne].
      * rewrite dict_get_set_eq. rewrite (Hget (turn_speaker t)). reflexivity.
      * rewrite dict_get_set_ne by congruence. rewrite (Hget k). lra.
  - split; [exact Hnd|]. split; [exact Hpos|].
    intros k. rewrite total_overlap_snoc, (Hget k).
    destruct (decide (turn_speaker t = k)); lra.
Qed.

Lemma fold_add_turn_inv (turns : list Turn) (d : list (string * Q)) (done : list Turn) :
  times_inv seg_start seg_end d done ->
  times_inv seg_start seg_end (fold_left (add_turn seg_start seg_end) turns d)
    (done ++ turns).
Proof.
  revert d done. induction turns as [|t turns IH]; intros d done Hinv; simpl.
  - by rewrite app_nil_r.
  - rewrite (cons_middle t done turns), app_assoc.
    apply IH. by apply add_turn_inv.
Qed.

Lemma speaker_times_inv (turns : list Turn) :
  times_inv seg_start seg_end (speaker_times_of seg_start seg_end turns) turns.
Proof.
  unfold speaker_times_of.
  change turns with ([] ++ turns) at 2. apply fold_add_turn_inv.
  split; [apply NoDup_nil_2|]. split.
  - intros k v Hin. by apply not_elem_of_nil in Hin.
  - intros k. reflexivity.
Qed.

(** [max_key_from] returns a key of the dictionary whose value no other
    value exceeds. *)
Lemma max_key_from_spec (rest : list (string * Q)) (k : string) (v : Q) :
  exists vr : Q,
    (max_key_from k v rest, vr) ∈ (k, v) :: rest /\
    (v <= vr)%Q /\
    (forall k' v', (k', v') ∈ rest -> (v' <= vr)%Q).
Proof.
  revert k v. induction rest as [|[k1 v1] rest IH]; intros k v; simpl.
  - exists v. split; [apply list_elem_of_here|]. split; [lra|].
    intros k' v' Hin. by apply not_elem_of_nil in Hin.
  - destruct (Qlt_le_dec v v1) as [Hlt|Hle].
    + destruct (IH k1 v1) as (vr & Hin & Hge & Hall).
      exists vr. split; [by apply list_elem_of_further|]. split; [lra|].
      intros k' v' [Heq|Hin']%elem_of_cons.
      * inversion Heq; subst. exact Hge.
      * by eapply Hall.
    + destruct (IH k v) as (vr & Hin & Hge & Hall).
      exists vr. split.
      * apply elem_of_cons in Hin as [Heq|Hin].
        -- rewrite Heq. apply list_elem_of_here.
        -- by do 2 apply list_elem_of_further.
      * split; [exact Hge|].
        intros k' v' [Heq|Hin']%elem_of_cons.
        -- inversion Heq; subst. lra.
        -- by eapply Hall.
Qed.

End OverlapFacts.

Section SpeakerChoice.

(** The label chosen for a segment: the default when no turn overlaps it,
    otherwise the label of a turn whose speaker has the largest
    accumulated overlap. *)
Lemma speaker_for_spec (seg : Segment) (turns : list Turn) :
  let s := interval_start seg in
  let e := interval_end seg in
  ((forall t, t ∈ turns -> (overlap s e t == 0)%Q) ->
   speaker_for seg turns = DEFAULT_SPEAKER) /\
  ((exists t, t ∈ turns /\ (0 < overlap s e t)%Q) ->
   (exists t, t ∈ turns /\ turn_speaker t = speaker_for seg turns /\
              (0 < overlap s e t)%Q) /\
   (forall speaker,
      (total_overlap speaker s e turns
       <= total_overlap (speaker_for seg turns) s e turns)%Q)).
Proof.
  intros s e. unfold speaker_for. fold (interval_start seg). fold (interval_end seg).
  fold s. fold e.
  destruct (speaker_times_inv s e turns) as (Hnd & Hpos & Hget).
  destruct (speaker_times_of s e turns) as [|[k v] rest] eqn:Hd.
  - split; [reflexivity|].
    intros (t & Hin & Ht). exfalso.
    specialize (Hget (turn_speaker t)). simpl in Hget.
    pose proof (total_overlap_ge s e (turn_speaker t) turns t Hin eq_refl). lra.
  - split.
    + intros Hzero. exfalso.
      assert (Hv : (0 < v)%Q) by (eapply Hpos, list_elem_of_here).
      specialize (Hget k). simpl in Hget. rewrite decide_True in Hget by reflexivity.
      destruct (total_overlap_positive s e k turns) as (t & Hin & _ & Ht); [lra|].
      specialize (Hzero t Hin). lra.
    + intros _.
      destruct (max_key_from_spec rest k v) as (vr & Hin & Hge & Hall).
      set (best := max_key_from k v rest) in *.
      assert (Hbest : dict_get ((k, v) :: rest) best 0 = vr)
        by (by apply dict_get_elem).
      assert (Hvr : (0 < vr)%Q) by (by eapply Hpos).
      assert (Htot : (total_overlap best s e turns == vr)%Q)
        by (rewrite <- (Hget best), Hbest; reflexivity).
      split.
      * destruct (total_overlap_positive s e best turns) as (t & Ht & Hk & Ho); [lra|].
        exists t. by repeat split.
      * intros speaker. rewrite Htot, <- (Hget speaker).
        destruct (decide (speaker ∈ ((k, v) :: rest).*1)) as [Hk|Hk].
        -- destruct (dict_key_elem _ _ Hk) as [v' Hv'].
           rewrite (dict_get_elem _ _ v' 0%Q Hnd Hv').
           apply elem_of_cons in Hv' as [Heq|Hv'].
           ++ inversion Heq; subst. exact Hge.
           ++ by eapply Hall.
        -- rewrite dict_get_missing by exact Hk. lra.
Qed.


End SpeakerChoice.

(* ===================================================================== *)
(** * diarize: the loops on the store                                     *)
(* ===================================================================== *)

Section StoreLoops.

Lemma fold_alter_lookup (f : Segment -> Segment) (segments : list loc)
    (h : list Segment) (l : loc) :
  (forall seg, f (f seg) = f seg) ->
  fold_left (fun h l => alter f l h) segments h !! l
  = if decide (l ∈ segments) then f <$> h !! l else h !! l.
Proof.
  intros Hf. revert h. induction segments as [|a segments IH]; intros h.
  - simpl. destruct (decide (l ∈ [])) as [Hin|_]; [|reflexivity].
    by apply not_elem_of_nil in Hin.
  - cbn [fold_left]. rewrite IH.
    destruct (decide (l = a)) as [->|Hne].
    + rewrite list_lookup_alter_eq.
      destruct (decide (a ∈ a :: segments)) as [_|Hn];
        [|exfalso; apply Hn, list_elem_of_here].
      destruct (decide (a ∈ segments)); [|reflexivity].
      destruct (h !! a) as [seg|]; [cbn; f_equal; apply Hf | reflexivity].
    + rewrite list_lookup_alter_ne by congruence.
      destruct (decide (l ∈ segments)) as [Hin|Hnin];
        destruct (decide (l ∈ a :: segments)) as [Hin'|Hnin']; try reflexivity.
      * exfalso. apply Hnin'. by apply list_elem_of_further.
      * apply elem_of_cons in Hin' as [?|?]; congruence.
Qed.

Lemma fold_alter_length (f : Segment -> Segment) (segments : list loc)
    (h : list Segment) :
  length (fold_left (fun h l => alter f l h) segments h) = length h.
Proof.
  revert h. induction segments as [|a segments IH]; intros h; simpl; [reflexivity|].
  rewrite IH. apply length_alter.
Qed.

Lemma insert_is_alter (f : Segment -> Segment) (h : list Segment) (l : loc) :
  match h !! l with
  | Some seg => <[l := f seg]> h
  | None => h
  end = alter f l h.
Proof.
  revert l. induction h as [|x h IH]; intros [|l]; simpl; try reflexivity.
  specialize (IH l). destruct (h !! l); f_equal; exact IH.
Qed.

Lemma assign_by_overlap_alter (turns : list Turn) (segments : list loc)
    (h : list Segment) :
  assign_by_overlap turns segments h
  = fold_left (fun h l => alter (fun seg => with_speaker (speaker_for seg turns) seg) l h)
      segments h.
Proof.
  unfold assign_by_overlap. revert h.
  induction segments as [|a segments IH]; intros h; simpl; [reflexivity|].
  rewrite (insert_is_alter (fun seg => with_speaker (speaker_for seg turns) seg)).
  apply IH.
Qed.

Lemma assign_default_lookup (segments : list loc) (h : list Segment) (l : loc) :
  assign_default segments h !! l
  = if decide (l ∈ segments) then with_speaker DEFAULT_SPEAKER <$> h !! l else h !! l.
Proof. unfold assign_default. by apply fold_alter_lookup. Qed.

Lemma assign_by_overlap_lookup (turns : list Turn) (segments : list loc)
    (h : list Segment) (l : loc) :
  assign_by_overlap turns segments h !! l
  = if decide (l ∈ segments)
    then (fun seg => with_speaker (speaker_for seg turns) seg) <$> h !! l
    else h !! l.
Proof. rewrite assign_by_overlap_alter. by apply fold_alter_lookup. Qed.

Lemma assign_default_length (segments : list loc) (h : list Segment) :
  length (assign_default segments h) = length h.
Proof. apply fold_alter_length. Qed.

Lemma assign_by_overlap_length (turns : list Turn) (segments : list loc)
    (h : list Segment) :
  length (assign_by_overlap turns segments h) = length h.
Proof. rewrite assign_by_overlap_alter. apply fold_alter_length. Qed.

End StoreLoops.

(* ===================================================================== *)
(** * diarize                                                             *)
(* ===================================================================== *)

Section DiarizeFacts.

Variable ext : Externals.

(** Without a token nothing but the store changes, and no call leaves the
    process. *)
Lemma diarize_unconfigured_run (wav : string) (segments : list loc)
    (ns : option Z) (w : World) :
  Py.truthy_opt (w_environ w !! "HF_TOKEN") = false ->
  diarize ext wav segments ns w
  = (Ok segments,
     match segments with
     | [] => w
     | _ => set_heap (assign_default segments (w_heap w)) w
     end).
Proof.
  intros Htok. destruct segments as [|l segments]; [reflexivity|].
  unfold diarize. run_m. rewrite Htok. reflexivity.
Qed.


End DiarizeFacts.

Section DiarizeProperties.

Variable ext : Externals.


End DiarizeProperties.


Section DiarizeDegraded.

Variable ext : Externals.

(** C4. Without the credential ([HF_TOKEN] absent or empty) [diarize]
    returns the segments it was given, makes no call to the model (the log
    of external calls and the cached pipeline are as before), has stored
    ["SPEAKER_00"] in every segment, and every utterance that
    [format_output] makes of these segments has speaker index 0. *)
Theorem diarize_unconfigured_speaker_zero (wav : string) (segments : list loc)
    (ns : option Z) (w : World) :
  Py.truthy_opt (w_environ w !! "HF_TOKEN") = false ->
  exists w',
    diarize ext wav segments ns w = (Ok segments, w') /\
    w_trace w' = w_trace w /\
    _diarize_model w' = _diarize_model w /\
    (forall (l : loc) (seg : Segment),
       l ∈ segments -> w_heap w !! l = Some seg ->
       w_heap w' !! l = Some (with_speaker "SPEAKER_00" seg)) /\
    (exists segs,
       contents segments w' = (Ok segs, w') /\
       Forall (fun u => utt_speaker u = 0) (utterances_of (format_output segs))).
Proof.
  intros Htok. rewrite diarize_unconfigured_run by exact Htok.
  eexists. split; [reflexivity|].
  destruct segments as [|l0 segments].
  - repeat split.
    + intros l seg Hin. by apply not_elem_of_nil in Hin.
    + exists []. split; [reflexivity|]. constructor.
  - set (segs := l0 :: segments).
    split; [reflexivity|]. split; [reflexivity|]. split.
    + intros l seg Hin Hseg. cbn [w_heap set_heap].
      rewrite assign_default_lookup, decide_True by exact Hin.
      rewrite Hseg. reflexivity.
    + eexists. split; [reflexivity|].
      rewrite format_output_closed. unfold utterances_of. cbn [snd].
      apply Forall_map, Forall_forall.
      intros s [_ Hs]%list_elem_of_filter.
      apply list_elem_of_omap in Hs as (l & Hl & Hs).
      cbn [w_heap set_heap] in Hs.
      rewrite assign_default_lookup, decide_True in Hs by exact Hl.
      destruct (w_heap w !! l) as [s0|]; [|discriminate].
      inversion Hs; subst s. reflexivity.
Qed.

(** The outcomes of [diarize] on the store: untouched, the default label
    everywhere, or the labels chosen by overlap. *)
Lemma diarize_heap_cases (wav : string) (segments : list loc) (ns : option Z)
    (w : World) :
  let w' := (diarize ext wav segments ns w).2 in
  w_heap w' = w_heap w \/
  w_heap w' = assign_default segments (w_heap w) \/
  exists turns, w_heap w' = assign_by_overlap turns segments (w_heap w).
Proof.
  destruct segments as [|l0 segments]; [left; reflexivity|].
  unfold diarize, fill_diarize_model. run_m.
  destruct (Py.truthy_opt (w_environ w !! "HF_TOKEN")); cbn [negb];
    [|right; left; reflexivity].
  destruct (_diarize_model w) as [model|] eqn:Hc.
  - cbn. rewrite Hc.
    destruct (model wav (kwargs_of ns)) as [turns|e]; cbn.
    + right; right. by exists turns.
    + right; left. reflexivity.
  - cbn.
    destruct (Pipeline_from_pretrained ext (default "" (w_environ w !! "HF_TOKEN")))
      as [[model|]|e]; cbn.
    + destruct (model wav (kwargs_of ns)) as [turns|e]; cbn.
      * right; right. by exists turns.
      * right; left. reflexivity.
    + right; left. reflexivity.
    + left. reflexivity.
Qed.

(** C8, amended. Whatever its outcome, [diarize] changes the segment
    objects it was given in their ["speaker"] entry only: the store keeps
    its size, every object keeps its start, end, text, words and
    confidence, and an object that is not in the list is unchanged.
    Reading the segments for [format_output] changes nothing. *)
Theorem later_stages_write_only_speaker (wav : string) (segments : list loc)
    (ns : option Z) (w : World) :
  let w' := (diarize ext wav segments ns w).2 in
  length (w_heap w') = length (w_heap w) /\
  (forall (l : loc) (seg : Segment),
     w_heap w !! l = Some seg ->
     exists seg',
       w_heap w' !! l = Some seg' /\
       same_but_speaker seg seg' /\
       (l ∉ segments -> seg' = seg)) /\
  (contents segments w').2 = w'.
Proof.
  intros w'. subst w'.
  destruct (diarize_heap_cases wav segments ns w) as [Hh|[Hh|[turns Hh]]];
    rewrite Hh; (split; [|split; [|reflexivity]]).
  - reflexivity.
  - intros l seg Hseg. exists seg. by repeat split.
  - apply assign_default_length.
  - intros l seg Hseg. rewrite assign_default_lookup, Hseg.
    destruct (decide (l ∈ segments)); eexists; (split; [reflexivity|]);
      by repeat split.
  - apply assign_by_overlap_length.
  - intros l seg Hseg. rewrite assign_by_overlap_lookup, Hseg.
    destruct (decide (l ∈ segments)); eexists; (split; [reflexivity|]);
      by repeat split.
Qed.

(** A failure of the pipeline call is absorbed: every segment gets the
    default label and [diarize] returns. *)
Lemma diarize_run_failure_absorbed (wav : string) (segments : list loc)
    (ns : option Z) (w : World) (token : string) (model : DiarizationPipeline)
    (e : Exn) :
  w_environ w !! "HF_TOKEN" = Some token ->
  Py.truthy token = true ->
  _diarize_model w = Some model \/
    (_diarize_model w = None /\ Pipeline_from_pretrained ext token = Ok (Some model)) ->
  model wav (kwargs_of ns) = Raise e ->
  exists w',
    diarize ext wav segments ns w = (Ok segments, w') /\
    forall (l : loc) (seg : Segment),
      l ∈ segments -> w_heap w !! l = Some seg ->
      w_heap w' !! l = Some (with_speaker "SPEAKER_00" seg).
Proof.
  intros Henv Htok Hmodel Hrun.
  destruct segments as [|l0 segments].
  { exists w. split; [reflexivity|]. intros l seg Hin. by apply not_elem_of_nil in Hin. }
  assert (Hlook : forall w0, w_heap w0 = assign_default (l0 :: segments) (w_heap w) ->
            forall l seg, l ∈ l0 :: segments -> w_heap w !! l = Some seg ->
            w_heap w0 !! l = Some (with_speaker "SPEAKER_00" seg)).
  { intros w0 Hw0 l seg Hin Hseg.
    rewrite Hw0, assign_default_lookup, decide_True by exact Hin.
    rewrite Hseg. reflexivity. }
  unfold diarize, fill_diarize_model. run_m.
  rewrite Henv. cbn [Py.truthy_opt]. rewrite Htok. cbn [negb default].
  destruct Hmodel as [Hc|[Hc Hl]]; rewrite Hc.
  - cbn. rewrite Hc, Hrun. cbn. eexists. split; [reflexivity|].
    by apply Hlook.
  - cbn. rewrite Hl. cbn. rewrite Hrun. cbn. eexists. split; [reflexivity|].
    by apply Hlook.
Qed.

(** C2 fails on the code: the pipeline is loaded before the [try] block,
    so an exception of the loader leaves [diarize] as an exception, and no
    segment has received a label. *)
Theorem diarize_load_failure_escapes (wav : string) (l : loc)
    (segments : list loc) (ns : option Z) (w : World) (token : string) (e : Exn) :
  w_environ w !! "HF_TOKEN" = Some token ->
  Py.truthy token = true ->
  _diarize_model w = None ->
  Pipeline_from_pretrained ext token = Raise e ->
  exists w',
    diarize ext wav (l :: segments) ns w = (Raise e, w') /\
    w_heap w' = w_heap w.
Proof.
  intros Henv Htok Hc Hl.
  unfold diarize, fill_diarize_model. run_m.
  rewrite Henv. cbn [Py.truthy_opt]. rewrite Htok. cbn [negb default].
  rewrite Hc. cbn. rewrite Hl. cbn. eexists. split; reflexivity.
Qed.

End DiarizeDegraded.

Lemma diarize_unconfigured_speaker_zero_witness :
  exists w',
    diarize offline "a.wav" [0%nat] (Some 2) one_segment_world = (Ok [0%nat], w') /\
    w_trace w' = [] /\
    _diarize_model w' = None /\
    (forall (l : loc) (seg : Segment),
       l ∈ [0%nat] -> w_heap one_segment_world !! l = Some seg ->
       w_heap w' !! l = Some (with_speaker "SPEAKER_00" seg)) /\
    (exists segs,
       contents [0%nat] w' = (Ok segs, w') /\
       Forall (fun u => utt_speaker u = 0) (utterances_of (format_output segs))).
Proof.
  apply (diarize_unconfigured_speaker_zero offline "a.wav" [0%nat] (Some 2)
           one_segment_world).
  reflexivity.
Defined.

(** C8, as the specification states it, fails: the segment object that
    [diarize] was given has a ["speaker"] entry afterwards that it did not
    have before. *)
Lemma diarize_mutates_segment :
  let w' := (diarize offline "a.wav" [0%nat] None one_segment_world).2 in
  w_heap one_segment_world !! 0%nat = Some segment_0_10 /\
  w_heap w' !! 0%nat = Some (with_speaker "SPEAKER_00" segment_0_10) /\
  w_heap w' !! 0%nat <> w_heap one_segment_world !! 0%nat.
Proof. vm_compute. repeat split; congruence. Qed.

Lemma later_stages_write_only_speaker_witness :
  let w' := (diarize offline "a.wav" [0%nat] None one_segment_world).2 in
  exists seg',
    w_heap w' !! 0%nat = Some seg' /\
    same_but_speaker segment_0_10 seg' /\
    (0%nat ∉ [0%nat] -> seg' = segment_0_10).
Proof.
  apply (later_stages_write_only_speaker offline "a.wav" [0%nat] None one_segment_world).
  reflexivity.
Defined.

Lemma diarize_load_failure_escapes_witness :
  exists w',
    diarize offline "a.wav" [0%nat] None
      (set_heap [segment_0_10] (with_token "hf_abc" empty_world))
    = (Raise (Exception "no pipeline"), w') /\
    w_heap w' = [segment_0_10].
Proof.
  apply (diarize_load_failure_escapes offline "a.wav" 0%nat [] None
           (set_heap [segment_0_10] (with_token "hf_abc" empty_world)) "hf_abc"
           (Exception "no pipeline")); reflexivity.
Defined.

(* ===================================================================== *)
(** * transcribe                                                          *)
(* ===================================================================== *)

Section TranscribeProperties.

Variable ext : Externals.

(** C10. When the caller gives no language ([None] or the empty string)
    and the result of the engine has no ["language"] entry, [transcribe]
    returns, and the language it returns is ["en"]. *)
Theorem transcribe_defaults_to_en (wav model_size : string)
    (language : option string) (w : World) (model : WhisperModel)
    (res : TranscribeResult) :
  Py.truthy_opt language = false ->
  _model_cache w !! default model_size (model_map !! model_size) = Some model \/
    (_model_cache w !! default model_size (model_map !! model_size) = None /\
     whisper_load_model ext (default model_size (model_map !! model_size)) = Ok model) ->
  model wav None = Ok res ->
  res_language res = None ->
  exists segments w',
    transcribe ext wav model_size language w = (Ok (segments, "en"), w').
Proof.
  intros Hlang Hmodel Hrun Hres.
  unfold transcribe, fill_model_cache. run_m. cbv zeta.
  generalize dependent (default model_size (model_map !! model_size)).
  intros model_name Hmodel. rewrite Hlang.
  destruct Hmodel as [Hc|[Hc Hl]]; rewrite Hc.
  - cbn -[lookup insert]. rewrite Hc. cbn. rewrite Hrun, Hres. cbn.
    destruct (default [] (res_segments res)); cbn; eauto.
  - cbn -[lookup insert]. rewrite Hl. cbn -[lookup insert].
    rewrite lookup_insert_eq. cbn. rewrite Hrun, Hres. cbn.
    destruct (default [] (res_segments res)); cbn; eauto.
Qed.

End TranscribeProperties.

Lemma transcribe_defaults_to_en_witness :
  exists segments w',
    transcribe online "a.wav" "large-v3" None empty_world = (Ok (segments, "en"), w').
Proof.
  apply (transcribe_defaults_to_en online "a.wav" "large-v3" None empty_world
           silent_whisper {| res_language := None; res_segments := None |}).
  - reflexivity.
  - right. split; reflexivity.
  - reflexivity.
  - reflexivity.
Defined.

(* ===================================================================== *)
(** * Two jobs on the model caches                                        *)
(* ===================================================================== *)

Section CacheFill.

Variable ext : Externals.

Lemma loads_snoc (t : list Event) (e : Event) :
  loads (t ++ [e]) = (loads t + if is_load e then 1 else 0)%nat.
Proof.
  unfold loads. rewrite filter_app, length_app, filter_cons, filter_nil.
  destruct (is_load e); reflexivity.
Qed.

(** A job that runs its three steps alone does what [fill_model_cache]
    does, and likewise for the pipeline. *)
Lemma model_cache_steps_fill (name : string) (w : World) :
  let c1 := model_cache_step ext name AtCheck w in
  let c2 := model_cache_step ext name c1.1 c1.2 in
  let c3 := model_cache_step ext name c2.1 c2.2 in
  c3.2 = (fill_model_cache ext name w).2 /\ finished c3.1 = true.
Proof.
  unfold fill_model_cache. run_m. cbn -[lookup insert].
  destruct (_model_cache w !! name); cbn -[lookup insert]; [split; reflexivity|].
  destruct (whisper_load_model ext name); cbn -[lookup insert]; split; reflexivity.
Qed.

Lemma diarize_model_steps_fill (token : string) (w : World) :
  let c1 := diarize_model_step ext token AtCheck w in
  let c2 := diarize_model_step ext token c1.1 c1.2 in
  let c3 := diarize_model_step ext token c2.1 c2.2 in
  c3.2 = (fill_diarize_model ext token w).2 /\ finished c3.1 = true.
Proof.
  unfold fill_diarize_model. run_m. cbn.
  destruct (_diarize_model w); cbn; [split; reflexivity|].
  destruct (Pipeline_from_pretrained ext token); cbn; split; reflexivity.
Qed.

(** Once the first job has filled the cache, the second job finds the
    model: no step of either job changes the world any more. *)
Lemma model_cache_after_fill (name : string) (m : WhisperModel) (w1 : World)
    (sched : list Job) (pc2 : FillPc WhisperModel) :
  _model_cache w1 !! name = Some m ->
  pc2 = AtCheck \/ pc2 = Filled ->
  exists pc2',
    run_schedule (model_cache_step ext name) sched (Filled, pc2, w1)
    = (Filled, pc2', w1) /\
    (pc2' = AtCheck \/ pc2' = Filled) /\
    (Job2 ∈ sched -> pc2' = Filled) /\
    (pc2 = Filled -> pc2' = Filled).
Proof.
  intros Hc. revert pc2. induction sched as [|j sched IH]; intros pc2 Hpc.
  - exists pc2. split; [reflexivity|]. split; [exact Hpc|]. split; [|tauto].
    intros Hin. by apply not_elem_of_nil in Hin.
  - unfold run_schedule. cbn [fold_left]. fold (run_schedule (model_cache_step ext name)).
    destruct j.
    + cbn. destruct (IH pc2 Hpc) as (pc2' & Hrun & Hpc' & Hin & Hf).
      exists pc2'. split; [exact Hrun|]. split; [exact Hpc'|]. split; [|exact Hf].
      intros [Heq|Hin']%elem_of_cons; [discriminate | by apply Hin].
    + assert (Hstep : model_cache_step ext name pc2 w1 = (Filled, w1)).
      { destruct Hpc as [->| ->]; cbn -[lookup]; [rewrite Hc|]; reflexivity. }
      cbn -[model_cache_step]. rewrite Hstep.
      destruct (IH Filled (or_intror eq_refl)) as (pc2' & Hrun & Hpc' & Hin & Hf).
      exists pc2'. split; [exact Hrun|]. split; [exact Hpc'|].
      split; intros _; by apply Hf.
Qed.

Lemma diarize_model_after_fill (token : string) (p : DiarizationPipeline)
    (w1 : World) (sched : list Job) (pc2 : FillPc (option DiarizationPipeline)) :
  _diarize_model w1 = Some p ->
  pc2 = AtCheck \/ pc2 = Filled ->
  exists pc2',
    run_schedule (diarize_model_step ext token) sched (Filled, pc2, w1)
    = (Filled, pc2', w1) /\
    (pc2' = AtCheck \/ pc2' = Filled) /\
    (Job2 ∈ sched -> pc2' = Filled) /\
    (pc2 = Filled -> pc2' = Filled).
Proof.
  intros Hc. revert pc2. induction sched as [|j sched IH]; intros pc2 Hpc.
  - exists pc2. split; [reflexivity|]. split; [exact Hpc|]. split; [|tauto].
    intros Hin. by apply not_elem_of_nil in Hin.
  - unfold run_schedule. cbn [fold_left]. fold (run_schedule (diarize_model_step ext token)).
    destruct j.
    + cbn. destruct (IH pc2 Hpc) as (pc2' & Hrun & Hpc' & Hin & Hf).
      exists pc2'. split; [exact Hrun|]. split; [exact Hpc'|]. split; [|exact Hf].
      intros [Heq|Hin']%elem_of_cons; [discriminate | by apply Hin].
    + assert (Hstep : diarize_model_step ext token pc2 w1 = (Filled, w1)).
      { destruct Hpc as [->| ->]; cbn; [rewrite Hc|]; reflexivity. }
      cbn -[diarize_model_step]. rewrite Hstep.
      destruct (IH Filled (or_intror eq_refl)) as (pc2' & Hrun & Hpc' & Hin & Hf).
      exists pc2'. split; [exact Hrun|]. split; [exact Hpc'|].
      split; intros _; by apply Hf.
Qed.

(** C9, amended. When the first job has stored the model before the
    second job tests the cache (the first three steps of the schedule are
    the first job's), exactly one load happens however the jobs are
    scheduled afterwards, the second job ends with the cached model as
    soon as it runs, and this holds for the Whisper cache and for the
    diarization pipeline (whose loader must return a pipeline). *)
Theorem cache_fill_loads_once_in_turn (name token : string) (w : World)
    (m : WhisperModel) (p : DiarizationPipeline) (sched : list Job) :
  _model_cache w !! name = None ->
  whisper_load_model ext name = Ok m ->
  _diarize_model w = None ->
  Pipeline_from_pretrained ext token = Ok (Some p) ->
  (exists pc2 w',
     run_schedule (model_cache_step ext name) ([Job1; Job1; Job1] ++ sched)
       (AtCheck, AtCheck, w) = (Filled, pc2, w') /\
     loads (w_trace w') = S (loads (w_trace w)) /\
     _model_cache w' !! name = Some m /\
     (Job2 ∈ sched -> pc2 = Filled)) /\
  (exists pc2 w',
     run_schedule (diarize_model_step ext token) ([Job1; Job1; Job1] ++ sched)
       (AtCheck, AtCheck, w) = (Filled, pc2, w') /\
     loads (w_trace w') = S (loads (w_trace w)) /\
     _diarize_model w' = Some p /\
     (Job2 ∈ sched -> pc2 = Filled)).
Proof.
  intros Hc Hl Hd Hp. split.
  - set (w1 := set_model_cache (<[name := m]> (_model_cache w))
                 (set_trace (w_trace w ++ [EvWhisperLoad name]) w)).
    assert (Hw1 : _model_cache w1 !! name = Some m) by apply lookup_insert_eq.
    destruct (model_cache_after_fill name m w1 sched AtCheck Hw1 (or_introl eq_refl))
      as (pc2 & Hrun & _ & Hin & _).
    exists pc2, w1. split; [|split; [|split]].
    + unfold run_schedule in *. rewrite fold_left_app.
      cbn -[lookup insert]. rewrite Hc. cbn -[lookup insert]. rewrite Hl. exact Hrun.
    + unfold w1. cbn [w_trace set_model_cache set_diarize_model set_trace].
      rewrite loads_snoc. cbn [is_load]. lia.
    + exact Hw1.
    + exact Hin.
  - set (w1 := set_diarize_model (Some p)
                 (set_trace (w_trace w ++ [EvPipelineLoad token]) w)).
    assert (Hw1 : _diarize_model w1 = Some p) by reflexivity.
    destruct (diarize_model_after_fill token p w1 sched AtCheck Hw1 (or_introl eq_refl))
      as (pc2 & Hrun & _ & Hin & _).
    exists pc2, w1. split; [|split; [|split]].
    + unfold run_schedule in *. rewrite fold_left_app.
      cbn. rewrite Hd. cbn. rewrite Hp. exact Hrun.
    + unfold w1. cbn [w_trace set_model_cache set_diarize_model set_trace].
      rewrite loads_snoc. cbn [is_load]. lia.
    + exact Hw1.
    + exact Hin.
Qed.

End CacheFill.

(** C9, as the specification states it, fails: nothing guards the test and
    the store of the cache. Two jobs that ask for the same model and both
    test the cache before either has stored a model each call the loader. *)
Lemma concurrent_first_use_loads_twice :
  let sched := [Job1; Job2; Job1; Job2; Job1; Job2] in
  let c := run_schedule (model_cache_step online "medium") sched
             (AtCheck, AtCheck, empty_world) in
  let d := run_schedule (diarize_model_step online "hf_abc") sched
             (AtCheck, AtCheck, empty_world) in
  (finished c.1.1 = true /\ finished c.1.2 = true /\
   w_trace c.2 = [EvWhisperLoad "medium"; EvWhisperLoad "medium"] /\
   loads (w_trace c.2) = 2%nat) /\
  (finished d.1.1 = true /\ finished d.1.2 = true /\
   w_trace d.2 = [EvPipelineLoad "hf_abc"; EvPipelineLoad "hf_abc"] /\
   loads (w_trace d.2) = 2%nat).
Proof. vm_compute. repeat split. Qed.

Lemma cache_fill_loads_once_in_turn_witness :
  (exists pc2 w',
     run_schedule (model_cache_step online "medium")
       ([Job1; Job1; Job1] ++ [Job2; Job2; Job2]) (AtCheck, AtCheck, empty_world)
     = (Filled, pc2, w') /\
     loads (w_trace w') = S (loads (w_trace empty_world)) /\
     _model_cache w' !! "medium" = Some silent_whisper /\
     (Job2 ∈ [Job2; Job2; Job2] -> pc2 = Filled)) /\
  (exists pc2 w',
     run_schedule (diarize_model_step online "hf_abc")
       ([Job1; Job1; Job1] ++ [Job2; Job2; Job2]) (AtCheck, AtCheck, empty_world)
     = (Filled, pc2, w') /\
     loads (w_trace w') = S (loads (w_trace empty_world)) /\
     _diarize_model w' = Some silent_pipeline /\
     (Job2 ∈ [Job2; Job2; Job2] -> pc2 = Filled)).
Proof.
  apply (cache_fill_loads_once_in_turn online "medium" "hf_abc" empty_world
           silent_whisper silent_pipeline [Job2; Job2; Job2]); reflexivity.
Defined.

(* ===================================================================== *)
(** * process_transcription                                               *)
(* ===================================================================== *)

Section StageFacts.

Variable ext : Externals.

Lemma extends_refl (P : Event -> Prop) (w : World) : extends P w w.
Proof. exists []. split; [symmetry; apply app_nil_r | constructor]. Qed.

Lemma extends_trans (P : Event -> Prop) (w1 w2 w3 : World) :
  extends P w1 w2 -> extends P w2 w3 -> extends P w1 w3.
Proof.
  intros (t1 & H1 & F1) (t2 & H2 & F2). exists (t1 ++ t2). split.
  - rewrite H2, H1, app_assoc. reflexivity.
  - by apply Forall_app.
Qed.

Lemma now_extends (w : World) : extends is_stage_event w (now ext w).2.
Proof. unfold now. solve_extends. Qed.

Lemma download_audio_extends (url rid : string) (w : World) :
  extends is_stage_event w (download_audio ext url rid w).2.
Proof.
  unfold download_audio. run_m. cbv zeta.
  destruct (download_file ext url _) as [[n|e] [|]]; solve_extends.
Qed.

Lemma convert_to_wav_extends (input rid : string) (w : World) :
  extends is_stage_event w (convert_to_wav ext input rid w).2.
Proof.
  unfold convert_to_wav. run_m. cbv zeta.
  destruct (ffmpeg ext input _) as [[n|e] [|]]; solve_extends.
Qed.

Lemma fill_model_cache_extends (name : string) (w : World) :
  extends is_stage_event w (fill_model_cache ext name w).2.
Proof.
  unfold fill_model_cache. run_m.
  destruct (_model_cache w !! name); [solve_extends|].
  cbn -[lookup insert]. destruct (whisper_load_model ext name); solve_extends.
Qed.

Lemma transcribe_extends (wav model_size : string) (language : option string)
    (w : World) :
  extends is_stage_event w (transcribe ext wav model_size language w).2.
Proof.
  unfold transcribe. cbv zeta. unfold bind at 1.
  pose proof (fill_model_cache_extends
                (default model_size (model_map !! model_size)) w) as Hfill.
  destruct (fill_model_cache ext _ w) as [[[]|e] w1]; cbn [snd] in Hfill;
    [|exact Hfill].
  eapply extends_trans; [exact Hfill|]. run_m.
  destruct (_model_cache w1 !! _) as [model|]; [|solve_extends].
  cbn -[lookup insert].
  destruct (model wav _) as [res|e]; [|solve_extends].
  destruct (default [] (res_segments res)); solve_extends.
Qed.

Lemma diarize_extends (wav : string) (segments : list loc) (ns : option Z)
    (w : World) :
  extends is_stage_event w (diarize ext wav segments ns w).2.
Proof.
  destruct segments as [|l0 segments]; [apply extends_refl|].
  unfold diarize, fill_diarize_model. run_m.
  destruct (Py.truthy_opt (w_environ w !! "HF_TOKEN")); cbn [negb];
    [|solve_extends].
  destruct (_diarize_model w) as [model|] eqn:Hc.
  - cbn. rewrite Hc. destruct (model wav (kwargs_of ns)); solve_extends.
  - cbn.
    destruct (Pipeline_from_pretrained ext _) as [[model|]|e]; cbn;
      [|solve_extends..].
    destruct (model wav (kwargs_of ns)); solve_extends.
Qed.

Lemma get_audio_duration_extends (wav : string) (w : World) :
  extends is_stage_event w (get_audio_duration ext wav w).2.
Proof.
  unfold get_audio_duration. run_m.
  destruct (ffprobe ext wav) as [[d|]|e]; solve_extends.
Qed.

End StageFacts.

Section CleanupFacts.

Variable ext : Externals.

Lemma remove_paths_cons (p : string) (paths : list string) (w : World) :
  remove_paths ext (p :: paths) w
  = remove_paths ext paths
      (if os_remove ext p
       then set_tmp (filter (fun f => f <> p) (w_tmp w))
              (set_trace (w_trace w ++ [EvRemove p]) w)
       else set_trace (w_trace w ++ [EvRemove p]) w).
Proof.
  unfold remove_paths. cbn [fold_right]. run_m. cbn [modify].
  destruct (os_remove ext p); reflexivity.
Qed.

(** The inner loop of the cleanup returns, logs one [os.remove] per path,
    leaves no new file, and leaves a listed file only when [os.remove]
    failed on it. *)
Lemma remove_paths_run (paths : list string) (w : World) :
  exists w',
    remove_paths ext paths w = (Ok tt, w') /\
    w_trace w' = w_trace w ++ map EvRemove paths /\
    (forall f, f ∈ w_tmp w' -> f ∈ w_tmp w) /\
    (forall f, f ∈ w_tmp w' -> f ∈ paths -> os_remove ext f = false).
Proof.
  revert w. induction paths as [|p paths IH]; intros w.
  - exists w. split; [reflexivity|]. split; [by rewrite app_nil_r|].
    split; [tauto|]. intros f _ Hin. by apply not_elem_of_nil in Hin.
  - rewrite remove_paths_cons.
    destruct (os_remove ext p) eqn:Hp.
    + destruct (IH (set_tmp (filter (fun f => f <> p) (w_tmp w))
                      (set_trace (w_trace w ++ [EvRemove p]) w)))
        as (w' & Hrun & Htr & Hsub & Hgone).
      exists w'. split; [exact Hrun|]. split.
      { rewrite Htr. cbn. rewrite <- app_assoc. reflexivity. }
      cbn in Hsub. split.
      * intros f Hf. specialize (Hsub f Hf).
        by apply list_elem_of_filter in Hsub as [_ ?].
      * intros f Hf [->|Hin]%elem_of_cons; [|by apply Hgone].
        specialize (Hsub p Hf). by apply list_elem_of_filter in Hsub as [? _].
    + destruct (IH (set_trace (w_trace w ++ [EvRemove p]) w))
        as (w' & Hrun & Htr & Hsub & Hgone).
      exists w'. split; [exact Hrun|]. split.
      { rewrite Htr. cbn. rewrite <- app_assoc. reflexivity. }
      cbn in Hsub. split; [exact Hsub|].
      intros f Hf [->|Hin]%elem_of_cons; [exact Hp | by apply Hgone].
Qed.

(** [cleanup_temp_files] never raises. It lists and removes the files of
    the two patterns of the recording; afterwards a file with one of the
    two stems is left only if [os.remove] failed on it. *)
Lemma cleanup_temp_files_run (recording_id : string) (w : World) :
  exists w' removed1 removed2,
    cleanup_temp_files ext recording_id w = (Ok tt, w') /\
    w_trace w'
    = w_trace w
      ++ (EvGlob (("/tmp/" +:+ recording_id +:+ "_input") +:+ "*")
            :: map EvRemove removed1)
      ++ (EvGlob (("/tmp/" +:+ recording_id +:+ "_audio") +:+ "*")
            :: map EvRemove removed2) /\
    (forall f, f ∈ w_tmp w' ->
       String.prefix ("/tmp/" +:+ recording_id +:+ "_input") f = true \/
       String.prefix ("/tmp/" +:+ recording_id +:+ "_audio") f = true ->
       os_remove ext f = false).
Proof.
  set (s1 := "/tmp/" +:+ recording_id +:+ "_input").
  set (s2 := "/tmp/" +:+ recording_id +:+ "_audio").
  unfold cleanup_temp_files. cbv zeta. cbn [fold_right]. fold s1 s2.
  run_m. cbn [modify].
  set (w1 := set_trace (w_trace w ++ [EvGlob (s1 +:+ "*")]) w).
  destruct (remove_paths_run (glob_star s1 (w_tmp w1)) w1)
    as (w2 & Hrun1 & Htr1 & Hsub1 & Hgone1).
  rewrite Hrun1.
  set (w3 := set_trace (w_trace w2 ++ [EvGlob (s2 +:+ "*")]) w2).
  destruct (remove_paths_run (glob_star s2 (w_tmp w3)) w3)
    as (w4 & Hrun2 & Htr2 & Hsub2 & Hgone2).
  rewrite Hrun2.
  exists w4, (glob_star s1 (w_tmp w1)), (glob_star s2 (w_tmp w3)).
  split; [reflexivity|]. split.
  - rewrite Htr2. unfold w3 at 1. cbn [w_trace set_trace]. rewrite Htr1.
    unfold w1 at 1. cbn [w_trace set_trace]. rewrite <- !app_assoc. reflexivity.
  - intros f Hf [Hpre|Hpre].
    + apply Hgone1.
      * apply Hsub2 in Hf. exact Hf.
      * apply list_elem_of_filter. split; [exact Hpre|].
        apply Hsub2 in Hf. cbn in Hf. apply Hsub1 in Hf. exact Hf.
    + apply Hgone2; [exact Hf|].
      apply list_elem_of_filter. split; [exact Hpre|]. by apply Hsub2.
Qed.

(** [_send_callback] never raises and makes exactly one request. *)
Lemma send_callback_run (url secret : string) (payload : gmap string JVal)
    (w : World) :
  exists w',
    _send_callback ext url secret payload w = (Ok tt, w') /\
    w_trace w'
    = w_trace w ++ [EvPost url (json_dumps ext payload)
                      (hmac_sha256_hex ext secret (json_dumps ext payload))] /\
    w_tmp w' = w_tmp w.
Proof.
  unfold _send_callback. run_m. cbv zeta. cbn [modify].
  destruct (requests_post ext url _ _); eexists; repeat split.
Qed.

End CleanupFacts.

Section HandlerFacts.

Variable ext : Externals.

Lemma bind_lift {A B} (m : M World A) (k : A -> M Frame B) (fr : Frame) :
  bind (lift m) k fr
  = match m (f_world fr) with
    | (Ok a, w) => k a {| f_world := w; result := result fr |}
    | (Raise e, w) => (Raise e, {| f_world := w; result := result fr |})
    end.
Proof. unfold bind, lift. destruct (m (f_world fr)) as [[a|e] w]; reflexivity. Qed.

Lemma bind_set_result {B} (key : string) (v : JVal) (k : unit -> M Frame B)
    (fr : Frame) :
  bind (set_result key v) k fr
  = k tt {| f_world := f_world fr; result := <[key := v]> (result fr) |}.
Proof. reflexivity. Qed.

(** The [try] block: the stages log stage calls only; when it raises,
    [result] is as before, and when it returns, [result] has received the
    success entries. *)
Lemma run_stages_spec (event : JobEvent) (start_time : Q) (fr : Frame) :
  let out := run_stages ext event start_time fr in
  extends is_stage_event (f_world fr) (f_world out.2) /\
  match out.1 with
  | Raise _ => result out.2 = result fr
  | Ok _ =>
      exists text json utts duration language seconds,
        result out.2
        = success_result (result fr) text json utts duration language seconds
  end.
Proof.
  intros out.
  pose proof (eq_refl : out = run_stages ext event start_time fr) as Hout.
  clearbody out. unfold run_stages in Hout. cbv zeta in Hout.
  destruct (negb (Py.truthy_opt (Py.or_else (ev_audio_url event) (ev_video_url event)))).
  { subst out. split; [apply extends_refl | exact eq_refl]. }
  unfold bind at 1 in Hout. unfold ret at 1 in Hout. cbn beta iota in Hout.
  rewrite bind_lift in Hout.
  pose proof (download_audio_extends ext
                (default "" (Py.or_else (ev_audio_url event) (ev_video_url event)))
                (ev_recording_id event) (f_world fr)) as E1.
  destruct (download_audio ext _ _ (f_world fr)) as [[local_path|e] w1];
    cbn [snd fst] in E1; [|subst out; split; [exact E1 | exact eq_refl]].
  rewrite bind_lift in Hout. cbn [f_world result] in Hout.
  pose proof (convert_to_wav_extends ext local_path (ev_recording_id event) w1) as E2.
  destruct (convert_to_wav ext _ _ w1) as [[wav_path|e] w2];
    cbn [snd fst] in E2;
    [|subst out; split; [eapply extends_trans; eassumption | exact eq_refl]].
  rewrite bind_lift in Hout. cbn [f_world result] in Hout.
  pose proof (transcribe_extends ext wav_path (default "medium" (ev_model_size event))
                (ev_language event) w2) as E3.
  destruct (transcribe ext _ _ _ w2) as [[[segments language]|e] w3];
    cbn [snd fst] in E3;
    [|subst out; split;
      [repeat (eapply extends_trans; [eassumption|]); apply extends_refl
      | exact eq_refl]].
  rewrite bind_lift in Hout. cbn [f_world result] in Hout.
  pose proof (diarize_extends ext wav_path segments (ev_num_speakers event) w3) as E4.
  destruct (diarize ext _ _ _ w3) as [[diarized|e] w4];
    cbn [snd fst] in E4;
    [|subst out; split;
      [repeat (eapply extends_trans; [eassumption|]); apply extends_refl
      | exact eq_refl]].
  rewrite bind_lift in Hout. cbn [f_world result contents] in Hout.
  destruct (format_output _) as [[text json] utts].
  rewrite bind_lift in Hout. cbn [f_world result] in Hout.
  pose proof (get_audio_duration_extends ext wav_path w4) as E5.
  destruct (get_audio_duration ext _ w4) as [[duration|e] w5];
    cbn [snd fst] in E5;
    [|subst out; split;
      [repeat (eapply extends_trans; [eassumption|]); apply extends_refl
      | exact eq_refl]].
  rewrite !bind_set_result in Hout. rewrite bind_lift in Hout.
  cbn [f_world result now set_result modify] in Hout.
  subst out. split.
  - repeat (eapply extends_trans; [eassumption|]).
    apply (now_extends ext w5).
  - do 6 eexists. exact eq_refl.
Qed.

End HandlerFacts.

Section HandlerProperties.

Variable ext : Externals.

Lemma success_result_envelope (rid text : string) (json : gmap string (list Utterance))
    (utts : list Utterance) (duration : Q) (language : string) (seconds : Z) :
  success_envelope rid
    (success_result (initial_result rid) text json utts duration language seconds).
Proof.
  unfold success_envelope, success_result, initial_result.
  repeat split; try (eexists; by simplify_map_eq); by simplify_map_eq.
Qed.

Lemma error_result_envelope (rid msg : string) (seconds : Z) :
  error_envelope rid
    (<["processing_seconds" := JInt seconds]>
       (<["error" := JStr msg]> (initial_result rid))).
Proof.
  unfold error_envelope, initial_result.
  repeat split; try (eexists; by simplify_map_eq); by simplify_map_eq.
Qed.

(** The [try] block with its handler always returns, logs stage calls
    only, and leaves one of the two envelopes in [result]. *)
Lemma guarded_stages_spec (event : JobEvent) (start_time : Q) (w : World) :
  let out := try_except (run_stages ext event start_time) (on_exception ext start_time)
               {| f_world := w; result := initial_result (ev_recording_id event) |} in
  out.1 = Ok tt /\
  extends is_stage_event w (f_world out.2) /\
  (success_envelope (ev_recording_id event) (result out.2) \/
   error_envelope (ev_recording_id event) (result out.2)).
Proof.
  intros out.
  pose proof (eq_refl : out = try_except (run_stages ext event start_time)
                                (on_exception ext start_time)
                                {| f_world := w;
                                   result := initial_result (ev_recording_id event) |})
    as Hout.
  clearbody out. unfold try_except in Hout.
  destruct (run_stages_spec ext event start_time
              {| f_world := w; result := initial_result (ev_recording_id event) |})
    as [E Hres].
  destruct (run_stages ext event start_time _) as [[[]|e] fr1];
    cbn [fst snd f_world result] in *.
  - subst out. cbn [fst snd]. split; [reflexivity|]. split; [exact E|]. left.
    destruct Hres as (text & json & utts & duration & language & seconds & ->).
    apply success_result_envelope.
  - unfold on_exception in Hout. rewrite bind_set_result, bind_lift in Hout.
    cbn [f_world result now set_result modify] in Hout.
    subst out. cbn [fst snd f_world result].
    split; [reflexivity|]. split.
    + eapply extends_trans; [exact E|]. apply (now_extends ext (f_world fr1)).
    + right. rewrite Hres. apply error_result_envelope.
Qed.


End HandlerProperties.


(* ===================================================================== *)
(** * Runs of the whole pipeline                                          *)
(* ===================================================================== *)

Section PipelineRuns.

(** Scenario A of the specification: no credential, three segments. *)
Example run_without_credential :
  let out := process_transcription pipeline_unavailable job empty_world in
  exists payload,
    out.1 = Ok payload /\
    payload !! "status" = Some (JStr "success") /\
    payload !! "speaker_count" = Some (JInt 1) /\
    payload !! "transcript_text"
    = Some (JStr (Py.join newline ["Speaker 0: one"; "Speaker 0: two"; "Speaker 0: three"])) /\
    w_tmp out.2 = [].
Proof. vm_compute. eexists. repeat split. Qed.

(** The defect behind C2, on a whole run: the credential is present and
    the pipeline cannot be loaded. The exception of the loader leaves
    [diarize], and the run ends with a failure envelope although the
    transcription succeeded. *)
Example run_with_unloadable_pipeline :
  let out := process_transcription pipeline_unavailable job
               (with_token "hf_abc" empty_world) in
  exists payload,
    out.1 = Ok payload /\
    payload !! "status" = Some (JStr "error") /\
    payload !! "error" = Some (JStr "cannot fetch pipeline") /\
    payload !! "transcript_utterances" = None.
Proof. vm_compute. eexists. repeat split. Qed.

End PipelineRuns.

(* ===================================================================== *)
(** * format_output: further properties                                   *)
(* ===================================================================== *)

Section FormatOutputMore.

(** X1. The utterances of a concatenation are the utterances of the parts, in
    order, in the list and in the JSON form. *)
Theorem format_output_app (a b : list Segment) :
  utterances_of (format_output (a ++ b))
  = utterances_of (format_output a) ++ utterances_of (format_output b) /\
  transcript_json_of (format_output (a ++ b)) !! "utterances"
  = Some (utterances_of (format_output a) ++ utterances_of (format_output b)).
Proof.
  rewrite !format_output_closed. unfold utterances_of, transcript_json_of. simpl.
  rewrite filter_app, map_app. split; [reflexivity | apply lookup_singleton_eq].
Qed.

(** X2. Segments without text (absent, empty or blank) give the result of the
    empty list: an empty transcript and no utterance. *)
Theorem format_output_blank (segs : list Segment) :
  Forall (fun s => Py.strip (default "" (seg_text s)) = "") segs ->
  format_output segs = ("", {[ "utterances" := [] ]}, []).
Proof.
  intros Hall. rewrite format_output_closed.
  assert (Hf : filter (fun s => has_text s = true) segs = []).
  { induction Hall as [|s segs Hs _ IH]; [reflexivity|].
    rewrite filter_cons, decide_False; [exact IH|].
    unfold has_text. rewrite Hs. discriminate. }
  rewrite Hf. reflexivity.
Qed.

Lemma format_output_blank_witness :
  format_output [plain_segment 0 1 "   " []; plain_segment 1 2 "" []]
  = ("", {[ "utterances" := [] ]}, []).
Proof.
  apply (format_output_blank [plain_segment 0 1 "   " []; plain_segment 1 2 "" []]).
  repeat constructor.
Defined.

(** X3. Every utterance carries the index parsed from the label of its segment,
    a text that is not empty, and the start, end and confidence of the
    segment (0.0 when absent) rounded to 3, 3 and 4 decimals. *)
Theorem format_output_utterance_fields (segs : list Segment) :
  Forall2
    (fun seg u =>
       utt_speaker u = speaker_num_of seg /\
       utt_text u <> "" /\
       rounded_to 3 (default 0%Q (seg_start seg)) (utt_start u) /\
       rounded_to 3 (default 0%Q (seg_end seg)) (utt_end u) /\
       rounded_to 4 (default 0%Q (seg_confidence seg)) (utt_confidence u))
    (filter (fun s => has_text s = true) segs)
    (utterances_of (format_output segs)).
Proof.
  rewrite format_output_closed. unfold utterances_of. simpl.
  apply Forall2_fmap_r, Forall_Forall2_diag, Forall_forall.
  intros seg [Hk _]%list_elem_of_filter.
  split; [reflexivity|]. split.
  - unfold has_text in Hk. simpl. destruct (Py.strip _); [discriminate | discriminate].
  - repeat split; try apply round_rounded_to; eexists; reflexivity.
Qed.

End FormatOutputMore.

(* ===================================================================== *)
(** * The word count of a transcript                                      *)
(* ===================================================================== *)

Section WordCount.

Lemma count_tokens_space (x : string) (c : ascii) (y : string) (b : bool) :
  Py.isspace c = true ->
  Py.count_tokens b (x +:+ String c y)
  = (Py.count_tokens b x + Py.count_tokens false y)%nat.
Proof.
  intros Hc. revert b. induction x as [|a x IH]; intros b; simpl.
  - rewrite Hc. reflexivity.
  - destruct (Py.isspace a); [apply IH|].
    destruct b; rewrite IH; reflexivity.
Qed.

Lemma count_tokens_word (x : string) :
  no_space x = true -> Py.count_tokens true x = 0%nat.
Proof.
  induction x as [|a x IH]; simpl; [reflexivity|].
  intros [Ha Hx]%andb_prop. apply negb_true_iff in Ha. rewrite Ha. by apply IH.
Qed.

Lemma count_tokens_one_word (x : string) :
  x <> "" -> no_space x = true -> Py.count_tokens false x = 1%nat.
Proof.
  destruct x as [|a x]; [congruence|]. simpl.
  intros _ [Ha Hx]%andb_prop. apply negb_true_iff in Ha. rewrite Ha.
  by rewrite count_tokens_word.
Qed.

Lemma no_space_append (a b : string) :
  no_space (a +:+ b) = no_space a && no_space b.
Proof.
  induction a as [|x a IH]; simpl; [reflexivity|].
  rewrite IH. by rewrite andb_assoc.
Qed.

Lemma digits_no_space (d : Decimal.uint) :
  no_space (NilEmpty.string_of_uint d) = true.
Proof. induction d; simpl; auto. Qed.

Lemma str_of_int_no_space (n : Z) : no_space (Py.str_of_int n) = true.
Proof.
  unfold Py.str_of_int, NilZero.string_of_int, NilZero.string_of_uint.
  destruct (Z.to_int n) as [d|d]; destruct d; simpl;
    try reflexivity; apply digits_no_space.
Qed.

Lemma str_of_int_nonempty (n : Z) : Py.str_of_int n <> "".
Proof.
  unfold Py.str_of_int, NilZero.string_of_int, NilZero.string_of_uint.
  destruct (Z.to_int n) as [d|d]; destruct d; simpl; discriminate.
Qed.

(** A line of the transcript has two words more than its text: "Speaker"
    and the index with its colon. *)
Lemma count_tokens_text_line (n : Z) (text : string) :
  Py.count_tokens false (text_line n text)
  = (2 + Py.count_tokens false text)%nat.
Proof.
  unfold text_line.
  change ("Speaker " +:+ Py.str_of_int n +:+ ": " +:+ text)
    with ("Speaker" +:+ String " " (Py.str_of_int n +:+ ": " +:+ text)).
  rewrite count_tokens_space by reflexivity.
  change (Py.str_of_int n +:+ ": " +:+ text)
    with (Py.str_of_int n +:+ String ":" (String " " text)).
  assert (Hsplit : Py.str_of_int n +:+ String ":" (String " " text)
                   = (Py.str_of_int n +:+ ":") +:+ String " " text).
  { generalize (Py.str_of_int n). intros s.
    induction s as [|a s IH]; simpl; [reflexivity | by rewrite IH]. }
  rewrite Hsplit, count_tokens_space by reflexivity.
  rewrite (count_tokens_one_word (Py.str_of_int n +:+ ":")).
  - reflexivity.
  - pose proof (str_of_int_nonempty n). destruct (Py.str_of_int n); [congruence|discriminate].
  - rewrite no_space_append, str_of_int_no_space. reflexivity.
Qed.

Lemma count_tokens_join (ls : list string) :
  Py.count_tokens false (Py.join newline ls)
  = list_sum (map (Py.count_tokens false) ls).
Proof.
  induction ls as [|l ls IH]; [reflexivity|].
  destruct ls as [|l' ls].
  - simpl. lia.
  - change (Py.join newline (l :: l' :: ls))
      with (l +:+ String newline_char (Py.join newline (l' :: ls))).
    rewrite count_tokens_space by reflexivity.
    rewrite IH. reflexivity.
Qed.

(** X4. The number of white-space separated words of [transcript_text], which
    the handler reports as [word_count], is the number of words of the
    utterance texts plus two for every utterance. *)
Theorem transcript_word_count (segs : list Segment) :
  let out := format_output segs in
  Py.count_tokens false (transcript_text_of out)
  = (2 * length (utterances_of out)
     + list_sum (map (fun u => Py.count_tokens false (utt_text u)) (utterances_of out)))%nat.
Proof.
  intros out. subst out. rewrite format_output_closed.
  unfold transcript_text_of, utterances_of. simpl.
  rewrite count_tokens_join.
  generalize (map utterance_of (filter (fun s => has_text s = true) segs)).
  intros utts. induction utts as [|u us IH]; [reflexivity|].
  cbn [map list_sum length]. unfold line_of at 1.
  rewrite count_tokens_text_line.
  unfold list_sum in *. cbn [fold_right]. lia.
Qed.

End WordCount.

(* ===================================================================== *)
(** * format_output: the labels of the diarization engine                 *)
(* ===================================================================== *)

Section SpeakerLabels.

(** X5. The index of a segment labelled ["SPEAKER_00"] to ["SPEAKER_99"] is the
    number in the label. *)
Theorem speaker_num_of_label (n : nat) (seg : Segment) :
  (n < 100)%nat ->
  speaker_num_of (with_speaker (speaker_label n) seg) = Z.of_nat n.
Proof.
  intros Hn.
  assert (Hall : forallb
                   (fun k => speaker_num_of (with_speaker (speaker_label k) seg)
                             =? Z.of_nat k)
                   (seq 0 100) = true).
  { unfold speaker_num_of. cbn [seg_speaker with_speaker default]. vm_compute. reflexivity. }
  rewrite forallb_forall in Hall.
  apply Z.eqb_eq, Hall, in_seq. lia.
Qed.

Lemma speaker_num_of_label_witness :
  speaker_num_of (with_speaker (speaker_label 7) segment_0_10) = 7.
Proof. apply (speaker_num_of_label 7 segment_0_10). lia. Defined.

End SpeakerLabels.

(* ===================================================================== *)
(** * diarize: further properties                                         *)
(* ===================================================================== *)

Section DiarizeMore.

Variable ext : Externals.

Lemma pipeline_runs_snoc (t : list Event) (e : Event) :
  pipeline_runs (t ++ [e])
  = pipeline_runs t ++ (if is_pipeline_run e then [e] else []).
Proof.
  unfold pipeline_runs. rewrite filter_app, filter_cons, filter_nil.
  destruct (is_pipeline_run e); reflexivity.
Qed.

(** X6. In a configured run the pipeline is called exactly once, whatever it
    answers, and [diarize] returns; the speaker-count hint is passed on when
    it is a positive integer and left out otherwise. *)
Theorem diarize_forwards_hint (wav : string) (l : loc) (segments : list loc)
    (ns : option Z) (w : World) (token : string) (model : string -> option Z -> Result (list Turn)) :
  w_environ w !! "HF_TOKEN" = Some token ->
  Py.truthy token = true ->
  _diarize_model w = Some model \/
    (_diarize_model w = None /\ Pipeline_from_pretrained ext token = Ok (Some model)) ->
  exists w',
    diarize ext wav (l :: segments) ns w = (Ok (l :: segments), w') /\
    pipeline_runs (w_trace w')
    = pipeline_runs (w_trace w)
      ++ [EvPipelineRun wav
            match ns with
            | Some n => if decide (0 < n) then Some n else None
            | None => None
            end].
Proof.
  intros Henv Htok Hmodel.
  assert (Hk : kwargs_of ns
               = match ns with
                 | Some n => if decide (0 < n) then Some n else None
                 | None => None
                 end).
  { destruct ns as [n|]; [|reflexivity]. unfold kwargs_of.
    destruct (decide (0 < n)) as [Hn|Hn].
    - apply Z.ltb_lt in Hn. by rewrite Hn.
    - apply Z.ltb_nlt in Hn. by rewrite Hn. }
  rewrite <- Hk.
  unfold diarize, fill_diarize_model. run_m.
  rewrite Henv. cbn [Py.truthy_opt]. rewrite Htok. cbn [negb default].
  destruct Hmodel as [Hc|[Hc Hl]]; rewrite Hc.
  - cbn. rewrite Hc.
    destruct (model wav (kwargs_of ns)); cbn; eexists; (split; [reflexivity|]);
      cbn; by rewrite pipeline_runs_snoc.
  - cbn. rewrite Hl. cbn.
    destruct (model wav (kwargs_of ns)); cbn; eexists; (split; [reflexivity|]);
      cbn; by rewrite !pipeline_runs_snoc, app_nil_r.
Qed.

(** The outcomes of a call of [diarize] that returns. *)
Lemma diarize_ok_cases (wav : string) (segments : list loc) (ns : option Z)
    (w w' : World) (r : list loc) :
  diarize ext wav segments ns w = (Ok r, w') ->
  r = segments /\
  ((segments = [] /\ w' = w) \/
   w_heap w' = assign_default segments (w_heap w) \/
   exists (model : string -> option Z -> Result (list Turn)) turns,
     (_diarize_model w = Some model \/
      Pipeline_from_pretrained ext (default "" (w_environ w !! "HF_TOKEN")) = Ok (Some model)) /\
     model wav (kwargs_of ns) = Ok turns /\
     w_heap w' = assign_by_overlap turns segments (w_heap w)).
Proof.
  destruct segments as [|l0 segments].
  { intros [= <- <-]. split; [reflexivity|]. left. by split. }
  unfold diarize, fill_diarize_model. run_m.
  destruct (Py.truthy_opt (w_environ w !! "HF_TOKEN")); cbn [negb].
  2:{ intros [= <- <-]. split; [reflexivity|]. right; left. reflexivity. }
  destruct (_diarize_model w) as [model|] eqn:Hc.
  - cbn. rewrite Hc.
    destruct (model wav (kwargs_of ns)) as [turns|e] eqn:Hrun; cbn;
      intros [= <- <-]; (split; [reflexivity|]).
    + right; right. exists model, turns. split; [by left|]. by split.
    + right; left. reflexivity.
  - cbn.
    destruct (Pipeline_from_pretrained ext (default "" (w_environ w !! "HF_TOKEN")))
      as [[model|]|e] eqn:Hl; cbn.
    + destruct (model wav (kwargs_of ns)) as [turns|e] eqn:Hrun; cbn;
        intros [= <- <-]; (split; [reflexivity|]).
      * right; right. exists model, turns. split; [by right|]. by split.
      * right; left. reflexivity.
    + intros [= <- <-]. split; [reflexivity|]. right; left. reflexivity.
    + discriminate.
Qed.

Lemma overlap_dichotomy (s e : Q) (turns : list Turn) :
  (forall t, t ∈ turns -> (overlap s e t == 0)%Q) \/
  (exists t, t ∈ turns /\ (0 < overlap s e t)%Q).
Proof.
  induction turns as [|t turns IH].
  - left. intros t Hin. by apply not_elem_of_nil in Hin.
  - destruct (Qlt_le_dec 0 (overlap s e t)) as [Hpos|Hle].
    + right. exists t. split; [apply list_elem_of_here | exact Hpos].
    + destruct IH as [Hall|(t' & Hin & Hpos)].
      * left. intros t' [->|Hin]%elem_of_cons; [|by apply Hall].
        pose proof (overlap_nonneg s e t). lra.
      * right. exists t'. split; [by apply list_elem_of_further | exact Hpos].
Qed.

(** X7. When [diarize] returns, it returns the list it was given, and every
    segment of the list has a label: ["SPEAKER_00"] or the label of one of
    the turns that the pipeline answered. *)
Theorem diarize_labels_every_segment (wav : string) (segments : list loc)
    (ns : option Z) (w w' : World) (r : list loc) :
  diarize ext wav segments ns w = (Ok r, w') ->
  r = segments /\
  forall (l : loc) (seg : Segment),
    l ∈ segments -> w_heap w !! l = Some seg ->
    exists label,
      w_heap w' !! l = Some (with_speaker label seg) /\
      (label = "SPEAKER_00" \/
       exists (model : string -> option Z -> Result (list Turn)) turns t,
         (_diarize_model w = Some model \/
          Pipeline_from_pretrained ext (default "" (w_environ w !! "HF_TOKEN"))
          = Ok (Some model)) /\
         model wav (kwargs_of ns) = Ok turns /\
         t ∈ turns /\ turn_speaker t = label).
Proof.
  intros Hrun. destruct (diarize_ok_cases _ _ _ _ _ _ Hrun) as [-> Hcases].
  split; [reflexivity|]. intros l seg Hin Hseg.
  destruct Hcases as [[-> _]|[Hh|(model & turns & Hm & Hturns & Hh)]].
  - by apply not_elem_of_nil in Hin.
  - exists DEFAULT_SPEAKER. split; [|by left].
    rewrite Hh, assign_default_lookup, decide_True by exact Hin. by rewrite Hseg.
  - exists (speaker_for seg turns). split.
    { rewrite Hh, assign_by_overlap_lookup, decide_True by exact Hin. by rewrite Hseg. }
    destruct (speaker_for_spec seg turns) as [Hzero Hmax].
    destruct (overlap_dichotomy (interval_start seg) (interval_end seg) turns)
      as [Hall|Hpos].
    + left. by apply Hzero.
    + right. destruct (Hmax Hpos) as [(t & Ht & Hk & _) _].
      exists model, turns, t. by repeat split.
Qed.

(** X8. A pipeline that cannot be called or that raises costs the speakers, not
    the job: when the loader answers [None], or when the call of the
    pipeline raises, [diarize] returns the segments, all of them labelled
    ["SPEAKER_00"]. *)
Theorem diarize_absorbs_pipeline_failures (wav : string) (segments : list loc)
    (ns : option Z) (w : World) (token : string) :
  w_environ w !! "HF_TOKEN" = Some token ->
  Py.truthy token = true ->
  (_diarize_model w = None /\ Pipeline_from_pretrained ext token = Ok None) \/
  (exists (model : string -> option Z -> Result (list Turn)) e,
     (_diarize_model w = Some model \/
      (_diarize_model w = None /\ Pipeline_from_pretrained ext token = Ok (Some model))) /\
     model wav (kwargs_of ns) = Raise e) ->
  exists w',
    diarize ext wav segments ns w = (Ok segments, w') /\
    forall (l : loc) (seg : Segment),
      l ∈ segments -> w_heap w !! l = Some seg ->
      w_heap w' !! l = Some (with_speaker "SPEAKER_00" seg).
Proof.
  intros Henv Htok Hfail.
  destruct segments as [|l0 segments].
  { exists w. split; [reflexivity|]. intros l seg Hin. by apply not_elem_of_nil in Hin. }
  assert (Hlook : forall w0, w_heap w0 = assign_default (l0 :: segments) (w_heap w) ->
            forall l seg, l ∈ l0 :: segments -> w_heap w !! l = Some seg ->
            w_heap w0 !! l = Some (with_speaker "SPEAKER_00" seg)).
  { intros w0 Hw0 l seg Hin Hseg.
    rewrite Hw0, assign_default_lookup, decide_True by exact Hin.
    rewrite Hseg. reflexivity. }
  unfold diarize, fill_diarize_model. run_m.
  rewrite Henv. cbn [Py.truthy_opt]. rewrite Htok. cbn [negb default].
  destruct Hfail as [[Hc Hl]|(model & e & [Hc|[Hc Hl]] & Hrun)]; rewrite Hc.
  - cbn. rewrite Hl. cbn. eexists. split; [reflexivity|]. by apply Hlook.
  - cbn. rewrite Hc, Hrun. cbn. eexists. split; [reflexivity|]. by apply Hlook.
  - cbn. rewrite Hl. cbn. rewrite Hrun. cbn. eexists. split; [reflexivity|].
    by apply Hlook.
Qed.

End DiarizeMore.

Lemma diarize_forwards_hint_witness :
  exists w',
    diarize offline "a.wav" [0%nat] (Some 2) two_speaker_world = (Ok [0%nat], w') /\
    pipeline_runs (w_trace w')
    = pipeline_runs (w_trace two_speaker_world) ++ [EvPipelineRun "a.wav" (Some 2)].
Proof.
  apply (diarize_forwards_hint offline "a.wav" 0%nat [] (Some 2) two_speaker_world
           "hf_abc" (fun _ _ => Ok [turn_A; turn_B])).
  - reflexivity.
  - reflexivity.
  - left. reflexivity.
Defined.

Lemma diarize_labels_every_segment_witness :
  exists label,
    w_heap (diarize offline "a.wav" [0%nat] None two_speaker_world).2 !! 0%nat
    = Some (with_speaker label segment_0_10).
Proof.
  destruct (diarize_labels_every_segment offline "a.wav" [0%nat] None two_speaker_world
              (diarize offline "a.wav" [0%nat] None two_speaker_world).2 [0%nat])
    as [_ H].
  - reflexivity.
  - destruct (H 0%nat segment_0_10) as (label & Hl & _).
    + apply list_elem_of_here.
    + reflexivity.
    + by exists label.
Defined.

Lemma diarize_absorbs_pipeline_failures_witness :
  exists w',
    diarize online "a.wav" [0%nat] None
      (set_diarize_model (Some (fun _ _ => Raise (Exception "out of memory")))
         (set_heap [segment_0_10] (with_token "hf_abc" empty_world)))
    = (Ok [0%nat], w') /\
    forall (l : loc) (seg : Segment),
      l ∈ [0%nat] -> [segment_0_10] !! l = Some seg ->
      w_heap w' !! l = Some (with_speaker "SPEAKER_00" seg).
Proof.
  apply (diarize_absorbs_pipeline_failures online "a.wav" [0%nat] None
           (set_diarize_model (Some (fun _ _ => Raise (Exception "out of memory")))
              (set_heap [segment_0_10] (with_token "hf_abc" empty_world)))
           "hf_abc").
  - reflexivity.
  - reflexivity.
  - right. exists (fun _ _ => Raise (Exception "out of memory")), (Exception "out of memory").
    split; [left|]; reflexivity.
Defined.

(* ===================================================================== *)
(** * diarize: which speaker wins a tie                                   *)
(* ===================================================================== *)

Section TieBreak.

Variables seg_start seg_end : Q.







End TieBreak.

Section TieBreakProperty.


End TieBreakProperty.


(* ===================================================================== *)
(** * transcribe: further properties                                      *)
(* ===================================================================== *)

Section TranscribeMore.

Variable ext : Externals.

Lemma contents_alloc (h segs : list Segment) :
  omap (fun l => (h ++ segs) !! l) (seq (length h) (length segs)) = segs.
Proof.
  revert h. induction segs as [|x segs IH]; intros h; [reflexivity|].
  cbn [length seq omap list_omap].
  rewrite lookup_app_r by lia. rewrite Nat.sub_diag. cbn [lookup list_lookup].
  f_equal.
  rewrite (cons_middle x h segs), app_assoc.
  specialize (IH (h ++ [x])). rewrite length_app in IH. cbn [length] in IH.
  rewrite Nat.add_1_r in IH. exact IH.
Qed.

(** What a call of [transcribe] that returns has done. *)
Lemma transcribe_ok_inv (wav model_size : string) (language : option string)
    (w w' : World) (locs : list loc) (lang : string) :
  transcribe ext wav model_size language w = (Ok (locs, lang), w') ->
  exists (model : string -> option string -> Result TranscribeResult) res,
    (_model_cache w !! default model_size (model_map !! model_size) = Some model \/
     (_model_cache w !! default model_size (model_map !! model_size) = None /\
      whisper_load_model ext (default model_size (model_map !! model_size)) = Ok model)) /\
    model wav (if Py.truthy_opt language then language else None) = Ok res /\
    _model_cache w' !! default model_size (model_map !! model_size) = Some model /\
    lang = match res_language res with
           | Some l => l
           | None => if Py.truthy_opt language then default "en" language else "en"
           end /\
    locs = match default [] (res_segments res) with
           | [] => []
           | _ => seq (length (w_heap w)) (length (default [] (res_segments res)))
           end /\
    w_heap w' = w_heap w ++ default [] (res_segments res).
Proof.
  unfold transcribe, fill_model_cache. run_m. cbv zeta.
  generalize (default model_size (model_map !! model_size)). intros name.
  destruct (_model_cache w !! name) as [model|] eqn:Hc.
  - cbn -[lookup insert]. rewrite Hc. cbn -[lookup insert].
    destruct (model wav _) as [res|e] eqn:Hrun; [|discriminate].
    destruct (default [] (res_segments res)) as [|s0 segs] eqn:Hsegs;
      cbn -[lookup insert]; intros [= <- <- <-];
      exists model, res; rewrite ?Hsegs; repeat split; auto.
    by rewrite app_nil_r.
  - cbn -[lookup insert].
    destruct (whisper_load_model ext name) as [model|e] eqn:Hl; [|discriminate].
    cbn -[lookup insert]. rewrite lookup_insert_eq. cbn -[lookup insert].
    destruct (model wav _) as [res|e] eqn:Hrun; [|discriminate].
    destruct (default [] (res_segments res)) as [|s0 segs] eqn:Hsegs;
      cbn -[lookup insert]; intros [= <- <- <-];
      exists model, res; rewrite ?Hsegs; repeat split; auto;
      try apply lookup_insert_eq.
    by rewrite app_nil_r.
Qed.

(** X10. A call of [transcribe] that returns gives the segments of the engine,
    in their order, as new objects: the addresses it returns are distinct and
    were not in use, they hold the segments of the engine's result, and
    every object that existed before is unchanged. *)
Theorem transcribe_returns_engine_segments (wav model_size : string)
    (language : option string) (w w' : World) (locs : list loc) (lang : string) :
  transcribe ext wav model_size language w = (Ok (locs, lang), w') ->
  exists (model : string -> option string -> Result TranscribeResult) res,
    _model_cache w' !! default model_size (model_map !! model_size) = Some model /\
    model wav (if Py.truthy_opt language then language else None) = Ok res /\
    contents locs w' = (Ok (default [] (res_segments res)), w') /\
    NoDup locs /\
    (forall l, l ∈ locs -> w_heap w !! l = None) /\
    (forall l seg, w_heap w !! l = Some seg -> w_heap w' !! l = Some seg).
Proof.
  intros Hrun.
  destruct (transcribe_ok_inv _ _ _ _ _ _ _ Hrun)
    as (model & res & _ & Hres & Hcache & _ & Hlocs & Hheap).
  exists model, res. split; [exact Hcache|]. split; [exact Hres|].
  assert (Hseq : locs = seq (length (w_heap w)) (length (default [] (res_segments res)))).
  { rewrite Hlocs. by destruct (default [] (res_segments res)). }
  split; [|split; [|split]].
  - unfold contents. rewrite Hheap, Hseq, contents_alloc. reflexivity.
  - rewrite Hseq. apply NoDup_seq.
  - intros l Hl. rewrite Hseq in Hl. apply elem_of_seq in Hl.
    apply lookup_ge_None. lia.
  - intros l seg Hseg. rewrite Hheap. by apply lookup_app_l_Some.
Qed.

(** X11. The language that [transcribe] returns is the one the engine reports;
    when the engine reports none, it is the language the caller gave. *)
Theorem transcribe_language (wav model_size : string) (language : option string)
    (w w' : World) (locs : list loc) (lang : string) :
  transcribe ext wav model_size language w = (Ok (locs, lang), w') ->
  exists (model : string -> option string -> Result TranscribeResult) res,
    _model_cache w' !! default model_size (model_map !! model_size) = Some model /\
    model wav (if Py.truthy_opt language then language else None) = Ok res /\
    (forall l, res_language res = Some l -> lang = l) /\
    (forall l, res_language res = None -> language = Some l -> Py.truthy l = true ->
               lang = l).
Proof.
  intros Hrun.
  destruct (transcribe_ok_inv _ _ _ _ _ _ _ Hrun)
    as (model & res & _ & Hres & Hcache & Hlang & _ & _).
  exists model, res. split; [exact Hcache|]. split; [exact Hres|]. split.
  - intros l Hl. by rewrite Hlang, Hl.
  - intros l Hnone -> Hl. rewrite Hlang, Hnone. cbn. by rewrite Hl.
Qed.

(** With the model in the cache [transcribe] calls no loader. *)
Lemma transcribe_cached_no_load (wav model_size : string) (language : option string)
    (w : World) (model : string -> option string -> Result TranscribeResult) :
  _model_cache w !! default model_size (model_map !! model_size) = Some model ->
  loads (w_trace (transcribe ext wav model_size language w).2) = loads (w_trace w).
Proof.
  unfold transcribe, fill_model_cache. run_m. cbv zeta.
  generalize (default model_size (model_map !! model_size)). intros name Hc.
  rewrite Hc. cbn -[lookup insert loads]. rewrite Hc. cbn -[lookup insert loads].
  destruct (model wav _) as [res|e]; cbn -[lookup insert loads].
  - destruct (default [] (res_segments res)); cbn -[lookup insert loads];
      rewrite loads_snoc; cbn; lia.
  - rewrite loads_snoc. cbn. lia.
Qed.

(** X12. The model is loaded once per resolved name: after a call that returned,
    a call for the same size or for another name of the same model
    (["large-v3"], ["large-v2"] and ["large"] are one model) loads nothing. *)
Theorem transcribe_reuses_cached_model (wav1 size1 wav2 size2 : string)
    (lang1 lang2 : option string) (w w1 : World) (r1 : list loc * string) :
  transcribe ext wav1 size1 lang1 w = (Ok r1, w1) ->
  default size2 (model_map !! size2) = default size1 (model_map !! size1) ->
  loads (w_trace (transcribe ext wav2 size2 lang2 w1).2) = loads (w_trace w1).
Proof.
  destruct r1 as [locs lang]. intros Hrun Hname.
  destruct (transcribe_ok_inv _ _ _ _ _ _ _ Hrun)
    as (model & res & _ & _ & Hcache & _).
  apply (transcribe_cached_no_load wav2 size2 lang2 w1 model).
  by rewrite Hname.
Qed.

(** X13. A call of [transcribe] that raises has added no segment object, and
    has put into the cache nothing but a model that the loader returned for
    the requested name. *)
Theorem transcribe_failure_leaves_store (wav model_size : string)
    (language : option string) (w w' : World) (e : Exn) :
  transcribe ext wav model_size language w = (Raise e, w') ->
  w_heap w' = w_heap w /\
  forall name (m : string -> option string -> Result TranscribeResult),
    _model_cache w' !! name = Some m ->
    _model_cache w !! name = Some m \/
    (name = default model_size (model_map !! model_size) /\
     whisper_load_model ext name = Ok m).
Proof.
  unfold transcribe, fill_model_cache. run_m. cbv zeta.
  generalize (default model_size (model_map !! model_size)). intros name0.
  destruct (_model_cache w !! name0) as [model|] eqn:Hc.
  - cbn -[lookup insert]. rewrite Hc. cbn -[lookup insert].
    destruct (model wav _) as [res|e0]; cbn -[lookup insert].
    + destruct (default [] (res_segments res)); discriminate.
    + intros [= <- <-]. split; [reflexivity|]. intros name m Hm. by left.
  - cbn -[lookup insert].
    destruct (whisper_load_model ext name0) as [model|e0] eqn:Hl; cbn -[lookup insert].
    + rewrite lookup_insert_eq. cbn -[lookup insert].
      destruct (model wav _) as [res|e1]; cbn -[lookup insert].
      * destruct (default [] (res_segments res)); discriminate.
      * intros [= <- <-]. split; [reflexivity|]. intros name m Hm.
        cbn -[lookup insert] in Hm.
        destruct (decide (name0 = name)) as [<-|Hne].
        -- rewrite lookup_insert_eq in Hm. injection Hm as <-. right. by split.
        -- rewrite lookup_insert_ne in Hm by exact Hne. by left.
    + intros [= <- <-]. split; [reflexivity|]. intros name m Hm. by left.
Qed.

End TranscribeMore.

Lemma transcribe_returns_engine_segments_witness :
  let w' := (transcribe pipeline_unavailable "a.wav" "medium" None empty_world).2 in
  exists (model : string -> option string -> Result TranscribeResult) res,
    _model_cache w' !! default "medium" (model_map !! "medium") = Some model /\
    model "a.wav" (if Py.truthy_opt None then None else None) = Ok res /\
    contents [0; 1; 2]%nat w' = (Ok (default [] (res_segments res)), w') /\
    NoDup [0; 1; 2]%nat /\
    (forall l, l ∈ [0; 1; 2]%nat -> w_heap empty_world !! l = None) /\
    (forall l seg, w_heap empty_world !! l = Some seg -> w_heap w' !! l = Some seg).
Proof.
  apply (transcribe_returns_engine_segments pipeline_unavailable "a.wav" "medium" None
           empty_world
           (transcribe pipeline_unavailable "a.wav" "medium" None empty_world).2
           [0; 1; 2]%nat "en").
  reflexivity.
Defined.

Lemma transcribe_language_witness :
  let w' := (transcribe online "a.wav" "small" (Some "fr") empty_world).2 in
  exists (model : string -> option string -> Result TranscribeResult) res,
    _model_cache w' !! default "small" (model_map !! "small") = Some model /\
    model "a.wav" (if Py.truthy_opt (Some "fr") then Some "fr" else None) = Ok res /\
    (forall l, res_language res = Some l -> "fr" = l) /\
    (forall l, res_language res = None -> Some "fr" = Some l -> Py.truthy l = true ->
               "fr" = l).
Proof.
  apply (transcribe_language online "a.wav" "small" (Some "fr") empty_world
           (transcribe online "a.wav" "small" (Some "fr") empty_world).2 [] "fr").
  reflexivity.
Defined.

Lemma transcribe_reuses_cached_model_witness :
  let w1 := (transcribe online "a.wav" "large-v3" None empty_world).2 in
  loads (w_trace w1) = 1%nat /\
  loads (w_trace (transcribe online "b.wav" "large-v2" (Some "en") w1).2)
  = loads (w_trace w1).
Proof.
  split; [reflexivity|].
  apply (transcribe_reuses_cached_model online "a.wav" "large-v3" "b.wav" "large-v2"
           None (Some "en") empty_world
           (transcribe online "a.wav" "large-v3" None empty_world).2 ([], "en"));
    reflexivity.
Defined.

Lemma transcribe_failure_leaves_store_witness :
  let w' := (transcribe offline "a.wav" "medium" None one_segment_world).2 in
  w_heap w' = w_heap one_segment_world /\
  forall name (m : string -> option string -> Result TranscribeResult),
    _model_cache w' !! name = Some m ->
    _model_cache one_segment_world !! name = Some m \/
    (name = default "medium" (model_map !! "medium") /\
     whisper_load_model offline name = Ok m).
Proof.
  apply (transcribe_failure_leaves_store offline "a.wav" "medium" None
           one_segment_world
           (transcribe offline "a.wav" "medium" None one_segment_world).2
           (Exception "no model")).
  reflexivity.
Defined.


(* ===================================================================== *)
(** * download.py: storage references                                     *)
(* ===================================================================== *)

Section StorageReferences.

Lemma span_until_app (c : ascii) (x y : string) :
  has_char c x = false ->
  Download.span_until c (x +:+ String c y) = (x, String c y).
Proof.
  induction x as [|a x IH]; simpl; intros Hx.
  - destruct (ascii_dec c c); [reflexivity | congruence].
  - destruct (ascii_dec a c); [discriminate|]. by rewrite (IH Hx).
Qed.

Lemma span_until_none (c : ascii) (x : string) :
  has_char c x = false -> Download.span_until c x = (x, "").
Proof.
  induction x as [|a x IH]; simpl; intros Hx; [reflexivity|].
  destruct (ascii_dec a c); [discriminate|]. by rewrite (IH Hx).
Qed.

Lemma span_until_spec (c : ascii) (s a b : string) :
  Download.span_until c s = (a, b) ->
  s = a +:+ b /\ has_char c a = false /\ (b = "" \/ exists b', b = String c b').
Proof.
  revert a b. induction s as [|x s IH]; simpl; intros a b.
  - intros [= <- <-]. split; [reflexivity|]. split; [reflexivity | by left].
  - destruct (ascii_dec x c) as [->|Hne].
    + intros [= <- <-]. split; [reflexivity|]. split; [reflexivity|]. right. by eexists.
    + destruct (Download.span_until c s) as [run rest].
      intros [= <- <-]. destruct (IH run rest eq_refl) as (-> & Hrun & Hrest).
      split; [reflexivity|]. split; [|exact Hrest].
      simpl. destruct (ascii_dec x c); [congruence | exact Hrun].
Qed.

Lemma strip_prefix_spec (p s r : string) :
  Download.strip_prefix p s = Some r -> s = p +:+ r.
Proof.
  revert s. induction p as [|a p IH]; intros s; simpl.
  - by intros [= ->].
  - destruct s as [|b s]; [discriminate|].
    destruct (ascii_dec a b) as [->|]; [|discriminate].
    intros H. by rewrite (IH s H).
Qed.

Lemma strip_prefix_app (p s : string) : Download.strip_prefix p (p +:+ s) = Some s.
Proof.
  induction p as [|a p IH]; simpl; [reflexivity|].
  destruct (ascii_dec a a); [exact IH | congruence].
Qed.

Lemma span_until_app_literal (c : ascii) (x p y : string) :
  has_char c x = false ->
  Download.span_until c (x +:+ String c p +:+ y) = (x, String c p +:+ y).
Proof. intros Hx. exact (span_until_app c x (p +:+ y) Hx). Qed.

(** X14. A storage reference is read back: from the text of a reference to a
    bucket and a region without dots and to a key of one line, over http or
    https and with either separator after [s3], [_parse_s3_url] returns the
    bucket and the key. *)
Theorem parse_s3_url_of_reference (https dash : bool) (bucket region key : string) :
  bucket <> "" -> has_char "." bucket = false ->
  region <> "" -> has_char "." region = false ->
  key <> "" -> has_char newline_char key = false ->
  Download._parse_s3_url (s3_url https bucket dash region key) = Some (bucket, key).
Proof.
  intros Hb Hbd Hr Hrd Hk Hkn.
  unfold s3_url, Download._parse_s3_url.
  rewrite strip_prefix_app. cbv beta iota zeta.
  assert (Hscheme : forall t,
            match (if https then "s" else "") +:+ "://" +:+ t with
            | String "s" r => r
            | _ => (if https then "s" else "") +:+ "://" +:+ t
            end = "://" +:+ t) by (destruct https; reflexivity).
  rewrite Hscheme, strip_prefix_app. cbv beta iota zeta.
  rewrite span_until_app_literal by exact Hbd. rewrite strip_prefix_app.
  destruct bucket as [|b0 bucket]; [congruence|].
  assert (Hsep : forall t, exists sep,
            (if dash then "-" else ".") +:+ t = String sep t /\
            bool_decide (sep = "."%char) || bool_decide (sep = "-"%char) = true).
  { intros t. destruct dash; eexists; split; reflexivity. }
  destruct (Hsep (region +:+ ".amazonaws.com/" +:+ key)) as (sep & -> & ->).
  rewrite span_until_app_literal by exact Hrd. rewrite strip_prefix_app.
  destruct region as [|g0 region]; [congruence|].
  rewrite span_until_none by exact Hkn.
  destruct key; [congruence | reflexivity].
Qed.

(** X15. Only a storage reference is taken for one: when [_parse_s3_url] returns
    a bucket and a key, the address is a reference to them, possibly
    followed by further lines. *)
Theorem parse_s3_url_sound (url bucket key : string) :
  Download._parse_s3_url url = Some (bucket, key) ->
  bucket <> "" /\ has_char "." bucket = false /\
  key <> "" /\ has_char newline_char key = false /\
  exists https dash region rest,
    region <> "" /\ has_char "." region = false /\
    (rest = "" \/ exists rest', rest = String newline_char rest') /\
    url = s3_url https bucket dash region key +:+ rest.
Proof.
  unfold Download._parse_s3_url.
  destruct (Download.strip_prefix "http" url) as [r0|] eqn:H0; [|discriminate].
  apply strip_prefix_spec in H0. cbv zeta.
  destruct (Download.strip_prefix "://" _) as [r2|] eqn:H2; [|discriminate].
  apply strip_prefix_spec in H2.
  destruct (Download.span_until "." r2) as [b r3] eqn:H3.
  apply span_until_spec in H3 as (Hr2 & Hb & _).
  destruct b as [|b0 b]; [discriminate|].
  destruct (Download.strip_prefix ".s3" r3) as [[|sep r4]|] eqn:H4; try discriminate.
  apply strip_prefix_spec in H4.
  destruct (bool_decide (sep = "."%char) || bool_decide (sep = "-"%char)) eqn:Hsep;
    [|discriminate].
  destruct (Download.span_until "." r4) as [region r5] eqn:H5.
  apply span_until_spec in H5 as (Hr4 & Hreg & _).
  destruct region as [|g0 region]; [discriminate|].
  destruct (Download.strip_prefix ".amazonaws.com/" r5) as [r6|] eqn:H6; [|discriminate].
  apply strip_prefix_spec in H6.
  destruct (Download.span_until newline_char r6) as [k rest] eqn:H7.
  apply span_until_spec in H7 as (Hr6 & Hk & Hrest).
  destruct k as [|k0 k]; [discriminate|].
  intros [= <- <-].
  split; [discriminate|]. split; [exact Hb|]. split; [discriminate|]. split; [exact Hk|].
  assert (Hdash : exists dash : bool, String sep "" = (if dash then "-" else ".")%string).
  { apply orb_true_iff in Hsep as [Hs|Hs]; apply bool_decide_eq_true in Hs; subst sep.
    - by exists false.
    - by exists true. }
  destruct Hdash as [dash Hdash].
  assert (Hhttps : exists https : bool, r0 = (if https then "s" else "") +:+ "://" +:+ r2).
  { destruct r0 as [|c r0].
    - simpl in H2. discriminate.
    - destruct (ascii_dec c "s") as [->|Hc].
      + exists true. simpl in H2 |- *. by rewrite H2.
      + exists false. simpl.
        assert (match String c r0 with String "s" r => r | _ => String c r0 end
                = String c r0) as Hm.
        { destruct c as [[] [] [] [] [] [] [] []]; try reflexivity. congruence. }
        rewrite Hm in H2. exact H2. }
  destruct Hhttps as [https Hhttps].
  exists https, dash, (String g0 region), rest.
  split; [discriminate|]. split; [exact Hreg|]. split; [exact Hrest|].
  unfold s3_url. rewrite H0, Hhttps, Hr2, H4, Hr4, H6, Hr6, <- Hdash.
  generalize (String k0 k), (String g0 region), (String b0 b).
  clear. intros key region bucket.
  assert (Happ : forall a b c : string, (a +:+ b) +:+ c = a +:+ (b +:+ c)).
  { intros a b' c. induction a as [|x a IH]; simpl; [reflexivity | by rewrite IH]. }
  simpl. rewrite !Happ. simpl. destruct https; simpl; rewrite ?Happ; simpl;
    rewrite ?Happ; reflexivity.
Qed.


Lemma append_assoc (a b c : string) : (a +:+ b) +:+ c = a +:+ (b +:+ c).
Proof. induction a as [|x a IH]; simpl; [reflexivity | by rewrite IH]. Qed.

Lemma append_nil_r (a : string) : a +:+ "" = a.
Proof. induction a as [|x a IH]; simpl; [reflexivity | by rewrite IH]. Qed.

Lemma length_append (a b : string) :
  String.length (a +:+ b) = (String.length a + String.length b)%nat.
Proof. induction a as [|x a IH]; simpl; [reflexivity | by rewrite IH]. Qed.

Lemma write_chunks_spec (chunks : list string) (written : string) (total_bytes : Z) :
  Download.write_chunks chunks written total_bytes
  = (written +:+ concat_strings chunks,
     total_bytes + Z.of_nat (String.length (concat_strings chunks))).
Proof.
  revert written total_bytes. induction chunks as [|chunk rest IH]; intros written total_bytes.
  - simpl. rewrite append_nil_r. f_equal. lia.
  - cbn [Download.write_chunks concat_strings]. destruct chunk as [|c chunk].
    + cbn [Py.truthy]. rewrite IH. reflexivity.
    + cbn [Py.truthy]. rewrite IH, append_assoc, (length_append (String c chunk)).
      f_equal. lia.
Qed.

(** X16. The file of an HTTP download: when [download_file] opened the output
    file, the address was no storage reference, the answer carried no error
    status, the file holds the chunks of the answer in their order, and the
    result is the length of the file, unless the stream broke off, whose
    exception is then the outcome. *)
Theorem download_file_http_writes_what_it_counts
    (net : Download.Network) (url output_path : string)
    (outcome : Result Z) (written : string) :
  Download.download_file net url output_path = Download.ViaHttp outcome (Some written) ->
  Download._parse_s3_url url = None /\
  exists response,
    Download.requests_get net url = Ok response /\
    ~ (400 <= Download.status_code response < 600) /\
    written = concat_strings (Download.body_chunks response) /\
    match Download.stream_error response with
    | None => outcome = Ok (Z.of_nat (String.length written))
    | Some e => outcome = Raise e
    end.
Proof.
  unfold Download.download_file.
  destruct (Download._parse_s3_url url) as [[bucket key]|]; [discriminate|].
  destruct (Download.requests_get net url) as [response|e]; [|discriminate].
  unfold Download.raise_for_status.
  destruct ((400 <=? Download.status_code response) && (Download.status_code response <? 600))
    eqn:Hstatus; [discriminate|].
  rewrite write_chunks_spec. cbn [String.append].
  intros H. split; [reflexivity|]. exists response. split; [reflexivity|].
  split; [apply andb_false_iff in Hstatus; lia|].
  destruct (Download.stream_error response) as [e|]; injection H as <- <-;
    (split; [reflexivity|]); [reflexivity | f_equal; lia].
Qed.

Lemma download_file_http_writes_what_it_counts_witness :
  Download.download_file (plain_network ["RIFF"; ""; "WAVE"]) "https://example.com/a.wav"
    "/tmp/r1_input.wav" = Download.ViaHttp (Ok 8) (Some "RIFFWAVE") /\
  (Download._parse_s3_url "https://example.com/a.wav" = None /\
   exists response,
     Download.requests_get (plain_network ["RIFF"; ""; "WAVE"]) "https://example.com/a.wav"
       = Ok response /\
     ~ (400 <= Download.status_code response < 600) /\
     "RIFFWAVE" = concat_strings (Download.body_chunks response) /\
     match Download.stream_error response with
     | None => Ok 8 = Ok (Z.of_nat (String.length "RIFFWAVE"))
     | Some e => Ok 8 = Raise e
     end).
Proof.
  split; [reflexivity|].
  exact (download_file_http_writes_what_it_counts
           (plain_network ["RIFF"; ""; "WAVE"]) "https://example.com/a.wav"
           "/tmp/r1_input.wav" (Ok 8) "RIFFWAVE" eq_refl).
Defined.

Lemma parse_s3_url_of_reference_witness :
  Download._parse_s3_url
    "https://use60-application.s3.eu-west-2.amazonaws.com/meeting-recordings/a/video.mp4"
  = Some ("use60-application", "meeting-recordings/a/video.mp4").
Proof.
  apply (parse_s3_url_of_reference true false "use60-application" "eu-west-2"
           "meeting-recordings/a/video.mp4"); (discriminate || reflexivity).
Defined.

Lemma parse_s3_url_sound_witness :
  Download._parse_s3_url "http://b.s3-us-east-1.amazonaws.com/k" = Some ("b", "k") /\
  ("b" <> "" /\ has_char "." "b" = false /\
   "k" <> "" /\ has_char newline_char "k" = false /\
   exists (https dash : bool) region rest,
     region <> "" /\ has_char "." region = false /\
     (rest = "" \/ exists rest', rest = String newline_char rest') /\
     "http://b.s3-us-east-1.amazonaws.com/k" = s3_url https "b" dash region "k" +:+ rest).
Proof.
  split; [reflexivity|].
  exact (parse_s3_url_sound "http://b.s3-us-east-1.amazonaws.com/k" "b" "k" eq_refl).
Defined.

End StorageReferences.

(* ===================================================================== *)
(** * handler.py: the course of a run                                     *)
(* ===================================================================== *)

Section HandlerCourse.

Variable ext : Externals.

(** The [try] block, stage by stage. *)
Lemma run_stages_unfold (event : JobEvent) (start_time : Q) (fr : Frame) :
  run_stages ext event start_time fr
  = let recording_id := ev_recording_id event in
    let audio_url := Py.or_else (ev_audio_url event) (ev_video_url event) in
    if negb (Py.truthy_opt audio_url)
    then (Raise (Exception "No audio_url or video_url provided"), fr)
    else
      match download_audio ext (default "" audio_url) recording_id (f_world fr) with
      | (Raise e, w1) => (Raise e, with_world w1 fr)
      | (Ok local_path, w1) =>
      match convert_to_wav ext local_path recording_id w1 with
      | (Raise e, w2) => (Raise e, with_world w2 fr)
      | (Ok wav_path, w2) =>
      match transcribe ext wav_path (default "medium" (ev_model_size event))
              (ev_language event) w2 with
      | (Raise e, w3) => (Raise e, with_world w3 fr)
      | (Ok (segments, detected_language), w3) =>
      match diarize ext wav_path segments (ev_num_speakers event) w3 with
      | (Raise e, w4) => (Raise e, with_world w4 fr)
      | (Ok diarized_segments, w4) =>
      let '(transcript_text, transcript_json, utterances) :=
        format_output (omap (fun l => w_heap w4 !! l) diarized_segments) in
      match get_audio_duration ext wav_path w4 with
      | (Raise e, w5) => (Raise e, with_world w5 fr)
      | (Ok duration_seconds, w5) =>
          (Ok tt,
           {| f_world := set_ticks (S (w_ticks w5)) w5;
              result :=
                success_result (result fr) transcript_text transcript_json utterances
                  duration_seconds detected_language
                  (Py.int_of_float (time_time ext (w_ticks w5) - start_time)%Q) |})
      end end end end end.
Proof.
  unfold run_stages. cbv zeta.
  destruct (negb (Py.truthy_opt (Py.or_else (ev_audio_url event) (ev_video_url event)))).
  { destruct fr; reflexivity. }
  unfold bind at 1. unfold ret at 1. cbn beta iota.
  rewrite bind_lift. unfold with_world.
  destruct (download_audio ext _ _ (f_world fr)) as [[local_path|e] w1]; [|reflexivity].
  rewrite bind_lift. cbn [f_world result].
  destruct (convert_to_wav ext _ _ w1) as [[wav_path|e] w2]; [|reflexivity].
  rewrite bind_lift. cbn [f_world result].
  destruct (transcribe ext _ _ _ w2) as [[[segments language]|e] w3]; [|reflexivity].
  rewrite bind_lift. cbn [f_world result].
  destruct (diarize ext _ _ _ w3) as [[diarized|e] w4]; [|reflexivity].
  rewrite bind_lift. cbn [f_world result contents].
  destruct (format_output _) as [[text json] utts].
  rewrite bind_lift. cbn [f_world result].
  destruct (get_audio_duration ext _ w4) as [[duration|e] w5]; [|reflexivity].
  rewrite !bind_set_result. rewrite bind_lift.
  cbn [f_world result now set_result modify]. reflexivity.
Qed.

(** The whole of [process_transcription] in terms of its guarded [try]
    block, the cleanup and the callback. *)
Lemma process_transcription_unfold (event : JobEvent) (w : World) :
  let start_time := time_time ext (w_ticks w) in
  let out := try_except (run_stages ext event start_time) (on_exception ext start_time)
               {| f_world := set_ticks (S (w_ticks w)) w;
                  result := initial_result (ev_recording_id event) |} in
  let w2 := (cleanup_temp_files ext (ev_recording_id event) (f_world out.2)).2 in
  process_transcription ext event w
  = (Ok (result out.2),
     (_send_callback ext (ev_callback_url event) (ev_callback_secret event)
        (result out.2) w2).2).
Proof.
  intros start_time out w2.
  unfold process_transcription. cbv zeta.
  unfold bind at 1. cbn [now]. fold start_time.
  unfold in_frame, try_finally. unfold bind at 1.
  fold (initial_result (ev_recording_id event)).
  destruct (guarded_stages_spec ext event start_time (set_ticks (S (w_ticks w)) w))
    as (Hok & _ & _).
  fold out in Hok. fold out.
  destruct out as [r fr1] eqn:Eout. cbn [fst snd] in *. subst r.
  unfold finalize. rewrite bind_lift.
  destruct (cleanup_temp_files_run ext (ev_recording_id event) (f_world fr1))
    as (w2' & removed1 & removed2 & Hclean & _ & _).
  unfold w2. rewrite Hclean. cbn [snd].
  unfold bind at 1, get at 1. cbn [f_world result lift].
  destruct (send_callback_run ext (ev_callback_url event) (ev_callback_secret event)
              (result fr1) w2') as (w3 & Hsend & _ & _).
  unfold lift. cbn [f_world result]. rewrite Hsend. reflexivity.
Qed.

End HandlerCourse.

(* ===================================================================== *)
(** * download.py: what the cleanup removes                               *)
(* ===================================================================== *)

Section CleanupEffect.

Variable ext : Externals.

Lemma filter_iff_in {A} (P1 P2 : A -> Prop) `{!forall x, Decision (P1 x)}
    `{!forall x, Decision (P2 x)} (l : list A) :
  (forall x, x ∈ l -> P1 x <-> P2 x) -> filter P1 l = filter P2 l.
Proof.
  induction l as [|a l IH]; intros Hall; [reflexivity|].
  rewrite !filter_cons.
  assert (Ha : P1 a <-> P2 a) by (apply Hall, list_elem_of_here).
  rewrite IH by (intros x Hx; apply Hall, list_elem_of_further, Hx).
  destruct (decide (P1 a)), (decide (P2 a)); tauto || reflexivity.
Qed.

(** The inner loop on the directory: it returns, and the files left are
    those not listed or on which [os.remove] failed. *)
Lemma remove_paths_tmp (paths : list string) (w : World) :
  exists w',
    remove_paths ext paths w = (Ok tt, w') /\
    w_tmp w' = filter (fun f => bool_decide (f ∈ paths) && os_remove ext f = false)
                 (w_tmp w) /\
    w_heap w' = w_heap w /\ w_environ w' = w_environ w /\
    _model_cache w' = _model_cache w /\ _diarize_model w' = _diarize_model w.
Proof.
  revert w. induction paths as [|p paths IH]; intros w.
  - exists w. split; [reflexivity|]. split; [|done].
    induction (w_tmp w) as [|a l IHl]; [reflexivity|].
    rewrite filter_cons, decide_True; [by rewrite <- IHl|].
    rewrite bool_decide_eq_false_2; [reflexivity | apply not_elem_of_nil].
  - rewrite remove_paths_cons.
    destruct (os_remove ext p) eqn:Hp.
    + destruct (IH (set_tmp (filter (fun f => f <> p) (w_tmp w))
                      (set_trace (w_trace w ++ [EvRemove p]) w)))
        as (w' & Hrun & Htmp & Hrest).
      exists w'. split; [exact Hrun|]. split; [|exact Hrest].
      rewrite Htmp. cbn [w_tmp set_tmp]. rewrite list_filter_filter.
      apply list_filter_iff. intros f. split.
      * intros [Hf Hne]. apply andb_false_iff in Hf as [Hf|Hf].
        -- apply andb_false_iff. left. apply bool_decide_eq_false in Hf.
           apply bool_decide_eq_false. rewrite elem_of_cons. tauto.
        -- apply andb_false_iff. by right.
      * intros Hf. apply andb_false_iff in Hf as [Hf|Hf].
        -- apply bool_decide_eq_false in Hf. rewrite elem_of_cons in Hf. split.
           ++ apply andb_false_iff. left. apply bool_decide_eq_false. tauto.
           ++ intros ->. tauto.
        -- split; [apply andb_false_iff; by right | intros ->; congruence].
    + destruct (IH (set_trace (w_trace w ++ [EvRemove p]) w))
        as (w' & Hrun & Htmp & Hrest).
      exists w'. split; [exact Hrun|]. split; [|exact Hrest].
      rewrite Htmp. cbn [w_tmp set_trace].
      apply list_filter_iff. intros f. split.
      * intros Hf. apply andb_false_iff in Hf as [Hf|Hf].
        -- destruct (decide (f = p)) as [->|Hne].
           ++ apply andb_false_iff. by right.
           ++ apply andb_false_iff. left. apply bool_decide_eq_false in Hf.
              apply bool_decide_eq_false. rewrite elem_of_cons. tauto.
        -- apply andb_false_iff. by right.
      * intros Hf. apply andb_false_iff in Hf as [Hf|Hf].
        -- apply andb_false_iff. left. apply bool_decide_eq_false in Hf.
           apply bool_decide_eq_false. rewrite elem_of_cons in Hf. tauto.
        -- apply andb_false_iff. by right.
Qed.

(** The cleanup on the directory. *)
Lemma cleanup_temp_files_tmp (recording_id : string) (w : World) :
  exists w',
    cleanup_temp_files ext recording_id w = (Ok tt, w') /\
    w_tmp w' = filter (fun f => survives_cleanup ext recording_id f = true) (w_tmp w) /\
    w_heap w' = w_heap w /\ w_environ w' = w_environ w /\
    _model_cache w' = _model_cache w /\ _diarize_model w' = _diarize_model w.
Proof.
  unfold survives_cleanup, matches_cleanup.
  set (s1 := "/tmp/" +:+ recording_id +:+ "_input").
  set (s2 := "/tmp/" +:+ recording_id +:+ "_audio").
  unfold cleanup_temp_files. cbv zeta. cbn [fold_right]. fold s1 s2.
  run_m. cbn [modify].
  set (w1 := set_trace (w_trace w ++ [EvGlob (s1 +:+ "*")]) w).
  destruct (remove_paths_tmp (glob_star s1 (w_tmp w1)) w1)
    as (w2 & Hrun1 & Htmp1 & Hh1 & He1 & Hc1 & Hd1).
  rewrite Hrun1.
  set (w3 := set_trace (w_trace w2 ++ [EvGlob (s2 +:+ "*")]) w2).
  destruct (remove_paths_tmp (glob_star s2 (w_tmp w3)) w3)
    as (w4 & Hrun2 & Htmp2 & Hh2 & He2 & Hc2 & Hd2).
  rewrite Hrun2.
  exists w4. split; [reflexivity|].
  split;
    [|split; [rewrite Hh2; exact Hh1|]; split; [rewrite He2; exact He1|];
      split; [rewrite Hc2; exact Hc1 | rewrite Hd2; exact Hd1]].
  change (w_tmp w3) with (w_tmp w2) in Htmp2.
  change (w_tmp w1) with (w_tmp w) in Htmp1.
  rewrite Htmp2, Htmp1, list_filter_filter.
  apply filter_iff_in. intros f Hf.
  assert (H1 : bool_decide (f ∈ glob_star s1 (w_tmp w)) = String.prefix s1 f).
  { unfold glob_star. destruct (String.prefix s1 f) eqn:Hp.
    - apply bool_decide_eq_true, list_elem_of_filter. by split.
    - apply bool_decide_eq_false. intros [Hp' _]%list_elem_of_filter. congruence. }
  rewrite H1.
  destruct (os_remove ext f) eqn:Hrm; [|rewrite !andb_false_r; cbn [negb]; tauto].
  rewrite !andb_true_r.
  destruct (String.prefix s1 f) eqn:Hp1; cbn [orb negb].
  - split; [intros [_ ?]; discriminate | discriminate].
  - destruct (String.prefix s2 f) eqn:Hp2; cbn [negb].
    + split; [|discriminate]. intros [Hno _]. apply bool_decide_eq_false in Hno.
      exfalso. apply Hno. unfold glob_star. apply list_elem_of_filter.
      split; [exact Hp2|].
      apply list_elem_of_filter. split; [|exact Hf].
      apply andb_false_iff. left. apply bool_decide_eq_false.
      intros [Hp1' _]%list_elem_of_filter.
      discriminate (eq_trans (eq_sym Hp1') Hp1).
    + split; [reflexivity|]. intros _. split; [|reflexivity].
      apply bool_decide_eq_false. unfold glob_star.
      intros [Hp2' _]%list_elem_of_filter.
      discriminate (eq_trans (eq_sym Hp2') Hp2).
Qed.


End CleanupEffect.

(* ===================================================================== *)
(** * handler.py: runs that fail early                                    *)
(* ===================================================================== *)

Section EarlyFailures.

Variable ext : Externals.

(** The end of every run: the cleanup and the callback on the envelope
    [payload], from the world [w1] that the [try] block left. *)
Lemma finalize_run (event : JobEvent) (payload : gmap string JVal) (w1 : World) :
  let w2 := (cleanup_temp_files ext (ev_recording_id event) w1).2 in
  let w3 := (_send_callback ext (ev_callback_url event) (ev_callback_secret event)
               payload w2).2 in
  exists removed1 removed2,
    w_trace w3
    = w_trace w1
      ++ (EvGlob (("/tmp/" +:+ ev_recording_id event +:+ "_input") +:+ "*")
            :: map EvRemove removed1)
      ++ (EvGlob (("/tmp/" +:+ ev_recording_id event +:+ "_audio") +:+ "*")
            :: map EvRemove removed2)
      ++ [EvPost (ev_callback_url event) (json_dumps ext payload)
            (hmac_sha256_hex ext (ev_callback_secret event) (json_dumps ext payload))] /\
    w_tmp w3
    = filter (fun f => survives_cleanup ext (ev_recording_id event) f = true) (w_tmp w1).
Proof.
  intros w2 w3.
  destruct (cleanup_temp_files_run ext (ev_recording_id event) w1)
    as (w2' & removed1 & removed2 & Hclean & Htr2 & _).
  destruct (cleanup_temp_files_tmp ext (ev_recording_id event) w1)
    as (w2'' & Hclean' & Htmp2 & _).
  rewrite Hclean in Hclean'. injection Hclean' as <-.
  destruct (send_callback_run ext (ev_callback_url event) (ev_callback_secret event)
              payload w2') as (w3' & Hsend & Htr3 & Htmp3).
  assert (w2 = w2') as -> by (unfold w2; rewrite Hclean; reflexivity).
  assert (w3 = w3') as -> by (unfold w3; rewrite Hsend; reflexivity).
  exists removed1, removed2. split.
  - rewrite Htr3, Htr2, <- !app_assoc. reflexivity.
  - rewrite Htmp3. exact Htmp2.
Qed.

(** X18. A job without an address: when neither [audio_url] nor [video_url] is
    given (absent or empty), no stage is called. The run returns the error
    envelope with the message of line 54, and its only calls are those of
    the cleanup and the one callback that carries this envelope. *)
Theorem process_transcription_without_url (event : JobEvent) (w : World) :
  Py.truthy_opt (ev_audio_url event) = false ->
  Py.truthy_opt (ev_video_url event) = false ->
  exists payload w' removed1 removed2,
    process_transcription ext event w = (Ok payload, w') /\
    payload
    = <["processing_seconds" :=
          JInt (Py.int_of_float
                  (time_time ext (S (w_ticks w)) - time_time ext (w_ticks w))%Q)]>
        (<["error" := JStr "No audio_url or video_url provided"]>
           (initial_result (ev_recording_id event))) /\
    w_trace w'
    = w_trace w
      ++ (EvGlob (("/tmp/" +:+ ev_recording_id event +:+ "_input") +:+ "*")
            :: map EvRemove removed1)
      ++ (EvGlob (("/tmp/" +:+ ev_recording_id event +:+ "_audio") +:+ "*")
            :: map EvRemove removed2)
      ++ [EvPost (ev_callback_url event) (json_dumps ext payload)
            (hmac_sha256_hex ext (ev_callback_secret event) (json_dumps ext payload))].
Proof.
  intros Ha Hv. rewrite process_transcription_unfold.
  unfold try_except. rewrite run_stages_unfold. cbv zeta.
  unfold Py.or_else. rewrite Ha, Hv. cbn [negb].
  unfold on_exception. rewrite bind_set_result, bind_lift.
  cbn [f_world result now set_result modify str_of_exn fst snd w_ticks set_ticks].
  match goal with
  | |- context [_send_callback ext _ _ ?p (cleanup_temp_files ext _ ?w1).2] =>
      destruct (finalize_run event p w1) as (removed1 & removed2 & Htr & _)
  end.
  do 2 eexists. exists removed1, removed2.
  split; [reflexivity|]. split; [reflexivity|]. exact Htr.
Qed.

(** X19. [audio_url] goes before [video_url]: when [audio_url] is given and not
    empty, the run is the same whatever [video_url] is. *)
Theorem process_transcription_prefers_audio_url (event : JobEvent)
    (video_url : option string) (w : World) :
  Py.truthy_opt (ev_audio_url event) = true ->
  process_transcription ext (with_video_url video_url event) w
  = process_transcription ext event w.
Proof.
  intros Ha. unfold process_transcription, run_stages, finalize, Py.or_else.
  cbn [with_video_url ev_recording_id ev_audio_url ev_video_url ev_callback_url
       ev_callback_secret ev_language ev_model_size ev_num_speakers].
  rewrite Ha. reflexivity.
Qed.

Lemma download_audio_failure (url rid : string) (e : Exn) (kept : bool) (w : World) :
  (forall path, download_file ext url path = (Raise e, kept)) ->
  exists path w1,
    download_audio ext url rid w = (Raise e, w1) /\
    w_trace w1 = w_trace w ++ [EvDownload url path] /\
    w_ticks w1 = w_ticks w.
Proof.
  intros Hfail. unfold download_audio. run_m. cbv zeta. rewrite Hfail.
  destruct kept; cbn; do 2 eexists; (split; [reflexivity|]); split; reflexivity.
Qed.

(** X20. A download that fails: the later stages are not called. The envelope
    is the error envelope with the text of the exception of
    [download_file], and the only calls of the run are the download, the
    cleanup and the callback. *)
Theorem process_transcription_download_failure (event : JobEvent) (w : World)
    (url : string) (e : Exn) (kept : bool) :
  Py.or_else (ev_audio_url event) (ev_video_url event) = Some url ->
  Py.truthy url = true ->
  (forall path, download_file ext url path = (Raise e, kept)) ->
  exists payload w' path removed1 removed2,
    process_transcription ext event w = (Ok payload, w') /\
    payload !! "status" = Some (JStr "error") /\
    payload !! "error" = Some (JStr (str_of_exn e)) /\
    w_trace w'
    = w_trace w ++ [EvDownload url path]
      ++ (EvGlob (("/tmp/" +:+ ev_recording_id event +:+ "_input") +:+ "*")
            :: map EvRemove removed1)
      ++ (EvGlob (("/tmp/" +:+ ev_recording_id event +:+ "_audio") +:+ "*")
            :: map EvRemove removed2)
      ++ [EvPost (ev_callback_url event) (json_dumps ext payload)
            (hmac_sha256_hex ext (ev_callback_secret event) (json_dumps ext payload))].
Proof.
  intros Hurl Htruthy Hfail. rewrite process_transcription_unfold.
  unfold try_except. rewrite run_stages_unfold. cbv zeta.
  rewrite Hurl. cbn [Py.truthy_opt]. rewrite Htruthy. cbn [negb f_world].
  change (default "" (Some url)) with url.
  destruct (download_audio_failure url (ev_recording_id event) e kept
              (set_ticks (S (w_ticks w)) w) Hfail) as (path & w1 & Hrun & Htr1 & Hticks).
  rewrite Hrun.
  unfold on_exception. rewrite bind_set_result, bind_lift.
  cbn [f_world result with_world now set_result modify fst snd].
  match goal with
  | |- context [_send_callback ext _ _ ?p (cleanup_temp_files ext _ ?w1).2] =>
      destruct (finalize_run event p w1) as (removed1 & removed2 & Htr & _)
  end.
  do 2 eexists. exists path, removed1, removed2.
  split; [reflexivity|].
  split; [unfold initial_result; by simplify_map_eq|].
  split; [unfold initial_result; by simplify_map_eq|].
  rewrite Htr. cbn [w_trace set_ticks]. rewrite Htr1. cbn [w_trace set_ticks].
  rewrite <- !app_assoc. reflexivity.
Qed.

End EarlyFailures.

(* ===================================================================== *)
(** * handler.py: the scratch directory over a run                        *)
(* ===================================================================== *)

Section ScratchDirectory.

Variable ext : Externals.







Lemma fill_model_cache_surroundings (name : string) (w : World) :
  same_surroundings w (fill_model_cache ext name w).2.
Proof.
  unfold fill_model_cache. run_m.
  destruct (_model_cache w !! name); [done|].
  cbn -[lookup insert]. destruct (whisper_load_model ext name); done.
Qed.

Lemma transcribe_surroundings (wav model_size : string) (language : option string)
    (w : World) :
  same_surroundings w (transcribe ext wav model_size language w).2.
Proof.
  unfold transcribe. cbv zeta. unfold bind at 1.
  destruct (fill_model_cache_surroundings
              (default model_size (model_map !! model_size)) w) as [Ht He].
  destruct (fill_model_cache ext _ w) as [[[]|e] w1]; cbn [snd] in Ht, He;
    [|exact (conj Ht He)].
  unfold same_surroundings. rewrite <- Ht, <- He. run_m.
  destruct (_model_cache w1 !! _) as [model|]; [|done].
  cbn -[lookup insert].
  destruct (model wav _) as [res|e]; [|done].
  destruct (default [] (res_segments res)); done.
Qed.





End ScratchDirectory.

(* ===================================================================== *)
(** * handler.py: a run without the diarization credential                *)
(* ===================================================================== *)

Section UnconfiguredRun.

Variable ext : Externals.

Lemma download_audio_environ (url rid : string) (w : World) :
  w_environ (download_audio ext url rid w).2 = w_environ w.
Proof.
  unfold download_audio. run_m. cbv zeta.
  destruct (download_file ext url _) as [[n|e] [|]]; reflexivity.
Qed.

Lemma convert_to_wav_environ (input rid : string) (w : World) :
  w_environ (convert_to_wav ext input rid w).2 = w_environ w.
Proof.
  unfold convert_to_wav. run_m. cbv zeta.
  destruct (ffmpeg ext input _) as [[n|e] [|]]; reflexivity.
Qed.

Lemma count_distinct_zeros (xs : list Z) :
  Forall (fun x => x = 0) xs -> (Py.count_distinct xs <= 1)%nat.
Proof.
  unfold Py.count_distinct. induction 1 as [|x l -> Hl IH]; [cbn; lia|].
  cbn [remove_dups]. destruct (decide_rel elem_of 0 l) as [|Hno]; [exact IH|].
  destruct Hl as [|y l' -> _]; [cbn; lia|].
  exfalso. apply Hno, list_elem_of_here.
Qed.

Lemma default_labels_speaker_zero (segments : list loc) (h : list Segment) :
  Forall (fun u => utt_speaker u = 0)
    (utterances_of
       (format_output (omap (fun l => assign_default segments h !! l) segments))).
Proof.
  rewrite format_output_closed. unfold utterances_of. cbn [snd].
  apply Forall_map, Forall_forall.
  intros s [_ Hs]%list_elem_of_filter.
  apply list_elem_of_omap in Hs as (l & Hl & Hs).
  rewrite assign_default_lookup, decide_True in Hs by exact Hl.
  destruct (h !! l) as [s0|]; [|discriminate].
  inversion Hs; subst s. reflexivity.
Qed.

(** X22. The degraded mode on a whole run: when [HF_TOKEN] is absent or empty
    at the start of [process_transcription], every utterance of the
    envelope it returns has speaker 0, and its [speaker_count] is at most
    1, whatever the stages do. *)
Theorem process_transcription_unconfigured_one_speaker (event : JobEvent) (w : World) :
  Py.truthy_opt (w_environ w !! "HF_TOKEN") = false ->
  exists payload,
    (process_transcription ext event w).1 = Ok payload /\
    (forall utts, payload !! "transcript_utterances" = Some (JUtterances utts) ->
                  Forall (fun u => utt_speaker u = 0) utts /\
                  exists n, payload !! "speaker_count" = Some (JInt n) /\ 0 <= n <= 1).
Proof.
  intros Htok. rewrite process_transcription_unfold. cbv zeta. cbn [fst].
  eexists. split; [reflexivity|].
  assert (Herr : forall e w1 utts,
            result (on_exception ext (time_time ext (w_ticks w)) e
                      (with_world w1
                         {| f_world := set_ticks (S (w_ticks w)) w;
                            result := initial_result (ev_recording_id event) |})).2
            !! "transcript_utterances" = Some (JUtterances utts) -> False).
  { intros e w1 utts. unfold on_exception. rewrite bind_set_result, bind_lift.
    cbn [f_world result with_world now set_result modify fst snd].
    unfold initial_result. by simplify_map_eq. }
  unfold try_except. rewrite run_stages_unfold. cbv zeta.
  destruct (negb _).
  { intros utts Hu. exfalso. revert Hu.
    unfold on_exception. rewrite bind_set_result, bind_lift.
    cbn [f_world result with_world now set_result modify fst snd].
    unfold initial_result. by simplify_map_eq. }
  cbn [f_world result].
  pose proof (download_audio_environ
                (default "" (Py.or_else (ev_audio_url event) (ev_video_url event)))
                (ev_recording_id event) (set_ticks (S (w_ticks w)) w)) as E1.
  destruct (download_audio ext _ _ _) as [[local_path|e] w1]; cbn [snd] in E1;
    [|intros utts Hu; exfalso; exact (Herr _ _ _ Hu)].
  pose proof (convert_to_wav_environ local_path (ev_recording_id event) w1) as E2.
  destruct (convert_to_wav ext _ _ w1) as [[wav_path|e] w2]; cbn [snd] in E2;
    [|intros utts Hu; exfalso; exact (Herr _ _ _ Hu)].
  pose proof (transcribe_surroundings ext wav_path (default "medium" (ev_model_size event))
                (ev_language event) w2) as [_ E3].
  destruct (transcribe ext _ _ _ w2) as [[[segments language]|e] w3]; cbn [snd] in E3;
    [|intros utts Hu; exfalso; exact (Herr _ _ _ Hu)].
  rewrite diarize_unconfigured_run
    by (rewrite E3, E2, E1; exact Htok).
  pose proof (default_labels_speaker_zero segments (w_heap w3)) as Hzero.
  assert (Hsegs : omap (fun l => w_heap match segments with
                                        | [] => w3
                                        | _ => set_heap (assign_default segments (w_heap w3)) w3
                                        end !! l) segments
                  = omap (fun l => assign_default segments (w_heap w3) !! l) segments).
  { destruct segments; reflexivity. }
  rewrite Hsegs.
  destruct (format_output _) as [[text json] utts0]. unfold utterances_of in Hzero.
  cbn [snd] in Hzero.
  destruct (get_audio_duration ext _ _) as [[duration|e] w5];
    [|intros utts Hu; exfalso; exact (Herr _ _ _ Hu)].
  cbn [snd result]. unfold success_result, initial_result.
  intros utts Hu. simplify_map_eq. split; [exact Hzero|].
  eexists. split; [reflexivity|].
  pose proof (count_distinct_zeros (map utt_speaker utts)) as Hc.
  assert (Forall (fun x => x = 0) (map utt_speaker utts)) as Hall.
  { apply Forall_map. exact Hzero. }
  specialize (Hc Hall). lia.
Qed.

End UnconfiguredRun.

(* ===================================================================== *)
(** * format_output.py: the text of an utterance is trimmed               *)
(* ===================================================================== *)

Section TrimmedText.

Lemma rev_app_append (s t : string) : String.rev_app s t = String.rev_app s "" +:+ t.
Proof.
  revert t. induction s as [|c s IH]; intros t; cbn [String.rev_app]; [reflexivity|].
  rewrite (IH (String c t)), (IH (String c "")), append_assoc. reflexivity.
Qed.

Lemma rev_cons (c : ascii) (s : string) :
  String.rev (String c s) = String.rev s +:+ String c "".
Proof. unfold String.rev. cbn [String.rev_app]. apply rev_app_append. Qed.

Lemma rev_append (a b : string) : String.rev (a +:+ b) = String.rev b +:+ String.rev a.
Proof.
  induction a as [|c a IH]; cbn [String.append].
  - symmetry. apply append_nil_r.
  - rewrite !rev_cons, IH, append_assoc. reflexivity.
Qed.

Lemma rev_involutive (s : string) : String.rev (String.rev s) = s.
Proof.
  induction s as [|c s IH]; [reflexivity|].
  rewrite rev_cons, rev_append, IH. reflexivity.
Qed.

Lemma lstrip_idempotent (s : string) : Py.lstrip (Py.lstrip s) = Py.lstrip s.
Proof.
  induction s as [|c s IH]; [reflexivity|].
  cbn [Py.lstrip]. destruct (Py.isspace c) eqn:Hc; [exact IH|].
  cbn [Py.lstrip]. rewrite Hc. reflexivity.
Qed.

Lemma rstrip_idempotent (s : string) : Py.rstrip (Py.rstrip s) = Py.rstrip s.
Proof. unfold Py.rstrip. rewrite rev_involutive, lstrip_idempotent. reflexivity. Qed.

Lemma lstrip_keeps_last (x : string) (c : ascii) :
  Py.isspace c = false ->
  exists y, Py.lstrip (x +:+ String c "") = y +:+ String c "".
Proof.
  intros Hc. induction x as [|a x IH]; cbn [String.append Py.lstrip].
  - rewrite Hc. by exists "".
  - destruct (Py.isspace a); [exact IH|]. by exists (String a x).
Qed.

(** Trimming the right end leaves a left end that is already trimmed. *)
Lemma lstrip_rstrip_lstrip (s : string) :
  Py.lstrip (Py.rstrip (Py.lstrip s)) = Py.rstrip (Py.lstrip s).
Proof.
  destruct (Py.lstrip s) as [|c t] eqn:Hs; [reflexivity|].
  assert (Hc : Py.isspace c = false).
  { clear -Hs. induction s as [|a s IH]; [discriminate|].
    cbn [Py.lstrip] in Hs. destruct (Py.isspace a) eqn:Ha; [by apply IH|].
    injection Hs as -> _. exact Ha. }
  unfold Py.rstrip. rewrite rev_cons.
  destruct (lstrip_keeps_last (String.rev t) c Hc) as [y ->].
  rewrite rev_append. cbn [String.rev String.rev_app String.append Py.lstrip].
  rewrite Hc. reflexivity.
Qed.

Lemma strip_idempotent (s : string) : Py.strip (Py.strip s) = Py.strip s.
Proof.
  unfold Py.strip. rewrite lstrip_rstrip_lstrip. apply rstrip_idempotent.
Qed.

(** X23. The text of every utterance is trimmed: [strip] leaves it as it is, so
    it neither begins nor ends with white space. *)
Theorem format_output_text_trimmed (segs : list Segment) :
  Forall (fun u => Py.strip (utt_text u) = utt_text u)
    (utterances_of (format_output segs)).
Proof.
  rewrite format_output_closed. unfold utterances_of. cbn [snd].
  apply Forall_map, Forall_forall. intros seg _.
  cbn [utterance_of utt_text]. apply strip_idempotent.
Qed.

End TrimmedText.

(* ===================================================================== *)
(** * server.py                                                           *)
(* ===================================================================== *)

Section ServerFacts.

Variable ext : Externals.

Lemma download_audio_trace (url rid : string) (w : World) :
  exists path,
    w_trace (download_audio ext url rid w).2 = w_trace w ++ [EvDownload url path].
Proof.
  unfold download_audio. run_m. cbv zeta.
  destruct (download_file ext url _) as [[n|e] [|]]; eexists; reflexivity.
Qed.

Lemma trace_grows_trans (w1 w2 w3 : World) (mid : list Event) :
  w_trace w2 = w_trace w1 ++ mid ->
  extends is_stage_event w2 w3 ->
  exists rest, w_trace w3 = w_trace w1 ++ mid ++ rest.
Proof.
  intros H12 (t & H23 & _). exists t. rewrite H23, H12, app_assoc. reflexivity.
Qed.

(** With an address, the first call of the [try] block is the download of
    that address. *)
Lemma guarded_stages_first_call (event : JobEvent) (start_time : Q) (fr : Frame)
    (url : string) :
  Py.or_else (ev_audio_url event) (ev_video_url event) = Some url ->
  Py.truthy url = true ->
  let out := try_except (run_stages ext event start_time) (on_exception ext start_time)
               fr in
  exists path rest,
    w_trace (f_world out.2) = w_trace (f_world fr) ++ [EvDownload url path] ++ rest.
Proof.
  intros Hurl Htruthy out.
  assert (Hexc : forall e w1,
            w_trace (f_world (on_exception ext start_time e (with_world w1 fr)).2)
            = w_trace w1).
  { intros e w1. unfold on_exception. rewrite bind_set_result, bind_lift. reflexivity. }
  unfold out, try_except. rewrite run_stages_unfold. cbv zeta.
  rewrite Hurl. cbn [Py.truthy_opt]. rewrite Htruthy. cbn [negb].
  change (default "" (Some url)) with url.
  destruct (download_audio_trace url (ev_recording_id event) (f_world fr)) as [path H1].
  exists path.
  destruct (download_audio ext _ _ (f_world fr)) as [[local_path|e] w1]; cbn [snd] in H1;
    [|exists []; rewrite Hexc, H1; reflexivity].
  pose proof (convert_to_wav_extends ext local_path (ev_recording_id event) w1) as E2.
  destruct (convert_to_wav ext _ _ w1) as [[wav_path|e] w2]; cbn [snd] in E2;
    [|rewrite Hexc; exact (trace_grows_trans _ _ _ _ H1 E2)].
  pose proof (transcribe_extends ext wav_path (default "medium" (ev_model_size event))
                (ev_language event) w2) as E3.
  pose proof (extends_trans _ _ _ _ E2 E3) as E23. clear E2 E3.
  destruct (transcribe ext _ _ _ w2) as [[[segments language]|e] w3]; cbn [snd] in E23;
    [|rewrite Hexc; exact (trace_grows_trans _ _ _ _ H1 E23)].
  pose proof (diarize_extends ext wav_path segments (ev_num_speakers event) w3) as E4.
  pose proof (extends_trans _ _ _ _ E23 E4) as E24. clear E23 E4.
  destruct (diarize ext _ _ _ w3) as [[diarized|e] w4]; cbn [snd] in E24;
    [|rewrite Hexc; exact (trace_grows_trans _ _ _ _ H1 E24)].
  destruct (format_output _) as [[text json] utts].
  pose proof (get_audio_duration_extends ext wav_path w4) as E5.
  pose proof (extends_trans _ _ _ _ E24 E5) as E25. clear E24 E5.
  destruct (get_audio_duration ext _ w4) as [[duration|e] w5]; cbn [snd] in E25;
    [|rewrite Hexc; exact (trace_grows_trans _ _ _ _ H1 E25)].
  cbn [snd f_world]. exact (trace_grows_trans _ _ _ _ H1 E25).
Qed.

(** X24. The endpoint and the pipeline agree on what a job needs. A request
    without [audio_url] and without [video_url] is answered with status 400
    and adds no task. Any other request adds one task, the dump of the
    request, and the run of that task begins with the download of
    [audio_url], or of [video_url] when [audio_url] is absent or empty: it
    never ends in the error for a missing address without a call. *)
Theorem accepted_request_reaches_download (req : Server.TranscribeRequest) (w : World) :
  match Server.transcribe req with
  | (Server.HTTPException status_code _, tasks) =>
      status_code = 400 /\ tasks = [] /\
      Py.truthy_opt (Server.audio_url req) = false /\
      Py.truthy_opt (Server.video_url req) = false
  | (Server.Accepted _ recording_id, tasks) =>
      recording_id = Server.recording_id req /\
      tasks = [Server.model_dump req] /\
      exists url path rest,
        Py.or_else (Server.audio_url req) (Server.video_url req) = Some url /\
        Py.truthy url = true /\
        w_trace (process_transcription ext (Server.model_dump req) w).2
        = w_trace w ++ EvDownload url path :: rest
  end.
Proof.
  unfold Server.transcribe.
  destruct (Py.truthy_opt (Server.audio_url req)) eqn:Ha;
    [|destruct (Py.truthy_opt (Server.video_url req)) eqn:Hv]; cbn [negb andb];
    [| |done].
  - split; [reflexivity|]. split; [reflexivity|].
    assert (exists url, Py.or_else (Server.audio_url req) (Server.video_url req) = Some url
                        /\ Py.truthy url = true) as (url & Hurl & Htruthy).
    { unfold Py.or_else. rewrite Ha. destruct (Server.audio_url req) as [a|];
        [by exists a | discriminate]. }
    rewrite process_transcription_unfold. cbv zeta. cbn [snd].
    pose proof (guarded_stages_first_call (Server.model_dump req)
                  (time_time ext (w_ticks w))
                  {| f_world := set_ticks (S (w_ticks w)) w;
                     result := initial_result (ev_recording_id (Server.model_dump req)) |}
                  url Hurl Htruthy) as (path & rest & Htr).
    cbv zeta in Htr.
    match goal with
    | |- context [_send_callback ext _ _ ?p (cleanup_temp_files ext _ ?w1).2] =>
        destruct (finalize_run ext (Server.model_dump req) p w1)
          as (removed1 & removed2 & Hfin & _)
    end.
    exists url, path. eexists. split; [exact Hurl|]. split; [exact Htruthy|].
    cbv zeta in Hfin. rewrite Hfin, Htr. cbn [f_world w_trace set_ticks].
    rewrite <- !app_assoc. reflexivity.
  - split; [reflexivity|]. split; [reflexivity|].
    assert (exists url, Py.or_else (Server.audio_url req) (Server.video_url req) = Some url
                        /\ Py.truthy url = true) as (url & Hurl & Htruthy).
    { unfold Py.or_else. rewrite Ha. destruct (Server.video_url req) as [v|];
        [by exists v | discriminate]. }
    rewrite process_transcription_unfold. cbv zeta. cbn [snd].
    pose proof (guarded_stages_first_call (Server.model_dump req)
                  (time_time ext (w_ticks w))
                  {| f_world := set_ticks (S (w_ticks w)) w;
                     result := initial_result (ev_recording_id (Server.model_dump req)) |}
                  url Hurl Htruthy) as (path & rest & Htr).
    cbv zeta in Htr.
    match goal with
    | |- context [_send_callback ext _ _ ?p (cleanup_temp_files ext _ ?w1).2] =>
        destruct (finalize_run ext (Server.model_dump req) p w1)
          as (removed1 & removed2 & Hfin & _)
    end.
    exists url, path. eexists. split; [exact Hurl|]. split; [exact Htruthy|].
    cbv zeta in Hfin. rewrite Hfin, Htr. cbn [f_world w_trace set_ticks].
    rewrite <- !app_assoc. reflexivity.
Qed.

(** X25. A background job on one thread: [_run_transcription] returns, the
    counter [_active_jobs] is what it was, and [_models_warm] is set,
    whatever the outcome of the job, since [process_transcription] reports
    a failure in its envelope and does not raise. *)
Theorem run_transcription_restores_counter (event : JobEvent) (g : Server.Globals)
    (w : World) :
  Server._run_transcription ext event (g, w)
  = (Ok tt,
     ({| Server._models_warm := true; Server._active_jobs := Server._active_jobs g |},
      (process_transcription ext event w).2)).
Proof.
  unfold Server._run_transcription, Server.add_active_jobs, Server.set_models_warm,
    Server.on_world.
  run_m. cbn [fst snd].
  pose proof (process_transcription_unfold ext event w) as Hrun. cbv zeta in Hrun.
  destruct (process_transcription ext event w) as [r w'].
  injection Hrun as -> _.
  cbn [fst snd Server._active_jobs Server._models_warm].
  replace (Server._active_jobs g + 1 + -1) with (Server._active_jobs g) by lia.
  reflexivity.
Qed.

End ServerFacts.

Section ServerPool.

Lemma in_flight_insert (pcs : list Server.Pc) (i : nat) (pc pc' : Server.Pc) :
  pcs !! i = Some pc ->
  (length (filter (fun pc => Server.in_flight pc = true) (<[i := pc']> pcs))
   + (if Server.in_flight pc then 1 else 0)
   = length (filter (fun pc => Server.in_flight pc = true) pcs)
     + (if Server.in_flight pc' then 1 else 0))%nat.
Proof.
  revert i. induction pcs as [|p pcs IH]; intros i Hi; [discriminate|].
  destruct i as [|i].
  - injection Hi as ->. change (<[0%nat := pc']> (pc :: pcs)) with (pc' :: pcs).
    rewrite !filter_cons.
    destruct (decide (Server.in_flight pc' = true)) as [->|H'%not_true_is_false];
      [|rewrite H'];
      (destruct (decide (Server.in_flight pc = true)) as [->|H%not_true_is_false];
       [|rewrite H]); cbn [length]; lia.
  - change (<[S i := pc']> (p :: pcs)) with (p :: <[i := pc']> pcs).
    rewrite !filter_cons. specialize (IH i Hi).
    destruct (decide (Server.in_flight p = true)); cbn [length]; lia.
Qed.

Lemma jobs_in_flight_insert (pcs : list Server.Pc) (i : nat) (pc pc' : Server.Pc) :
  pcs !! i = Some pc ->
  jobs_in_flight (<[i := pc']> pcs)
  = jobs_in_flight pcs
    - (if Server.in_flight pc then 1 else 0) + (if Server.in_flight pc' then 1 else 0).
Proof.
  intros Hi. unfold jobs_in_flight. pose proof (in_flight_insert pcs i pc pc' Hi) as H.
  destruct (Server.in_flight pc), (Server.in_flight pc'); lia.
Qed.

Lemma pool_step_invariant (i : nat) (s : list Server.Pc * Server.Globals) :
  Server._active_jobs (Server.pool_step i s).2 - jobs_in_flight (Server.pool_step i s).1
  = Server._active_jobs s.2 - jobs_in_flight s.1.
Proof.
  unfold Server.pool_step. destruct s as [pcs g]. cbn [fst snd].
  destruct (pcs !! i) as [pc|] eqn:Hi; [|reflexivity].
  destruct pc; cbn [Server.step fst snd Server._active_jobs];
    rewrite (jobs_in_flight_insert pcs i _ _ Hi); cbn [Server.in_flight]; lia.
Qed.

(** X26. Jobs on several threads: in every interleaving of the statements of
    [_run_transcription], [_active_jobs] moves with the number of jobs
    that have made their increment and not yet their decrement. From a
    pool of queued jobs and a counter of 0 it is that number, and it is 0
    again when all jobs are done. *)
Theorem active_jobs_counts_jobs_in_flight (schedule : list nat) (pcs : list Server.Pc)
    (g : Server.Globals) :
  let out := Server.run_pool schedule (pcs, g) in
  Server._active_jobs out.2 - jobs_in_flight out.1
  = Server._active_jobs g - jobs_in_flight pcs.
Proof.
  cbv zeta. unfold Server.run_pool. revert pcs g.
  induction schedule as [|i schedule IH]; intros pcs g; [reflexivity|].
  cbn [fold_left].
  pose proof (pool_step_invariant i (pcs, g)) as Hstep.
  destruct (Server.pool_step i (pcs, g)) as [pcs' g'].
  rewrite IH. exact Hstep.
Qed.

End ServerPool.

(* ===================================================================== *)
(** * handler.py: the envelope                                            *)
(* ===================================================================== *)

Section Envelope.

Variable ext : Externals.

(** X27. The callback has no say in the result: whether [requests.post]
    answers, answers with an error status or raises, the run returns the
    same envelope, leaves the same scratch directory, segments and cached
    models, and logs the same calls. *)
Theorem process_transcription_whatever_the_callback
    (post : string -> string -> string -> Result Z) (event : JobEvent) (w : World) :
  let out := process_transcription ext event w in
  let out' := process_transcription (with_requests_post post ext) event w in
  out'.1 = out.1 /\ w_trace out'.2 = w_trace out.2 /\ w_tmp out'.2 = w_tmp out.2 /\
  w_heap out'.2 = w_heap out.2 /\ _model_cache out'.2 = _model_cache out.2 /\
  _diarize_model out'.2 = _diarize_model out.2.
Proof.
  cbv zeta. rewrite !process_transcription_unfold. cbv zeta. cbn [fst snd].
  change (time_time (with_requests_post post ext)) with (time_time ext).
  change (run_stages (with_requests_post post ext)) with (run_stages ext).
  change (on_exception (with_requests_post post ext)) with (on_exception ext).
  change (cleanup_temp_files (with_requests_post post ext))
    with (cleanup_temp_files ext).
  split; [reflexivity|].
  unfold _send_callback. run_m. cbv zeta. cbn [modify].
  change (json_dumps (with_requests_post post ext)) with (json_dumps ext).
  change (hmac_sha256_hex (with_requests_post post ext)) with (hmac_sha256_hex ext).
  destruct (requests_post ext _ _ _), (requests_post (with_requests_post post ext) _ _ _);
    repeat split.
Qed.

(** X28. A success envelope is consistent: its three forms of the transcript
    are the same utterances (one line per utterance in the text, the same
    list in the JSON form), [word_count] counts the words of the text,
    [speaker_count] the distinct speakers of the utterances, and [error] is
    still null. *)
Theorem success_envelope_consistent (event : JobEvent) (w : World)
    (payload : gmap string JVal) :
  (process_transcription ext event w).1 = Ok payload ->
  payload !! "status" = Some (JStr "success") ->
  exists utts,
    payload !! "transcript_utterances" = Some (JUtterances utts) /\
    payload !! "transcript_json" = Some (JObject {[ "utterances" := utts ]}) /\
    payload !! "transcript_text" = Some (JStr (Py.join newline (map line_of utts))) /\
    payload !! "word_count"
    = Some (JInt (Z.of_nat (Py.count_tokens false (Py.join newline (map line_of utts))))) /\
    payload !! "speaker_count"
    = Some (JInt (Z.of_nat (Py.count_distinct (map utt_speaker utts)))) /\
    payload !! "error" = Some JNull.
Proof.
  rewrite process_transcription_unfold. cbv zeta. cbn [fst].
  intros [= <-].
  assert (Herr : forall e w1,
            result (on_exception ext (time_time ext (w_ticks w)) e
                      (with_world w1
                         {| f_world := set_ticks (S (w_ticks w)) w;
                            result := initial_result (ev_recording_id event) |})).2
            !! "status" = Some (JStr "success") -> False).
  { intros e w1. unfold on_exception. rewrite bind_set_result, bind_lift.
    cbn [f_world result with_world now set_result modify fst snd].
    unfold initial_result. by simplify_map_eq. }
  unfold try_except. rewrite run_stages_unfold. cbv zeta.
  destruct (negb _).
  { intros Hs. exfalso. revert Hs.
    unfold on_exception. rewrite bind_set_result, bind_lift.
    cbn [f_world result with_world now set_result modify fst snd].
    unfold initial_result. by simplify_map_eq. }
  cbn [f_world result].
  destruct (download_audio ext _ _ _) as [[local_path|e] w1];
    [|intros Hs; exfalso; exact (Herr _ _ Hs)].
  destruct (convert_to_wav ext _ _ w1) as [[wav_path|e] w2];
    [|intros Hs; exfalso; exact (Herr _ _ Hs)].
  destruct (transcribe ext _ _ _ w2) as [[[segments language]|e] w3];
    [|intros Hs; exfalso; exact (Herr _ _ Hs)].
  destruct (diarize ext _ _ _ w3) as [[diarized|e] w4];
    [|intros Hs; exfalso; exact (Herr _ _ Hs)].
  rewrite format_output_closed. cbv zeta.
  destruct (get_audio_duration ext _ _) as [[duration|e] w5];
    [|intros Hs; exfalso; exact (Herr _ _ Hs)].
  intros _. cbn [snd result]. unfold success_result, initial_result.
  eexists. repeat split; by simplify_map_eq.
Qed.

End Envelope.

(* ===================================================================== *)
(** * Instances                                                           *)
(* ===================================================================== *)

Lemma process_transcription_without_url_witness :
  exists payload w' removed1 removed2,
    process_transcription offline job_without_url empty_world = (Ok payload, w') /\
    payload
    = <["processing_seconds" :=
          JInt (Py.int_of_float
                  (time_time offline (S (w_ticks empty_world))
                   - time_time offline (w_ticks empty_world))%Q)]>
        (<["error" := JStr "No audio_url or video_url provided"]>
           (initial_result (ev_recording_id job_without_url))) /\
    w_trace w'
    = w_trace empty_world
      ++ (EvGlob (("/tmp/" +:+ ev_recording_id job_without_url +:+ "_input") +:+ "*")
            :: map EvRemove removed1)
      ++ (EvGlob (("/tmp/" +:+ ev_recording_id job_without_url +:+ "_audio") +:+ "*")
            :: map EvRemove removed2)
      ++ [EvPost (ev_callback_url job_without_url) (json_dumps offline payload)
            (hmac_sha256_hex offline (ev_callback_secret job_without_url)
               (json_dumps offline payload))].
Proof.
  apply (process_transcription_without_url offline job_without_url empty_world);
    reflexivity.
Defined.

Lemma process_transcription_prefers_audio_url_witness :
  process_transcription offline
    (with_video_url (Some "https://media.example/rec1.mp4") job) empty_world
  = process_transcription offline job empty_world.
Proof.
  apply (process_transcription_prefers_audio_url offline job
           (Some "https://media.example/rec1.mp4") empty_world).
  reflexivity.
Defined.

Lemma process_transcription_download_failure_witness :
  exists payload w' path removed1 removed2,
    process_transcription offline job empty_world = (Ok payload, w') /\
    payload !! "status" = Some (JStr "error") /\
    payload !! "error" = Some (JStr (str_of_exn (Exception "no network"))) /\
    w_trace w'
    = w_trace empty_world ++ [EvDownload "https://media.example/rec1.mp3" path]
      ++ (EvGlob (("/tmp/" +:+ ev_recording_id job +:+ "_input") +:+ "*")
            :: map EvRemove removed1)
      ++ (EvGlob (("/tmp/" +:+ ev_recording_id job +:+ "_audio") +:+ "*")
            :: map EvRemove removed2)
      ++ [EvPost (ev_callback_url job) (json_dumps offline payload)
            (hmac_sha256_hex offline (ev_callback_secret job)
               (json_dumps offline payload))].
Proof.
  apply (process_transcription_download_failure offline job empty_world
           "https://media.example/rec1.mp3" (Exception "no network") false);
    reflexivity.
Defined.


Lemma process_transcription_unconfigured_one_speaker_witness :
  exists payload,
    (process_transcription pipeline_unavailable job empty_world).1 = Ok payload /\
    (forall utts, payload !! "transcript_utterances" = Some (JUtterances utts) ->
                  Forall (fun u => utt_speaker u = 0) utts /\
                  exists n, payload !! "speaker_count" = Some (JInt n) /\ 0 <= n <= 1).
Proof.
  apply (process_transcription_unconfigured_one_speaker pipeline_unavailable job
           empty_world).
  reflexivity.
Defined.

Lemma success_envelope_consistent_witness :
  exists payload utts,
    (process_transcription pipeline_unavailable job empty_world).1 = Ok payload /\
    payload !! "status" = Some (JStr "success") /\
    payload !! "transcript_utterances" = Some (JUtterances utts) /\
    payload !! "transcript_json" = Some (JObject {[ "utterances" := utts ]}) /\
    payload !! "transcript_text" = Some (JStr (Py.join newline (map line_of utts))) /\
    payload !! "word_count"
    = Some (JInt (Z.of_nat (Py.count_tokens false (Py.join newline (map line_of utts))))) /\
    payload !! "speaker_count"
    = Some (JInt (Z.of_nat (Py.count_distinct (map utt_speaker utts)))) /\
    payload !! "error" = Some JNull.
Proof.
  assert (exists payload,
            (process_transcription pipeline_unavailable job empty_world).1 = Ok payload /\
            payload !! "status" = Some (JStr "success")) as (payload & Hrun & Hstatus).
  { exists (match (process_transcription pipeline_unavailable job empty_world).1 with
            | Ok p => p
            | Raise _ => ∅
            end).
    split; vm_compute; reflexivity. }
  destruct (success_envelope_consistent pipeline_unavailable job empty_world payload
              Hrun Hstatus) as (utts & H).
  exists payload, utts. split; [exact Hrun|]. split; [exact Hstatus|]. exact H.
Defined.
